(** * The SMTP session handler of inbucket (pkg/server/smtp/handler.go)

    A shallow embedding of the per-connection SMTP state machine: command
    parsing, the GREET/READY/MAIL handlers, the DATA phase with
    dot-unstuffing and the size limit, delivery to the manager, and the
    command loop of [startSession].

    Go strings and byte slices are sequences of bytes; both are modelled by
    [string] (a list of 8-bit [ascii] values).  Go [int] values that are
    only compared are modelled by [Z]; the [expvar] counters are 64-bit and
    wrap. *)

From Stdlib Require Import ZArith String Ascii List Lia DecimalString DecimalPos.
From stdpp Require Import gmap strings list.

Open Scope string_scope.
Open Scope list_scope.
Open Scope Z_scope.

(** ** Bytes and strings *)

Definition CR : ascii := "013"%char.
Definition LF : ascii := "010"%char.
Definition TAB : ascii := "009"%char.
Definition FF : ascii := "012"%char.
Definition SP : ascii := " "%char.

Definition CRLF : string := String CR (String LF "").

(** [len(s)] *)
Definition len (s : string) : Z := Z.of_nat (String.length s).

(** membership of a byte in a cutset such as ["\r\n"] or ["<> "] *)
Fixpoint inSet (cutset : string) (c : ascii) : bool :=
  match cutset with
  | EmptyString => false
  | String d rest => if Ascii.eqb c d then true else inSet rest c
  end.

(** [strings.TrimLeft(s, cutset)] for an ASCII cutset *)
Fixpoint TrimLeft (s cutset : string) : string :=
  match s with
  | EmptyString => EmptyString
  | String c rest => if inSet cutset c then TrimLeft rest cutset else s
  end.

(** [strings.TrimRight(s, cutset)] for an ASCII cutset *)
Fixpoint TrimRight (s cutset : string) : string :=
  match s with
  | EmptyString => EmptyString
  | String c rest =>
      match TrimRight rest cutset with
      | EmptyString => if inSet cutset c then EmptyString else String c EmptyString
      | kept => String c kept
      end
  end.

(** [strings.Trim(s, cutset)]: Go trims the right end, then the left end *)
Definition Trim (s cutset : string) : string :=
  TrimLeft (TrimRight s cutset) cutset.

(** every byte of [s] is in the cutset *)
Fixpoint allIn (cutset s : string) : bool :=
  match s with
  | EmptyString => true
  | String c rest => inSet cutset c && allIn cutset rest
  end.

Definition firstByte (s : string) : option ascii :=
  match s with
  | EmptyString => None
  | String c _ => Some c
  end.

Fixpoint lastByte (s : string) : option ascii :=
  match s with
  | EmptyString => None
  | String c EmptyString => Some c
  | String _ rest => lastByte rest
  end.

(** [t] is [s] without the cutset bytes at its end *)
Definition isTrimRightOf (cutset s t : string) : Prop :=
  exists tail,
    s = t +:+ tail
    /\ allIn cutset tail = true
    /\ (forall c, lastByte t = Some c -> inSet cutset c = false).

(** [t] is [s] without the cutset bytes at both of its ends *)
Definition isTrimOf (cutset s t : string) : Prop :=
  exists head tail,
    s = head +:+ t +:+ tail
    /\ allIn cutset head = true
    /\ allIn cutset tail = true
    /\ (forall c, firstByte t = Some c -> inSet cutset c = false)
    /\ (forall c, lastByte t = Some c -> inSet cutset c = false).

(** [s[n:]] *)
Fixpoint sliceFrom (n : nat) (s : string) : string :=
  match n, s with
  | O, _ => s
  | S n', String _ rest => sliceFrom n' rest
  | S _, EmptyString => EmptyString
  end.

(** [s[0:n]] *)
Fixpoint sliceTo (n : nat) (s : string) : string :=
  match n, s with
  | O, _ => EmptyString
  | S n', String c rest => String c (sliceTo n' rest)
  | S _, EmptyString => EmptyString
  end.

(** [strings.IndexRune(s, ' ')]: the prefix of [s] before the first space,
    or [None] when there is no space *)
Fixpoint beforeSpace (s : string) : option string :=
  match s with
  | EmptyString => None
  | String c rest =>
      if Ascii.eqb c SP then Some EmptyString
      else option_map (String c) (beforeSpace rest)
  end.

(** [fmt.Sprintf("%v", n)] for an [int] *)
Definition itoa (n : Z) : string := NilZero.string_of_int (Z.to_int n).

(** ASCII upper-casing: what [strings.ToUpper] does on a string made of
    ASCII bytes.  It instantiates the [ToUpper] parameter of the model when
    the model is run. *)
Definition upperByte (c : ascii) : ascii :=
  let n := nat_of_ascii c in
  if (97 <=? n)%nat && (n <=? 122)%nat then ascii_of_nat (n - 32) else c.

Fixpoint asciiToUpper (s : string) : string :=
  match s with
  | EmptyString => EmptyString
  | String c rest => String (upperByte c) (asciiToUpper rest)
  end.

(** ** Integers *)

(** [expvar.Int.Add]: a 64-bit signed addition *)
Definition wrap64 (z : Z) : Z := (z + 2 ^ 63) mod 2 ^ 64 - 2 ^ 63.
Definition Int_Add (v delta : Z) : Z := wrap64 (v + delta).

Definition isDigit (c : ascii) : bool :=
  let n := nat_of_ascii c in (48 <=? n)%nat && (n <=? 57)%nat.

(** the digits of [strconv.ParseInt] in base 10: every byte must be a
    decimal digit (an underscore is accepted in base 0 only) *)
Fixpoint parseDigits (acc : Z) (s : string) : option Z :=
  match s with
  | EmptyString => Some acc
  | String c rest =>
      if isDigit c
      then parseDigits (10 * acc + (Z.of_nat (nat_of_ascii c) - 48)) rest
      else None
  end.

(** [strconv.ParseInt(s, 10, 32)]: an optional sign, at least one digit, and
    a value that fits in 32 signed bits; [None] stands for a non-nil error
    (syntax or range) *)
Definition ParseInt32 (s : string) : option Z :=
  let '(neg, digits) :=
    match s with
    | String "+" rest => (false, rest)
    | String "-" rest => (true, rest)
    | _ => (false, s)
    end in
  match digits with
  | EmptyString => None
  | _ =>
      match parseDigits 0 digits with
      | None => None
      | Some un =>
          let v := if neg then - un else un in
          if (- 2 ^ 31 <=? v) && (v <=? 2 ^ 31 - 1) then Some v else None
      end
  end.

(** ** Regular expressions

    The handler uses two patterns of Go's [regexp] package.  Go's matcher
    returns the match a backtracking search finds first (leftmost, then by
    priority of alternatives, greedy repetition).  [rmatch] is that search,
    in continuation-passing style, over the bytes of the text: the patterns
    of the handler only distinguish ASCII bytes, except for the two
    non-ASCII letters that case folding adds to [\w] (written out as byte
    sequences below), so matching bytes and matching runes agree on them. *)

Inductive regex : Type :=
| Eps
| Class (p : ascii -> bool)
| Cat (r1 r2 : regex)
| Alt (r1 r2 : regex)
| Star (r : regex)
| Group (n : nat) (r : regex)
| BeginText
| EndText.

Definition Plus (r : regex) : regex := Cat r (Star r).
Definition Opt (r : regex) : regex := Alt r Eps.
Definition Lit (c : ascii) : regex := Class (Ascii.eqb c).

(** the submatches: [m n] is the text captured by group [n], the empty
    string when the group took no part in the match *)
Definition caps : Type := nat -> string.
Definition nocaps : caps := fun _ => EmptyString.
Definition setcap (n : nat) (v : string) (c : caps) : caps :=
  fun i => if Nat.eqb i n then v else c i.

(** [rmatch fuel r pos s c k]: match [r] at offset [pos], where [s] is the
    rest of the text, then continue with [k]; [None] when every alternative
    fails.  [fuel] bounds the iterations of [Star]; an iteration has to
    consume input, so more fuel than [String.length s] is never used up. *)
Fixpoint rmatch {R : Type} (fuel : nat)
  : regex -> nat -> string -> caps -> (nat -> string -> caps -> option R) -> option R :=
  fix go (r : regex) (pos : nat) (s : string) (c : caps)
         (k : nat -> string -> caps -> option R) {struct r} : option R :=
    match r with
    | Eps => k pos s c
    | Class p =>
        match s with
        | String a rest => if p a then k (S pos) rest c else None
        | EmptyString => None
        end
    | Cat r1 r2 => go r1 pos s c (fun pos' s' c' => go r2 pos' s' c' k)
    | Alt r1 r2 =>
        match go r1 pos s c k with
        | Some res => Some res
        | None => go r2 pos s c k
        end
    | Star r1 =>
        match fuel with
        | O => None
        | S fuel' =>
            match go r1 pos s c (fun pos' s' c' =>
                    if (String.length s' <? String.length s)%nat
                    then rmatch fuel' (Star r1) pos' s' c' k
                    else None) with
            | Some res => Some res
            | None => k pos s c
            end
        end
    | Group n r1 =>
        go r1 pos s c (fun pos' s' c' =>
          k pos' s' (setcap n (sliceTo (String.length s - String.length s') s) c'))
    | BeginText => if Nat.eqb pos 0 then k pos s c else None
    | EndText =>
        match s with
        | EmptyString => k pos s c
        | String _ _ => None
        end
    end.

(** the leftmost match of [re] at or after the current offset *)
Fixpoint search (re : regex) (fuel pos : nat) (s : string) : option caps :=
  match rmatch fuel (Group 0 re) pos s nocaps (fun _ _ c => Some c) with
  | Some c => Some c
  | None =>
      match s with
      | EmptyString => None
      | String _ rest => search re fuel (S pos) rest
      end
  end.

(** [re.FindStringSubmatch(s)]; [None] is Go's [nil] *)
Definition FindStringSubmatch (re : regex) (s : string) : option caps :=
  search re (S (String.length s)) 0 s.

(** the successive non-overlapping matches, for a pattern that does not
    match the empty string; [skip] counts the bytes of the last match still
    to be stepped over *)
Fixpoint findAll (re : regex) (fuel skip pos : nat) (s : string) : list caps :=
  match skip with
  | S skip' =>
      match s with
      | EmptyString => []
      | String _ rest => findAll re fuel skip' (S pos) rest
      end
  | O =>
      match rmatch fuel (Group 0 re) pos s nocaps (fun pos' _ c => Some (pos', c)) with
      | Some (pos', c) =>
          c :: match s with
               | EmptyString => []
               | String _ rest => findAll re fuel (pos' - pos - 1) (S pos) rest
               end
      | None =>
          match s with
          | EmptyString => []
          | String _ rest => findAll re fuel 0 (S pos) rest
          end
      end
  end.

(** [re.FindAllStringSubmatch(s, -1)]; [[]] is Go's [nil] *)
Definition FindAllStringSubmatch (re : regex) (s : string) : list caps :=
  findAll re (S (String.length s)) 0 0 s.

(** character classes *)
Definition isSpace (c : ascii) : bool :=
  Ascii.eqb c TAB || Ascii.eqb c LF || Ascii.eqb c FF || Ascii.eqb c CR || Ascii.eqb c SP.

Definition isWord (c : ascii) : bool :=
  let n := nat_of_ascii c in
  ((48 <=? n) && (n <=? 57) || (65 <=? n) && (n <=? 90)
   || (97 <=? n) && (n <=? 122) || (n =? 95))%nat.

Definition notByte (d : ascii) (c : ascii) : bool := negb (Ascii.eqb c d).

Definition DQUOTE : ascii := "034"%char.
Definition BACKSLASH : ascii := "092"%char.

(** a letter of the pattern under the [(?i)] flag *)
Definition LitFold (c : ascii) : regex :=
  Class (fun a => Ascii.eqb (upperByte a) (upperByte c)).

(** [[\w= ]] under [(?i)]: folding closes [\w] under simple case folding,
    which adds U+017F (folds to [s]) and U+212A (folds to [k]), here as
    their UTF-8 bytes *)
Definition wordEqSpFold : regex :=
  Alt (Class (fun a => isWord a || Ascii.eqb a "="%char || Ascii.eqb a SP))
      (Alt (Cat (Lit "197"%char) (Lit "191"%char))
           (Cat (Lit "226"%char) (Cat (Lit "132"%char) (Lit "170"%char)))).

(** the address between the angle brackets, where Q is the double quote:
    [(?:\\>|[^>])+|Q[^Q]+Q@[^>]+] *)
Definition mailAddrRe : regex :=
  Alt (Plus (Alt (Cat (Lit BACKSLASH) (Lit ">"%char)) (Class (notByte ">"%char))))
      (Cat (Lit DQUOTE)
           (Cat (Plus (Class (notByte DQUOTE)))
                (Cat (Lit DQUOTE)
                     (Cat (Lit "@"%char) (Plus (Class (notByte ">"%char))))))).

(** [(?i)^FROM:\s*<(ADDR)>( [\w= ]+)?$], ADDR being [mailAddrRe]: what comes
    before the address, the address as group 1, and what follows it *)
Definition mailPrefixRe : regex :=
  Cat BeginText
  (Cat (LitFold "F"%char) (Cat (LitFold "R"%char) (Cat (LitFold "O"%char)
  (Cat (LitFold "M"%char) (Cat (Lit ":"%char)
  (Cat (Star (Class isSpace)) (Lit "<"%char))))))).

Definition mailSuffixRe : regex :=
  Cat (Lit ">"%char)
  (Cat (Opt (Group 2 (Cat (Lit SP) (Plus wordEqSpFold)))) EndText).

Definition mailFromRe : regex :=
  Cat mailPrefixRe (Cat (Group 1 mailAddrRe) mailSuffixRe).

(** [ (\w+)=(\w+)] *)
Definition esmtpArgRe : regex :=
  Cat (Lit SP)
  (Cat (Group 1 (Plus (Class isWord)))
  (Cat (Lit "="%char) (Group 2 (Plus (Class isWord))))).

(** two syntactic checks on patterns, used to reason about submatches:
    [consumes r] holds when every match of [r] takes at least one byte,
    [mentions n r] when [r] contains the group [n] *)
Fixpoint consumes (r : regex) : bool :=
  match r with
  | Class _ => true
  | Cat r1 r2 => consumes r1 || consumes r2
  | Alt r1 r2 => consumes r1 && consumes r2
  | Group _ r1 => consumes r1
  | Eps | Star _ | BeginText | EndText => false
  end.

Fixpoint mentions (n : nat) (r : regex) : bool :=
  match r with
  | Cat r1 r2 | Alt r1 r2 => mentions n r1 || mentions n r2
  | Star r1 => mentions n r1
  | Group m r1 => Nat.eqb n m || mentions n r1
  | Eps | Class _ | BeginText | EndText => false
  end.

(** the texts a pattern matches, the anchors taken as empty *)
Inductive Lang : regex -> string -> Prop :=
| lang_Eps : Lang Eps EmptyString
| lang_Class p a : p a = true -> Lang (Class p) (String a EmptyString)
| lang_Cat r1 r2 a b : Lang r1 a -> Lang r2 b -> Lang (Cat r1 r2) (a +:+ b)
| lang_Alt_l r1 r2 a : Lang r1 a -> Lang (Alt r1 r2) a
| lang_Alt_r r1 r2 a : Lang r2 a -> Lang (Alt r1 r2) a
| lang_Star_nil r : Lang (Star r) EmptyString
| lang_Star_cons r a b : Lang r a -> Lang (Star r) b -> Lang (Star r) (a +:+ b)
| lang_Group n r a : Lang r a -> Lang (Group n r) a
| lang_BeginText : Lang BeginText EmptyString
| lang_EndText : Lang EndText EmptyString.

(** every byte of [s] satisfies [p] *)
Fixpoint allBytes (p : ascii -> bool) (s : string) : bool :=
  match s with
  | EmptyString => true
  | String c rest => p c && allBytes p rest
  end.

(** ** Lines

    [bufio.Reader.ReadBytes(LF)] and [ReadString(LF)] cut the bytes that
    arrive into lines, each up to and including its LF; [splitLines] gives
    the complete lines of a byte string and the unfinished rest. *)
Fixpoint splitLines (raw : string) : list string * string :=
  match raw with
  | EmptyString => ([], EmptyString)
  | String c rest =>
      let '(lines, tail) := splitLines rest in
      if Ascii.eqb c LF then (String c EmptyString :: lines, tail)
      else match lines with
           | [] => ([], String c tail)
           | l :: lines' => (String c l :: lines', tail)
           end
  end.

(** a line as the reader returns it: it ends with its only LF *)
Fixpoint isLine (l : string) : bool :=
  match l with
  | EmptyString => false
  | String c EmptyString => Ascii.eqb c LF
  | String c rest => negb (Ascii.eqb c LF) && isLine rest
  end.

(** ** The client side of the data phase

    Modelled from the spec: dot-stuffing is done by the client, whose code
    is not part of the repository.  The client doubles the leading dot of
    any line that starts with one, and ends the data with a line holding a
    single dot. *)
Definition stuffLine (l : string) : string :=
  match l with
  | String "." _ => String "." l
  | _ => l
  end.

Definition dotStuff (body : list string) : list string := map stuffLine body.

(** the bytes of a body given as lines *)
Definition joinLines (body : list string) : string :=
  fold_right String.append EmptyString body.

(** ** The data model *)

(** the mode of the SMTP state machine *)
Inductive State : Type := GREET | READY | MAIL | DATA | QUIT.

Definition State_eqb (a b : State) : bool :=
  match a, b with
  | GREET, GREET | READY, READY | MAIL, MAIL | DATA, DATA | QUIT, QUIT => true
  | _, _ => false
  end.

(** Modelled from the spec: [policy.Recipient] is declared in pkg/policy,
    which is not among the sources.  The spec's recipient record carries the
    raw address, its local part, and whether it should be stored;
    [ShouldStore] reads the last. *)
Record Recipient : Type := mkRecipient {
  Address : string;
  LocalPart : string;
  stored : bool
}.

Definition ShouldStore (r : Recipient) : bool := stored r.

(** the errors the handler tells apart: [io.EOF], a [net.Error] whose
    [Timeout()] is true, and any other error *)
Inductive error : Type := EOF | TimeoutError | OtherError.

(** the outcome of one [send] on the connection: the write deadline could
    not be set, the write failed, or the reply was written *)
Inductive WriteResult : Type :=
| DeadlineFailed (e : error)
| WriteFailed (e : error)
| Written.

(** [net.Conn] as the session sees it: [sent] is the sequence of messages
    handed to [send] so far *)
Record Conn : Type := mkConn { sent : list string }.

(** [bufio.Reader] over the connection: [pending] are the complete lines
    (each up to and including its newline) that [ReadString] and [ReadBytes]
    will return, [failure] is the error returned once they are used up *)
Record Reader : Type := mkReader {
  pending : list string;
  failure : error
}.

(** [Session]; the [server] pointer is the [server] parameter of the model *)
Record Session : Type := mkSession {
  id : Z;
  conn : Conn;
  remoteDomain : string;
  remoteHost : string;
  sendError : option error;
  state : State;
  reader : Reader;
  from : string;
  recipients : list Recipient
}.

(** the configuration fields of [Server] read by the session *)
Record Server : Type := mkServer {
  domain : string;
  maxMessageBytes : Z;
  maxRecips : Z
}.

(** one call of [manager.Deliver] with its five arguments *)
Record DeliverCall : Type := mkDeliverCall {
  dcRecip : Recipient;
  dcFrom : string;
  dcRecipients : list Recipient;
  dcPrefix : string;
  dcBody : string
}.

(** a session together with what it shares with the rest of the process:
    the [expvar] counters, and the delivery manager with the trace of the
    calls made to it *)
Record World (Mgr : Type) : Type := mkWorld {
  ss : Session;
  expConnectsCurrent : Z;
  expReceivedTotal : Z;
  expWarnsTotal : Z;
  expErrorsTotal : Z;
  manager : Mgr;
  delivered : list DeliverCall
}.

Arguments mkWorld {Mgr}.
Arguments ss {Mgr}.
Arguments expConnectsCurrent {Mgr}.
Arguments expReceivedTotal {Mgr}.
Arguments expWarnsTotal {Mgr}.
Arguments expErrorsTotal {Mgr}.
Arguments manager {Mgr}.
Arguments delivered {Mgr}.

(** field updates *)
Definition setConn (c : Conn) (s : Session) : Session :=
  mkSession (id s) c (remoteDomain s) (remoteHost s) (sendError s) (state s)
            (reader s) (from s) (recipients s).
Definition setRemoteDomain (d : string) (s : Session) : Session :=
  mkSession (id s) (conn s) d (remoteHost s) (sendError s) (state s)
            (reader s) (from s) (recipients s).
Definition setSendError (e : option error) (s : Session) : Session :=
  mkSession (id s) (conn s) (remoteDomain s) (remoteHost s) e (state s)
            (reader s) (from s) (recipients s).
Definition setState (st : State) (s : Session) : Session :=
  mkSession (id s) (conn s) (remoteDomain s) (remoteHost s) (sendError s) st
            (reader s) (from s) (recipients s).
Definition setReader (r : Reader) (s : Session) : Session :=
  mkSession (id s) (conn s) (remoteDomain s) (remoteHost s) (sendError s) (state s)
            r (from s) (recipients s).
Definition setFrom (f : string) (s : Session) : Session :=
  mkSession (id s) (conn s) (remoteDomain s) (remoteHost s) (sendError s) (state s)
            (reader s) f (recipients s).
Definition setRecipients (rs : list Recipient) (s : Session) : Session :=
  mkSession (id s) (conn s) (remoteDomain s) (remoteHost s) (sendError s) (state s)
            (reader s) (from s) rs.

Definition onSession {Mgr : Type} (f : Session -> Session) (w : World Mgr) : World Mgr :=
  mkWorld (f (ss w)) (expConnectsCurrent w) (expReceivedTotal w) (expWarnsTotal w)
          (expErrorsTotal w) (manager w) (delivered w).

(** [commands] *)
Definition commands : gmap string bool :=
  list_to_map
    [("HELO", true); ("EHLO", true); ("MAIL", true); ("RCPT", true);
     ("DATA", true); ("RSET", true); ("SEND", true); ("SOML", true);
     ("SAML", true); ("VRFY", true); ("EXPN", true); ("HELP", true);
     ("NOOP", true); ("QUIT", true); ("TURN", true)].

(** [NewSession]: [host] is the peer address with the port split off *)
Definition NewSession (sid : Z) (host : string) (rd : Reader) : Session :=
  mkSession sid (mkConn []) "" host None GREET rd "" [].

(** ** A concrete environment

    Instances of the parameters of the model, used to run it: an address
    policy that accepts any non-empty address without a space and stores
    every recipient but [nostore@ex], and a manager that keeps the messages
    in a list and refuses the mailbox [full]. *)

Definition demoParseEmailAddress (a : string) : option (string * string) :=
  if String.eqb a "" then None else Some (a, "").

Definition demoNewRecipient (addr : string) : option Recipient :=
  match beforeSpace addr with
  | Some _ => None
  | None =>
      if String.eqb addr "" then None
      else Some (mkRecipient addr
                   (match sliceTo 4 addr with "full" => "full" | _ => addr end)
                   (negb (String.eqb addr "nostore@ex")))
  end.

Definition demoDeliver (m : list (string * string)) (recip : Recipient) (from : string)
    (recipients : list Recipient) (prefix body : string)
  : list (string * string) * option error :=
  if String.eqb (LocalPart recip) "full" then (m, Some OtherError)
  else (m ++ [(Address recip, prefix +:+ body)], None).

Definition demoTimeNow (w : World (list (string * string))) : string :=
  "Mon, 02 Jan 2006 15:04:05 -0700 (MST)".

Definition demoConnWrite (before : list string) (msg : string) : WriteResult := Written.

(** the configuration of the spec's scenarios *)
Definition demoServer : Server := mkServer "mail.test" 1000 2.

Definition demoWorld : World (list (string * string)) :=
  mkWorld (NewSession 0 "" (mkReader [] EOF)) 0 0 0 0 [] [].

(** a manager that stores every message *)
Definition storeDeliver (m : list (string * string)) (recip : Recipient) (from : string)
    (recipients : list Recipient) (prefix body : string)
  : list (string * string) * option error :=
  (m ++ [(Address recip, prefix +:+ body)], None).

(** a server that takes six bytes of data at most *)
Definition tinyServer : Server := mkServer "mail.test" 6 2.

(** the reader over the bytes [raw], after which reads fail with [err] *)
Definition readerOf (raw : string) (err : error) : Reader :=
  mkReader (fst (splitLines raw)) err.

(** the lines a client sends, each closed by CRLF *)
Definition wire (lines : list string) : Reader :=
  mkReader (map (fun l => l +:+ CRLF) lines) EOF.

(** a session that has been greeted, has a sender and holds the given
    recipients, in the given state and with the given input *)
Definition demoSessionAt (st : State) (rs : list Recipient) (rd : Reader)
  : World (list (string * string)) :=
  mkWorld (mkSession 1 (mkConn []) "client.example" "10.0.0.1" None st rd "a@ex" rs)
          1 0 0 0 [] [].

Definition rcptB : Recipient := mkRecipient "b@ex" "b@ex" true.
Definition rcptC : Recipient := mkRecipient "c@ex" "c@ex" true.
Definition rcptNoStore : Recipient := mkRecipient "nostore@ex" "nostore@ex" false.
Definition rcptFull : Recipient := mkRecipient "full@ex" "full" true.

(** ** The session *)

Section Smtp.

(** [strings.ToUpper] *)
Variable ToUpper : string -> string.
(** [policy.ParseEmailAddress]: the local part and the domain, [None] when
    it returns an error *)
Variable ParseEmailAddress : string -> option (string * string).
(** [apolicy.NewRecipient], [None] when it returns an error *)
Variable NewRecipient : string -> option Recipient.
(** the delivery manager: its state, and [Deliver] with the error it
    returns *)
Variable Mgr : Type.
Variable Deliver :
  Mgr -> Recipient -> string -> list Recipient -> string -> string -> Mgr * option error.
(** [time.Now().Format(timeStampFormat)] when the session is in the given
    state *)
Variable timeNow : World Mgr -> string.
(** what the connection does with a message, given the messages sent
    before it *)
Variable connWrite : list string -> string -> WriteResult.
(** [ss.server] *)
Variable server : Server.

Local Abbreviation W := (World Mgr).

(** *** Logging and metrics

    [logTrace] and [logInfo] only write to the log; [logWarn] and
    [logError] also count. *)

Definition logWarn (w : W) : W :=
  mkWorld (ss w) (expConnectsCurrent w) (expReceivedTotal w)
          (Int_Add (expWarnsTotal w) 1) (expErrorsTotal w) (manager w) (delivered w).

Definition logError (w : W) : W :=
  mkWorld (ss w) (expConnectsCurrent w) (expReceivedTotal w) (expWarnsTotal w)
          (Int_Add (expErrorsTotal w) 1) (manager w) (delivered w).

Definition addReceived (w : W) : W :=
  mkWorld (ss w) (expConnectsCurrent w) (Int_Add (expReceivedTotal w) 1)
          (expWarnsTotal w) (expErrorsTotal w) (manager w) (delivered w).

Definition addConnects (d : Z) (w : W) : W :=
  mkWorld (ss w) (Int_Add (expConnectsCurrent w) d) (expReceivedTotal w)
          (expWarnsTotal w) (expErrorsTotal w) (manager w) (delivered w).

(** *** [enterState], [send], [reset], [ooSeq], [greet] *)

Definition enterState (st : State) (w : W) : W :=
  onSession (setState st) w.

Definition send (msg : string) (w : W) : W :=
  let before := sent (conn (ss w)) in
  let w := onSession (setConn (mkConn (before ++ [msg]))) w in
  match connWrite before msg with
  | DeadlineFailed e => onSession (setSendError (Some e)) w
  | WriteFailed e => logWarn (onSession (setSendError (Some e)) w)
  | Written => w
  end.

Definition reset (w : W) : W :=
  let w := enterState READY w in
  let w := onSession (setFrom "") w in
  onSession (setRecipients []) w.

Definition ooSeq (cmd : string) (w : W) : W :=
  let w := send ("503 Command " +:+ cmd +:+ " is out of sequence") w in
  logWarn w.

Definition greet (w : W) : W :=
  send ("220 " +:+ domain server +:+ " Inbucket SMTP ready") w.

(** *** [readLine], [readByteLine] *)

(** the reader once it has handed out a line, [rest] being what it still
    holds *)
Definition advance (rest : list string) (w : W) : W :=
  onSession (setReader (mkReader rest (failure (reader (ss w))))) w.

Definition readByteLine (w : W) : (string + error) * W :=
  match pending (reader (ss w)) with
  | [] => (inr (failure (reader (ss w))), w)
  | line :: rest => (inl line, advance rest w)
  end.

Definition readLine (w : W) : (string + error) * W :=
  match pending (reader (ss w)) with
  | [] => (inr (failure (reader (ss w))), w)
  | line :: rest => (inl line, advance rest w)
  end.

(** *** [parseCmd] *)

Definition parseCmd (line : string) (w : W) : (string * string * bool) * W :=
  let line := TrimRight line CRLF in
  let l := len line in
  if l =? 0 then (("", "", true), w)
  else if l <? 4 then (("", "", false), logWarn w)
  else if l =? 4 then ((ToUpper line, "", true), w)
  else if l =? 5 then (("", "", false), logWarn w)
  else
    match String.get 4 line with
    | Some c =>
        if negb (Ascii.eqb c SP) then (("", "", false), logWarn w)
        else ((ToUpper (sliceTo 4 line), Trim (sliceFrom 5 line) " ", true), w)
    | None => (("", "", false), w)
    end.

(** *** [parseArgs] *)

Definition parseArgs (arg : string) (w : W) : (gmap string string * bool) * W :=
  let pm := FindAllStringSubmatch esmtpArgRe arg in
  match pm with
  | [] => ((∅, false), logWarn w)
  | _ =>
      (fold_left (fun (args : gmap string string) (m : caps) =>
                    <[ToUpper (m 1%nat) := m 2%nat]> args) pm ∅, true, w)
  end.

(** *** [greetHandler]: GREET state, waiting for HELO *)

Definition parseHelloArgument (arg : string) : option string :=
  let domain := match beforeSpace arg with Some d => d | None => arg end in
  if String.eqb domain "" then None else Some domain.

Definition greetHandler (cmd arg : string) (w : W) : W :=
  if String.eqb cmd "HELO" then
    match parseHelloArgument arg with
    | None => send "501 Domain/address argument required for HELO" w
    | Some domain =>
        let w := onSession (setRemoteDomain domain) w in
        let w := send "250 Great, let's get this show on the road" w in
        enterState READY w
    end
  else if String.eqb cmd "EHLO" then
    match parseHelloArgument arg with
    | None => send "501 Domain/address argument required for EHLO" w
    | Some domain =>
        let w := onSession (setRemoteDomain domain) w in
        let w := send "250-Great, let's get this show on the road" w in
        let w := send "250-8BITMIME" w in
        let w := send ("250 SIZE " +:+ itoa (maxMessageBytes server)) w in
        enterState READY w
    end
  else ooSeq cmd w.

(** *** [readyHandler]: READY state, waiting for MAIL *)

Definition readyHandler (cmd arg : string) (w : W) : W :=
  if String.eqb cmd "MAIL" then
    match FindStringSubmatch mailFromRe arg with
    | None =>
        let w := send "501 Was expecting MAIL arg syntax of FROM:<address>" w in
        logWarn w
    | Some m =>
        let from := m 1%nat in
        match ParseEmailAddress from with
        | None =>
            let w := send "501 Bad sender address syntax" w in
            logWarn w
        | Some _ =>
            let accept (w : W) : W :=
              let w := onSession (setFrom from) w in
              let w := send ("250 Roger, accepting mail from <" +:+ from +:+ ">") w in
              enterState MAIL w in
            if negb (String.eqb (m 2%nat) "") then
              let '(args, ok, w) := parseArgs (m 2%nat) w in
              if negb ok then
                let w := send "501 Unable to parse MAIL ESMTP parameters" w in
                logWarn w
              else
                let size := default "" (args !! "SIZE") in
                if negb (String.eqb size "") then
                  match ParseInt32 size with
                  | None =>
                      let w := send "501 Unable to parse SIZE as an integer" w in
                      logWarn w
                  | Some size =>
                      if size >? maxMessageBytes server then
                        let w := send "552 Max message size exceeded" w in
                        logWarn w
                      else accept w
                  end
                else accept w
            else accept w
        end
    end
  else ooSeq cmd w.

(** *** [mailHandler]: MAIL state, waiting for RCPTs followed by DATA *)

Definition mailHandler (cmd arg : string) (w : W) : W :=
  if String.eqb cmd "RCPT" then
    if (len arg <? 4) || negb (String.eqb (ToUpper (sliceTo 3 arg)) "TO:") then
      let w := send "501 Was expecting RCPT arg syntax of TO:<address>" w in
      logWarn w
    else
      let addr := Trim (sliceFrom 3 arg) "<> " in
      match NewRecipient addr with
      | None =>
          let w := send "501 Bad recipient address syntax" w in
          logWarn w
      | Some recip =>
          if Z.of_nat (length (recipients (ss w))) >=? maxRecips server then
            let w := logWarn w in
            send ("552 Maximum limit of " +:+ itoa (maxRecips server)
                  +:+ " recipients reached") w
          else
            let w := onSession (setRecipients (recipients (ss w) ++ [recip])) w in
            send ("250 I'll make sure <" +:+ addr +:+ "> gets this") w
      end
  else if String.eqb cmd "DATA" then
    if negb (String.eqb arg "") then
      let w := send "501 DATA command should not have any arguments" w in
      logWarn w
    else if 0 <? Z.of_nat (length (recipients (ss w))) then
      enterState DATA w
    else ooSeq cmd w
  else ooSeq cmd w.

(** *** [dataHandler]: DATA state *)

Definition isTerminator (lineBuf : string) : bool :=
  String.eqb lineBuf (String "." CRLF) || String.eqb lineBuf (String "." (String LF "")).

(** RFC: remove leading periods from DATA *)
Definition unstuff (lineBuf : string) : string :=
  match lineBuf with
  | String "." rest => rest
  | _ => lineBuf
  end.

Definition receivedPrefix (s : Session) (recip : Recipient) (tstamp : string) : string :=
  "Received: from " +:+ remoteDomain s +:+ " ([" +:+ remoteHost s +:+ "]) by "
  +:+ domain server +:+ CRLF +:+ "  for <" +:+ Address recip +:+ ">; " +:+ tstamp +:+ CRLF.

Definition callDeliver (recip : Recipient) (prefix body : string) (w : W) : option error * W :=
  let '(m, err) := Deliver (manager w) recip (from (ss w)) (recipients (ss w)) prefix body in
  (err,
   mkWorld (ss w) (expConnectsCurrent w) (expReceivedTotal w) (expWarnsTotal w)
           (expErrorsTotal w) m
           (delivered w ++ [mkDeliverCall recip (from (ss w)) (recipients (ss w)) prefix body])).

(** the loop over [ss.recipients] once the mail data is complete; the
    result is [false] when the handler has returned from inside the loop *)
Fixpoint deliverLoop (tstamp body : string) (rest : list Recipient) (w : W) : W * bool :=
  match rest with
  | [] => (w, true)
  | recip :: rest' =>
      if ShouldStore recip then
        let prefix := receivedPrefix (ss w) recip tstamp in
        let '(err, w) := callDeliver recip prefix body w in
        match err with
        | Some _ =>
            let w := logError w in
            let w := send ("451 Failed to store message for " +:+ LocalPart recip) w in
            (reset w, false)
        | None => deliverLoop tstamp body rest' (addReceived w)
        end
      else deliverLoop tstamp body rest' (addReceived w)
  end.

(** the branch taken on the terminator line *)
Definition mailDataComplete (msgBuf : string) (w : W) : W :=
  let tstamp := timeNow w in
  let '(w, completed) := deliverLoop tstamp msgBuf (recipients (ss w)) w in
  if completed then
    let w := send "250 Mail accepted for delivery" w in
    reset w
  else w.

(** the read loop; [lines] are the lines the reader still holds *)
Fixpoint dataLoop (lines : list string) (msgBuf : string) (w : W) : W :=
  match lines with
  | [] =>
      let w := match failure (reader (ss w)) with
               | TimeoutError => send "221 Idle timeout, bye bye" w
               | _ => w
               end in
      let w := logWarn w in
      enterState QUIT w
  | lineBuf :: rest =>
      let w := advance rest w in
      if isTerminator lineBuf then mailDataComplete msgBuf w
      else
        let msgBuf := msgBuf +:+ unstuff lineBuf in
        if len msgBuf >? maxMessageBytes server then
          let w := send "552 Maximum message size exceeded" w in
          let w := logWarn w in
          reset w
        else dataLoop rest msgBuf w
  end.

Definition dataHandler (w : W) : W :=
  let w := send "354 Start mail input; end with <CRLF>.<CRLF>" w in
  dataLoop (pending (reader (ss w))) "" w.

(** *** [startSession]: the command reading loop *)

Definition isOneOf (cmd : string) (l : list string) : bool :=
  existsb (String.eqb cmd) l.

(** one pass through the body of the loop; the result is [false] on
    [break] *)
Definition loopBody (w : W) : W * bool :=
  if State_eqb (state (ss w)) DATA then (dataHandler w, true)
  else
    match readLine w with
    | (inl line, w) =>
        let '(cmd, arg, ok, w) := parseCmd line w in
        if ok then
          if String.eqb cmd "" then (send "500 Speak up" w, true)
          else if negb (default false (commands !! cmd)) then
            let w := send ("500 Syntax error, " +:+ cmd +:+ " command unrecognized") w in
            (logWarn w, true)
          else if isOneOf cmd ["SEND"; "SOML"; "SAML"; "EXPN"; "HELP"; "TURN"] then
            let w := send ("502 " +:+ cmd +:+ " command not implemented") w in
            (logWarn w, true)
          else if String.eqb cmd "VRFY" then
            (send "252 Cannot VRFY user, but will accept message" w, true)
          else if String.eqb cmd "NOOP" then
            (send "250 I have sucessfully done nothing" w, true)
          else if String.eqb cmd "RSET" then
            let w := reset w in
            (send "250 Session reset" w, true)
          else if String.eqb cmd "QUIT" then
            let w := send "221 Goodnight and good luck" w in
            (enterState QUIT w, true)
          else
            match state (ss w) with
            | GREET => (greetHandler cmd arg w, true)
            | READY => (readyHandler cmd arg w, true)
            | MAIL => (mailHandler cmd arg w, true)
            | _ => (logError w, false)
            end
        else (send "500 Syntax error, command garbled" w, true)
    | (inr EOF, w) =>
        match state (ss w) with
        | GREET | READY => (w, false)
        | _ => (logWarn w, false)
        end
    | (inr TimeoutError, w) =>
        let w := logWarn w in
        (send "221 Idle timeout, bye bye" w, false)
    | (inr OtherError, w) =>
        let w := logWarn w in
        (send "221 Connection error, sorry" w, false)
    end.

Definition loopCond (w : W) : bool :=
  negb (State_eqb (state (ss w)) QUIT)
  && match sendError (ss w) with None => true | Some _ => false end.

Fixpoint sessionLoop (fuel : nat) (w : W) : W :=
  match fuel with
  | O => w
  | S fuel' =>
      if loopCond w then
        let '(w, continue) := loopBody w in
        if continue then sessionLoop fuel' w else w
      else w
  end.

(** the world when the loop is entered: a new session, greeted *)
Definition sessionStart (sid : Z) (host : string) (rd : Reader) (w : W) : W :=
  let w := addConnects 1 w in
  let w := onSession (fun _ => NewSession sid host rd) w in
  greet w.

(** a pass of the loop consumes a line, or leaves the loop, or ends the data
    phase on a read error, after which the loop condition fails: one pass
    more than there are lines is enough ([sessionLoop_fuel] below) *)
Definition startSession (sid : Z) (host : string) (rd : Reader) (w : W) : W :=
  let w := sessionStart sid host rd w in
  let w := sessionLoop (S (length (pending rd))) w in
  let w := match sendError (ss w) with Some _ => logWarn w | None => w end in
  addConnects (-1) w.

(** the states of a session at the head of its loop ([true]) and after it
    has left the loop ([false]) *)
Inductive Reachable : W -> bool -> Prop :=
| reach_start sid host rd w0 :
    Reachable (sessionStart sid host rd w0) true
| reach_pass w w' continue :
    Reachable w true ->
    loopCond w = true ->
    loopBody w = (w', continue) ->
    Reachable w' continue.

(** the claim that the received-total counter moves once per stored
    recipient only, as a property of one completed data phase; it is
    compared with the code below *)
Definition countsStoredOnly (msgBuf : string) (w : W) : Prop :=
  snd (deliverLoop (timeNow w) msgBuf (recipients (ss w)) w) = true ->
  expReceivedTotal (mailDataComplete msgBuf w)
  = Nat.iter (length (List.filter ShouldStore (recipients (ss w))))
             (fun v => Int_Add v 1) (expReceivedTotal w).

(** the manager after a sequence of [Deliver] calls *)
Definition replay (calls : list DeliverCall) (m : Mgr) : Mgr :=
  fold_left (fun m c => fst (Deliver m (dcRecip c) (dcFrom c) (dcRecipients c)
                                     (dcPrefix c) (dcBody c))) calls m.

(** the errors the calls of a sequence return, one after the other *)
Fixpoint replayErrors (calls : list DeliverCall) (m : Mgr) : list (option error) :=
  match calls with
  | [] => []
  | c :: rest =>
      let '(m', err) := Deliver m (dcRecip c) (dcFrom c) (dcRecipients c)
                                (dcPrefix c) (dcBody c) in
      err :: replayErrors rest m'
  end.

(** the arguments every [Deliver] call of one message shares *)
Definition callFor (s : Session) (tstamp body : string) (c : DeliverCall) : Prop :=
  dcFrom c = from s
  /\ dcRecipients c = recipients s
  /\ dcPrefix c = receivedPrefix s (dcRecip c) tstamp
  /\ dcBody c = body.

(** the invariant carried along the command loop *)
Definition Inv (w : W) : Prop :=
  (state (ss w) = MAIL -> from (ss w) <> "")
  /\ (state (ss w) = DATA -> recipients (ss w) <> [] /\ from (ss w) <> "").

(** [same w w']: the state, the sender and the recipients agree *)
Definition same (w w' : W) : Prop :=
  state (ss w') = state (ss w)
  /\ from (ss w') = from (ss w)
  /\ recipients (ss w') = recipients (ss w).

(** [unchanged w w']: the state, the sender, the recipients and the remote
    domain agree *)
Definition unchanged (w w' : W) : Prop :=
  same w w' /\ remoteDomain (ss w') = remoteDomain (ss w).

(** the command a pass of the loop reads, if it reads one: the verb and the
    argument [parseCmd] returns for the next line of the reader *)
Definition commandRead (w : W) : option (string * string) :=
  if State_eqb (state (ss w)) DATA then None
  else
    match readLine w with
    | (inl line, w) =>
        let '(cmd, arg, ok, _) := parseCmd line w in
        if ok then Some (cmd, arg) else None
    | (inr _, _) => None
    end.

(** The transitions of the state machine: what one pass of the command loop
    may do to the state, the sender, the recipients and the remote domain,
    [c] being the command the pass has read. *)
Inductive Transition (c : option (string * string)) (w w' : W) : Prop :=
| t_stay :
    unchanged w w' -> Transition c w w'
| t_reset :
    state (ss w) = DATA \/ (exists arg, c = Some ("RSET", arg)) ->
    state (ss w') = READY ->
    from (ss w') = "" ->
    recipients (ss w') = [] ->
    remoteDomain (ss w') = remoteDomain (ss w) ->
    Transition c w w'
| t_quit :
    state (ss w) = DATA \/ (exists arg, c = Some ("QUIT", arg)) ->
    state (ss w') = QUIT ->
    from (ss w') = from (ss w) ->
    recipients (ss w') = recipients (ss w) ->
    remoteDomain (ss w') = remoteDomain (ss w) ->
    Transition c w w'
| t_hello (cmd arg domain : string) :
    c = Some (cmd, arg) ->
    cmd = "HELO" \/ cmd = "EHLO" ->
    state (ss w) = GREET ->
    state (ss w') = READY ->
    parseHelloArgument arg = Some domain ->
    remoteDomain (ss w') = domain ->
    from (ss w') = from (ss w) ->
    recipients (ss w') = recipients (ss w) ->
    Transition c w w'
| t_mail (arg : string) (m : caps) :
    c = Some ("MAIL", arg) ->
    state (ss w) = READY ->
    state (ss w') = MAIL ->
    FindStringSubmatch mailFromRe arg = Some m ->
    ParseEmailAddress (m 1%nat) <> None ->
    from (ss w') = m 1%nat ->
    recipients (ss w') = recipients (ss w) ->
    remoteDomain (ss w') = remoteDomain (ss w) ->
    Transition c w w'
| t_rcpt (arg : string) (recip : Recipient) :
    c = Some ("RCPT", arg) ->
    state (ss w) = MAIL ->
    state (ss w') = MAIL ->
    4 <= len arg ->
    ToUpper (sliceTo 3 arg) = "TO:" ->
    NewRecipient (Trim (sliceFrom 3 arg) "<> ") = Some recip ->
    Z.of_nat (length (recipients (ss w))) < maxRecips server ->
    recipients (ss w') = recipients (ss w) ++ [recip] ->
    from (ss w') = from (ss w) ->
    remoteDomain (ss w') = remoteDomain (ss w) ->
    Transition c w w'
| t_data :
    c = Some ("DATA", "") ->
    state (ss w) = MAIL ->
    state (ss w') = DATA ->
    recipients (ss w) <> [] ->
    from (ss w') = from (ss w) ->
    recipients (ss w') = recipients (ss w) ->
    remoteDomain (ss w') = remoteDomain (ss w) ->
    Transition c w w'.

(** what holds of a session at every pass of its loop *)
Definition Sound (w : W) : Prop :=
  (state (ss w) = GREET \/ state (ss w) = READY ->
   from (ss w) = "" /\ recipients (ss w) = [])
  /\ (state (ss w) = MAIL \/ state (ss w) = DATA ->
      from (ss w) <> "" /\ ParseEmailAddress (from (ss w)) <> None)
  /\ (state (ss w) = DATA -> recipients (ss w) <> [])
  /\ Z.of_nat (length (recipients (ss w))) <= Z.max 0 (maxRecips server)
  /\ Forall (fun r => exists addr, NewRecipient addr = Some r) (recipients (ss w))
  /\ (state (ss w) = GREET -> remoteDomain (ss w) = "").

(** ** Properties of the string functions *)

Lemma append_cons (x : ascii) (a b : string) : String x a +:+ b = String x (a +:+ b).
Proof. reflexivity. Qed.

Lemma append_nil_l (a : string) : "" +:+ a = a.
Proof. reflexivity. Qed.

Lemma append_assoc (a b c : string) : (a +:+ b) +:+ c = a +:+ (b +:+ c).
Proof.
  induction a as [|x a IH]; [reflexivity|].
  rewrite !append_cons, IH. reflexivity.
Qed.

Lemma append_nil_r (a : string) : a +:+ "" = a.
Proof.
  induction a as [|x a IH]; [reflexivity|].
  rewrite append_cons, IH. reflexivity.
Qed.

Lemma len_append (a b : string) : len (a +:+ b) = len a + len b.
Proof.
  unfold len. induction a as [|x a IH]; [reflexivity|].
  rewrite append_cons. cbn [String.length]. lia.
Qed.

Lemma len_nonneg (a : string) : 0 <= len a.
Proof. unfold len. lia. Qed.

(** [TrimRight] removes a tail made of cutset bytes and leaves no cutset
    byte at the end *)
Lemma TrimRight_spec s cutset : isTrimRightOf cutset s (TrimRight s cutset).
Proof.
  unfold isTrimRightOf.
  induction s as [|c s (tail & Hs & Htail & Hlast)].
  - exists EmptyString. repeat split. cbn. discriminate.
  - cbn [TrimRight]. destruct (TrimRight s cutset) as [|d kept] eqn:E.
    + rewrite append_nil_l in Hs. subst tail.
      destruct (inSet cutset c) eqn:Hc.
      * exists (String c s). cbn [allIn]. rewrite Hc, Htail. repeat split. cbn. discriminate.
      * exists s. repeat split; [assumption|].
        cbn. intros c' H. injection H as <-. assumption.
    + exists tail. rewrite append_cons, <- Hs. repeat split; assumption.
Qed.

(** [TrimLeft] removes a head made of cutset bytes and leaves no cutset
    byte at the start *)
Lemma TrimLeft_spec s cutset :
  exists head,
    s = head +:+ TrimLeft s cutset
    /\ allIn cutset head = true
    /\ (forall c, firstByte (TrimLeft s cutset) = Some c -> inSet cutset c = false).
Proof.
  induction s as [|c s (head & Hs & Hhead & Hfirst)].
  - exists EmptyString. repeat split. cbn. discriminate.
  - cbn [TrimLeft]. destruct (inSet cutset c) eqn:Hc.
    + exists (String c head). rewrite append_cons, <- Hs. cbn [allIn].
      rewrite Hc, Hhead. repeat split. assumption.
    + exists EmptyString. repeat split.
      cbn. intros c' H. injection H as <-. assumption.
Qed.

Lemma lastByte_TrimLeft s cutset c :
  lastByte (TrimLeft s cutset) = Some c -> lastByte s = Some c.
Proof.
  induction s as [|d s IH]; [discriminate|].
  cbn [TrimLeft]. destruct (inSet cutset d); [|auto].
  intros H. specialize (IH H). cbn [lastByte].
  destruct s; [discriminate|assumption].
Qed.

(** [Trim] removes cutset bytes at both ends and only there *)
Lemma Trim_spec s cutset : isTrimOf cutset s (Trim s cutset).
Proof.
  unfold isTrimOf, Trim.
  destruct (TrimRight_spec s cutset) as (tail & Hs & Htail & Hlast).
  destruct (TrimLeft_spec (TrimRight s cutset) cutset) as (head & Hr & Hhead & Hfirst).
  exists head, tail. repeat split; try assumption.
  - rewrite <- append_assoc, <- Hr. assumption.
  - intros c H. apply Hlast. eapply lastByte_TrimLeft. eassumption.
Qed.

(** a string is its first [n] bytes followed by the rest *)
Lemma slice_split : forall n s, s = sliceTo n s +:+ sliceFrom n s.
Proof.
  induction n as [|n IH]; intros s; [reflexivity|].
  destruct s as [|c s]; [reflexivity|].
  cbn [sliceTo sliceFrom]. rewrite append_cons, <- IH. reflexivity.
Qed.

Lemma sliceFrom_get : forall n s c,
  String.get n s = Some c -> sliceFrom n s = String c (sliceFrom (S n) s).
Proof.
  induction n as [|n IH]; intros s c H; destruct s as [|d s]; try discriminate.
  - cbn in H. injection H as ->. reflexivity.
  - cbn [sliceFrom]. apply IH. exact H.
Qed.

(** ** Properties of the patterns *)

Lemma rmatch_Eps {R} fuel pos s c (k : nat -> string -> caps -> option R) :
  rmatch fuel Eps pos s c k = k pos s c.
Proof. destruct fuel; reflexivity. Qed.

Lemma rmatch_Class {R} fuel p pos s c (k : nat -> string -> caps -> option R) :
  rmatch fuel (Class p) pos s c k
  = match s with
    | String a rest => if p a then k (S pos) rest c else None
    | EmptyString => None
    end.
Proof. destruct fuel; reflexivity. Qed.

Lemma rmatch_Cat {R} fuel r1 r2 pos s c (k : nat -> string -> caps -> option R) :
  rmatch fuel (Cat r1 r2) pos s c k
  = rmatch fuel r1 pos s c (fun pos' s' c' => rmatch fuel r2 pos' s' c' k).
Proof. destruct fuel; reflexivity. Qed.

Lemma rmatch_Alt {R} fuel r1 r2 pos s c (k : nat -> string -> caps -> option R) :
  rmatch fuel (Alt r1 r2) pos s c k
  = match rmatch fuel r1 pos s c k with
    | Some res => Some res
    | None => rmatch fuel r2 pos s c k
    end.
Proof. destruct fuel; reflexivity. Qed.

Lemma rmatch_Star {R} fuel r1 pos s c (k : nat -> string -> caps -> option R) :
  rmatch (S fuel) (Star r1) pos s c k
  = match rmatch (S fuel) r1 pos s c (fun pos' s' c' =>
            if (String.length s' <? String.length s)%nat
            then rmatch fuel (Star r1) pos' s' c' k
            else None) with
    | Some res => Some res
    | None => k pos s c
    end.
Proof. reflexivity. Qed.

Lemma rmatch_Group {R} fuel n r1 pos s c (k : nat -> string -> caps -> option R) :
  rmatch fuel (Group n r1) pos s c k
  = rmatch fuel r1 pos s c (fun pos' s' c' =>
      k pos' s' (setcap n (sliceTo (String.length s - String.length s') s) c')).
Proof. destruct fuel; reflexivity. Qed.

Lemma rmatch_BeginText {R} fuel pos s c (k : nat -> string -> caps -> option R) :
  rmatch fuel BeginText pos s c k = if Nat.eqb pos 0 then k pos s c else None.
Proof. destruct fuel; reflexivity. Qed.

Lemma rmatch_EndText {R} fuel pos s c (k : nat -> string -> caps -> option R) :
  rmatch fuel EndText pos s c k
  = match s with EmptyString => k pos s c | String _ _ => None end.
Proof. destruct fuel; reflexivity. Qed.

(** A successful match has called its continuation: on a suffix no longer
    than the text, shorter when the pattern consumes, and with the groups
    the pattern does not contain left as they were. *)
Lemma rmatch_post {R} fuel :
  forall r pos s c (k : nat -> string -> caps -> option R) res,
    rmatch fuel r pos s c k = Some res ->
    exists pos' s' c',
      k pos' s' c' = Some res
      /\ (String.length s' <= String.length s)%nat
      /\ (consumes r = true -> (String.length s' < String.length s)%nat)
      /\ (forall n, mentions n r = false -> c' n = c n).
Proof.
  induction fuel as [|fuel IHfuel];
    induction r as [|p|r1 IH1 r2 IH2|r1 IH1 r2 IH2|r1 IH1|n r1 IH1| |];
    intros pos s c k res H.
  1, 9: rewrite rmatch_Eps in H; exists pos, s, c; repeat split; auto; discriminate.
  1, 8: rewrite rmatch_Class in H; destruct s as [|a rest]; [discriminate|];
    destruct (p a); [|discriminate];
    exists (S pos), rest, c; cbn; repeat split; auto; lia.
  1, 7: rewrite rmatch_Cat in H;
    apply IH1 in H as (p1 & s1 & c1 & H & Hle1 & Hlt1 & Hc1);
    apply IH2 in H as (p2 & s2 & c2 & H & Hle2 & Hlt2 & Hc2);
    exists p2, s2, c2; cbn; split; [assumption|]; split; [lia|]; split;
    [ intros Hc; apply orb_prop in Hc as [Hc|Hc];
      [specialize (Hlt1 Hc)|specialize (Hlt2 Hc)]; lia
    | intros n Hn; apply orb_false_elim in Hn as [Hn1 Hn2];
      rewrite Hc2, Hc1 by assumption; reflexivity ].
  1, 6: rewrite rmatch_Alt in H;
    destruct (rmatch _ r1 pos s c k) as [res1|] eqn:E1;
    [ apply IH1 in E1 as (p1 & s1 & c1 & E1 & Hle1 & Hlt1 & Hc1);
      exists p1, s1, c1; cbn; split; [congruence|]; split; [assumption|]; split;
      [ intros Hc; apply andb_prop in Hc as [Hc _]; auto
      | intros n Hn; apply orb_false_elim in Hn as [Hn1 Hn2]; auto ]
    | apply IH2 in H as (p2 & s2 & c2 & H & Hle2 & Hlt2 & Hc2);
      exists p2, s2, c2; cbn; split; [assumption|]; split; [assumption|]; split;
      [ intros Hc; apply andb_prop in Hc as [_ Hc]; auto
      | intros n Hn; apply orb_false_elim in Hn as [Hn1 Hn2]; auto ] ].
  2, 6: rewrite rmatch_Group in H;
    apply IH1 in H as (p1 & s1 & c1 & H & Hle1 & Hlt1 & Hc1);
    exists p1, s1, (setcap n (sliceTo (String.length s - String.length s1) s) c1);
    cbn; split; [assumption|]; split; [assumption|]; split; [assumption|];
    intros m Hm; apply orb_false_elim in Hm as [Hm1 Hm2];
    unfold setcap; rewrite Hm1; auto.
  2, 5: rewrite rmatch_BeginText in H; destruct (Nat.eqb pos 0); [|discriminate];
    exists pos, s, c; repeat split; auto; discriminate.
  2, 4: rewrite rmatch_EndText in H; destruct s; [|discriminate];
    exists pos, EmptyString, c; repeat split; auto; discriminate.
  - discriminate.
  - rewrite rmatch_Star in H.
    destruct (rmatch (S fuel) r1 pos s c _) as [res1|] eqn:E1.
    + apply IH1 in E1 as (p1 & s1 & c1 & E1 & Hle1 & Hlt1 & Hc1).
      destruct (String.length s1 <? String.length s)%nat eqn:Hlt; [|discriminate].
      apply Nat.ltb_lt in Hlt.
      injection H as ->.
      apply IHfuel in E1 as (p2 & s2 & c2 & E1 & Hle2 & Hlt2 & Hc2).
      exists p2, s2, c2; cbn; split; [assumption|]; split; [lia|]; split; [discriminate|].
      intros n Hn. rewrite Hc2, Hc1 by assumption. reflexivity.
    + exists pos, s, c; repeat split; auto; discriminate.
Qed.

(** More fuel than the text is long is never used up: the result of a match
    does not depend on the fuel beyond that. *)
Lemma rmatch_fuel {R} : forall n r s fuel1 fuel2 pos c
    (k1 k2 : nat -> string -> caps -> option R),
  (String.length s <= n)%nat ->
  (String.length s < fuel1)%nat ->
  (String.length s < fuel2)%nat ->
  (forall pos' s' c', (String.length s' <= String.length s)%nat ->
                      k1 pos' s' c' = k2 pos' s' c') ->
  rmatch fuel1 r pos s c k1 = rmatch fuel2 r pos s c k2.
Proof.
  induction n as [n IHn] using lt_wf_ind.
  induction r as [|p|r1 IH1 r2 IH2|r1 IH1 r2 IH2|r1 IH1|g r1 IH1| |];
    intros s fuel1 fuel2 pos c k1 k2 Hn Hf1 Hf2 Hk.
  - rewrite !rmatch_Eps. apply Hk. lia.
  - rewrite !rmatch_Class. destruct s as [|a rest]; [reflexivity|].
    destruct (p a); [|reflexivity]. apply Hk. cbn. lia.
  - rewrite !rmatch_Cat. apply IH1; try assumption.
    intros pos' s' c' Hs'. apply IH2; try lia.
    intros pos'' s'' c'' Hs''. apply Hk. lia.
  - rewrite !rmatch_Alt.
    rewrite (IH1 s fuel1 fuel2 pos c k1 k2) by assumption.
    rewrite (IH2 s fuel1 fuel2 pos c k1 k2) by assumption.
    reflexivity.
  - destruct fuel1 as [|f1]; [lia|]. destruct fuel2 as [|f2]; [lia|].
    rewrite !rmatch_Star.
    rewrite (Hk pos s c) by lia.
    match goal with
    | |- match ?a with _ => _ end = match ?b with _ => _ end =>
        assert (E : a = b); [|rewrite E; reflexivity]
    end.
    apply IH1; try assumption.
    intros pos' s' c' Hs'.
    destruct (String.length s' <? String.length s)%nat eqn:Hlt; [|reflexivity].
    apply Nat.ltb_lt in Hlt.
    apply (IHn (String.length s')); try lia.
    intros pos'' s'' c'' Hs''. apply Hk. lia.
  - rewrite !rmatch_Group. apply IH1; try assumption.
    intros pos' s' c' Hs'. apply Hk. assumption.
  - rewrite !rmatch_BeginText. destruct (Nat.eqb pos 0); [|reflexivity]. apply Hk. lia.
  - rewrite !rmatch_EndText. destruct s; [|reflexivity]. apply Hk. cbn. lia.
Qed.

Lemma search_fuel re fuel1 fuel2 : forall s pos,
  (String.length s < fuel1)%nat ->
  (String.length s < fuel2)%nat ->
  search re fuel1 pos s = search re fuel2 pos s.
Proof.
  induction s as [|a s IH]; intros pos Hf1 Hf2; cbn [search].
  - rewrite (rmatch_fuel 0 (Group 0 re) EmptyString fuel1 fuel2 pos nocaps
               (fun _ _ c => Some c) (fun _ _ c => Some c)) by auto.
    reflexivity.
  - rewrite (rmatch_fuel (String.length (String a s)) (Group 0 re) (String a s)
               fuel1 fuel2 pos nocaps (fun _ _ c => Some c) (fun _ _ c => Some c))
      by auto.
    rewrite IH by (cbn in *; lia). reflexivity.
Qed.

(** [FindStringSubmatch] gives the match of an unbounded search *)
Lemma FindStringSubmatch_fuel re s extra :
  search re (S (String.length s) + extra) 0 s = FindStringSubmatch re s.
Proof. unfold FindStringSubmatch. apply search_fuel; lia. Qed.

Lemma search_rmatch re fuel : forall s pos m,
  search re fuel pos s = Some m ->
  exists pos' s',
    rmatch fuel (Group 0 re) pos' s' nocaps (fun _ _ c => Some c) = Some m.
Proof.
  induction s as [|a s IHs]; intros pos m H; cbn [search] in H.
  - destruct (rmatch fuel (Group 0 re) pos EmptyString nocaps _) eqn:E; [|discriminate].
    injection H as ->. eauto.
  - destruct (rmatch fuel (Group 0 re) pos (String a s) nocaps _) eqn:E.
    + injection H as ->. eauto.
    + eapply IHs; eassumption.
Qed.

Lemma sliceTo_nonempty n s :
  (0 < n)%nat -> (0 < String.length s)%nat -> sliceTo n s <> EmptyString.
Proof.
  destruct n; [lia|]. destruct s; cbn; [lia|]. discriminate.
Qed.

(** Group 1 of the MAIL pattern is under a [+]: a match never captures an
    empty address. *)
Lemma mailFrom_address_nonempty arg m :
  FindStringSubmatch mailFromRe arg = Some m -> m 1%nat <> EmptyString.
Proof.
  unfold FindStringSubmatch. intros H.
  apply search_rmatch in H as (pos & s & H).
  rewrite rmatch_Group in H. unfold mailFromRe in H. rewrite rmatch_Cat in H.
  apply rmatch_post in H as (p1 & s1 & c1 & H & _).
  rewrite rmatch_Cat, rmatch_Group in H.
  apply rmatch_post in H as (p2 & s2 & c2 & H & Hle & Hlt & _).
  specialize (Hlt eq_refl).
  apply rmatch_post in H as (p3 & s3 & c3 & H & _ & _ & Hc).
  injection H as <-.
  unfold setcap at 1. cbn [Nat.eqb]. rewrite Hc by reflexivity.
  unfold setcap. cbn [Nat.eqb].
  apply sliceTo_nonempty; lia.
Qed.

(** ** Properties of the session primitives *)

Lemma send_sent msg w : sent (conn (ss (send msg w))) = sent (conn (ss w)) ++ [msg].
Proof. unfold send. destruct (connWrite _ msg); reflexivity. Qed.

Lemma send_state msg w : state (ss (send msg w)) = state (ss w).
Proof. unfold send. destruct (connWrite _ msg); reflexivity. Qed.

Lemma send_from msg w : from (ss (send msg w)) = from (ss w).
Proof. unfold send. destruct (connWrite _ msg); reflexivity. Qed.

Lemma send_recipients msg w : recipients (ss (send msg w)) = recipients (ss w).
Proof. unfold send. destruct (connWrite _ msg); reflexivity. Qed.

Lemma send_remoteDomain msg w : remoteDomain (ss (send msg w)) = remoteDomain (ss w).
Proof. unfold send. destruct (connWrite _ msg); reflexivity. Qed.

Lemma send_remoteHost msg w : remoteHost (ss (send msg w)) = remoteHost (ss w).
Proof. unfold send. destruct (connWrite _ msg); reflexivity. Qed.

Lemma send_reader msg w : reader (ss (send msg w)) = reader (ss w).
Proof. unfold send. destruct (connWrite _ msg); reflexivity. Qed.

Lemma send_id msg w : id (ss (send msg w)) = id (ss w).
Proof. unfold send. destruct (connWrite _ msg); reflexivity. Qed.

Lemma send_manager msg w : manager (send msg w) = manager w.
Proof. unfold send. destruct (connWrite _ msg); reflexivity. Qed.

Lemma send_delivered msg w : delivered (send msg w) = delivered w.
Proof. unfold send. destruct (connWrite _ msg); reflexivity. Qed.

Lemma send_expReceivedTotal msg w : expReceivedTotal (send msg w) = expReceivedTotal w.
Proof. unfold send. destruct (connWrite _ msg); reflexivity. Qed.

Create Rewrite HintDb session.

#[local] Hint Rewrite send_sent send_state send_from send_recipients send_remoteDomain
  send_remoteHost send_reader send_id send_manager send_delivered
  send_expReceivedTotal : session.

(** what [ooSeq] leaves alone *)
Lemma ooSeq_frame cmd w :
  state (ss (ooSeq cmd w)) = state (ss w)
  /\ from (ss (ooSeq cmd w)) = from (ss w)
  /\ recipients (ss (ooSeq cmd w)) = recipients (ss w).
Proof. unfold ooSeq. cbn. autorewrite with session. auto. Qed.

(** ** [reset] *)

(** C7. For every session state, [reset] sets the state to READY, clears
    [from] to the empty string and empties the recipients list; every other
    field of the session (the remote domain in particular, and also the id,
    the connection, the remote host, the send error and the reader) is left
    unchanged, and so are the counters and the manager. *)
Theorem reset_frame (w : W) :
  state (ss (reset w)) = READY
  /\ from (ss (reset w)) = ""
  /\ recipients (ss (reset w)) = []
  /\ remoteDomain (ss (reset w)) = remoteDomain (ss w)
  /\ id (ss (reset w)) = id (ss w)
  /\ conn (ss (reset w)) = conn (ss w)
  /\ remoteHost (ss (reset w)) = remoteHost (ss w)
  /\ sendError (ss (reset w)) = sendError (ss w)
  /\ reader (ss (reset w)) = reader (ss w)
  /\ expConnectsCurrent (reset w) = expConnectsCurrent w
  /\ expReceivedTotal (reset w) = expReceivedTotal w
  /\ expWarnsTotal (reset w) = expWarnsTotal w
  /\ expErrorsTotal (reset w) = expErrorsTotal w
  /\ manager (reset w) = manager w
  /\ delivered (reset w) = delivered w.
Proof. repeat split. Qed.

(** ** [parseCmd] *)

Lemma parseCmd_result line w :
  fst (parseCmd line w)
  = let t := TrimRight line CRLF in
    if len t =? 0 then ("", "", true)
    else if len t <? 4 then ("", "", false)
    else if len t =? 4 then (ToUpper t, "", true)
    else if len t =? 5 then ("", "", false)
    else match String.get 4 t with
         | Some c =>
             if negb (Ascii.eqb c SP) then ("", "", false)
             else (ToUpper (sliceTo 4 t), Trim (sliceFrom 5 t) " ", true)
         | None => ("", "", false)
         end.
Proof.
  unfold parseCmd. cbv zeta.
  repeat match goal with
         | |- context [if ?b then _ else _] => destruct b; try reflexivity
         | |- context [match ?o with Some _ => _ | None => _ end] =>
             destruct o; try reflexivity
         end.
Qed.

(** C2. With [t] the line without the CR and LF bytes at its end: an empty
    [t] gives the empty verb, the empty argument and ok; a [t] of 1 to 3
    bytes gives not ok; a [t] of exactly 4 bytes gives [t] upper-cased, the
    empty argument and ok; a [t] of exactly 5 bytes gives not ok; a [t] of 6
    bytes or more gives not ok unless its byte at index 4 is a space, and
    then [t] is four bytes, the space and a remainder, the verb is the four
    bytes upper-cased, the argument is the remainder without the spaces at
    its two ends, and ok. *)
Theorem parseCmd_cases (line : string) (w : W) :
  let t := TrimRight line CRLF in
  let n := String.length t in
  isTrimRightOf CRLF line t
  /\ (n = 0%nat -> fst (parseCmd line w) = ("", "", true))
  /\ ((1 <= n <= 3)%nat -> snd (fst (parseCmd line w)) = false)
  /\ (n = 4%nat -> fst (parseCmd line w) = (ToUpper t, "", true))
  /\ (n = 5%nat -> snd (fst (parseCmd line w)) = false)
  /\ ((6 <= n)%nat -> String.get 4 t <> Some SP ->
      snd (fst (parseCmd line w)) = false)
  /\ ((6 <= n)%nat -> String.get 4 t = Some SP ->
      let verb := sliceTo 4 t in
      let remainder := sliceFrom 5 t in
      let arg := Trim remainder " " in
      t = verb +:+ String SP remainder
      /\ isTrimOf " " remainder arg
      /\ fst (parseCmd line w) = (ToUpper verb, arg, true)).
Proof.
  intros t n. split; [apply TrimRight_spec|].
  rewrite parseCmd_result. fold t. unfold len. fold n. cbv zeta.
  split; [|split; [|split; [|split; [|split]]]].
  - intros Hn. rewrite Hn. reflexivity.
  - intros Hn.
    destruct (Z.of_nat n =? 0) eqn:E0; [apply Z.eqb_eq in E0; lia|].
    destruct (Z.of_nat n <? 4) eqn:E4; [reflexivity|apply Z.ltb_ge in E4; lia].
  - intros Hn. rewrite Hn. reflexivity.
  - intros Hn. rewrite Hn. reflexivity.
  - intros Hn Hsp.
    destruct (Z.of_nat n =? 0) eqn:E0; [apply Z.eqb_eq in E0; lia|].
    destruct (Z.of_nat n <? 4) eqn:E4; [reflexivity|].
    destruct (Z.of_nat n =? 4) eqn:E4'; [apply Z.eqb_eq in E4'; lia|].
    destruct (Z.of_nat n =? 5) eqn:E5; [reflexivity|].
    destruct (String.get 4 t) as [c|]; [|reflexivity].
    destruct (Ascii.eqb c SP) eqn:Ec; [|reflexivity].
    apply Ascii.eqb_eq in Ec. congruence.
  - intros Hn Hsp. split; [|split].
    + rewrite <- (sliceFrom_get 4 t SP Hsp). apply slice_split.
    + apply Trim_spec.
    + destruct (Z.of_nat n =? 0) eqn:E0; [apply Z.eqb_eq in E0; lia|].
      destruct (Z.of_nat n <? 4) eqn:E4; [apply Z.ltb_lt in E4; lia|].
      destruct (Z.of_nat n =? 4) eqn:E4'; [apply Z.eqb_eq in E4'; lia|].
      destruct (Z.of_nat n =? 5) eqn:E5; [apply Z.eqb_eq in E5; lia|].
      rewrite Hsp. rewrite Ascii.eqb_refl. reflexivity.
Qed.

(** ** [mailHandler] *)

Lemma mailHandler_DATA_with_argument arg w :
  arg <> "" ->
  mailHandler "DATA" arg w
  = logWarn (send "501 DATA command should not have any arguments" w).
Proof.
  intros Harg. unfold mailHandler. cbn [String.eqb Ascii.eqb Bool.eqb].
  destruct (String.eqb arg "") eqn:E; [apply String.eqb_eq in E; contradiction|].
  reflexivity.
Qed.

(** C10. In the MAIL state with at least one accepted recipient, a DATA
    command that carries a non-empty argument is answered with
    [501 DATA command should not have any arguments]; the session stays in
    the MAIL state, and [from] and the recipients list are unchanged. *)
Theorem mailHandler_DATA_argument_rejected (arg : string) (w : W) :
  state (ss w) = MAIL ->
  recipients (ss w) <> [] ->
  arg <> "" ->
  let w' := mailHandler "DATA" arg w in
  sent (conn (ss w'))
  = sent (conn (ss w)) ++ ["501 DATA command should not have any arguments"]
  /\ state (ss w') = MAIL
  /\ from (ss w') = from (ss w)
  /\ recipients (ss w') = recipients (ss w).
Proof.
  intros Hst _ Harg w'. subst w'.
  rewrite mailHandler_DATA_with_argument by assumption.
  cbn [logWarn ss]. autorewrite with session. auto.
Qed.

Lemma mailHandler_RCPT arg recip w :
  4 <= len arg ->
  ToUpper (sliceTo 3 arg) = "TO:" ->
  NewRecipient (Trim (sliceFrom 3 arg) "<> ") = Some recip ->
  mailHandler "RCPT" arg w
  = if Z.of_nat (length (recipients (ss w))) >=? maxRecips server
    then send ("552 Maximum limit of " +:+ itoa (maxRecips server)
               +:+ " recipients reached") (logWarn w)
    else send ("250 I'll make sure <" +:+ Trim (sliceFrom 3 arg) "<> " +:+ "> gets this")
              (onSession (setRecipients (recipients (ss w) ++ [recip])) w).
Proof.
  intros Hlen Hto Hnew. unfold mailHandler. cbn [String.eqb Ascii.eqb Bool.eqb].
  destruct (len arg <? 4) eqn:E; [apply Z.ltb_lt in E; lia|].
  rewrite Hto. cbn [String.eqb Ascii.eqb Bool.eqb negb orb].
  rewrite Hnew. reflexivity.
Qed.

(** C6. In the MAIL state, for a RCPT command that is syntactically valid
    (an argument of at least 4 bytes that starts with [TO:] in any case, and
    an address the policy accepts): when it is the [maxRecips]-th, it is
    accepted with [250 I'll make sure <addr> gets this] and its recipient is
    appended; when the list already holds [maxRecips] recipients, it is
    answered with [552 Maximum limit of <maxRecips> recipients reached],
    the list is unchanged and the session stays in the MAIL state. *)
Theorem mailHandler_RCPT_limit (arg : string) (recip : Recipient) (w : W) :
  state (ss w) = MAIL ->
  4 <= len arg ->
  ToUpper (sliceTo 3 arg) = "TO:" ->
  NewRecipient (Trim (sliceFrom 3 arg) "<> ") = Some recip ->
  let w' := mailHandler "RCPT" arg w in
  (Z.of_nat (length (recipients (ss w))) + 1 = maxRecips server ->
   sent (conn (ss w'))
   = sent (conn (ss w))
     ++ ["250 I'll make sure <" +:+ Trim (sliceFrom 3 arg) "<> " +:+ "> gets this"]
   /\ recipients (ss w') = recipients (ss w) ++ [recip]
   /\ state (ss w') = MAIL)
  /\ (Z.of_nat (length (recipients (ss w))) = maxRecips server ->
      sent (conn (ss w'))
      = sent (conn (ss w))
        ++ ["552 Maximum limit of " +:+ itoa (maxRecips server) +:+ " recipients reached"]
      /\ recipients (ss w') = recipients (ss w)
      /\ state (ss w') = MAIL).
Proof.
  intros Hst Hlen Hto Hnew w'. subst w'.
  rewrite (mailHandler_RCPT arg recip w Hlen Hto Hnew).
  split; intros Hn.
  - destruct (Z.of_nat (length (recipients (ss w))) >=? maxRecips server) eqn:E;
      [apply Z.geb_le in E; lia|].
    autorewrite with session. cbn. auto.
  - destruct (Z.of_nat (length (recipients (ss w))) >=? maxRecips server) eqn:E;
      [|rewrite Z.geb_leb in E; apply Z.leb_gt in E; lia].
    autorewrite with session. cbn. auto.
Qed.

(** ** [readyHandler] *)

Lemma parseArgs_unchanged arg w args :
  fst (parseArgs arg w) = (args, true) -> parseArgs arg w = (args, true, w).
Proof.
  unfold parseArgs. destruct (FindAllStringSubmatch esmtpArgRe arg); cbn.
  - intros H. discriminate.
  - intros H. rewrite <- H. reflexivity.
Qed.

(** [strconv.ParseInt] with a bit size of 32 only returns values of that
    size *)
Lemma ParseInt32_range s v :
  ParseInt32 s = Some v -> - 2 ^ 31 <= v <= 2 ^ 31 - 1.
Proof.
  unfold ParseInt32.
  destruct (match s with
            | String "+" rest => (false, rest)
            | String "-" rest => (true, rest)
            | _ => (false, s)
            end) as [neg digits].
  destruct digits; [discriminate|].
  destruct (parseDigits 0 _) as [un|]; [|discriminate].
  destruct ((- 2 ^ 31 <=? (if neg then - un else un))
            && ((if neg then - un else un) <=? 2 ^ 31 - 1)) eqn:E; [|discriminate].
  intros H. injection H as <-.
  apply andb_prop in E as [E1 E2].
  apply Z.leb_le in E1. apply Z.leb_le in E2. lia.
Qed.

(** the MAIL command once its argument has matched, the sender address has
    passed the policy, and a SIZE parameter has been found and parsed *)
Lemma readyHandler_MAIL_SIZE arg m addr args size v w :
  FindStringSubmatch mailFromRe arg = Some m ->
  ParseEmailAddress (m 1%nat) = Some addr ->
  m 2%nat <> "" ->
  fst (parseArgs (m 2%nat) w) = (args, true) ->
  default "" (args !! "SIZE") = size ->
  size <> "" ->
  ParseInt32 size = Some v ->
  readyHandler "MAIL" arg w
  = if v >? maxMessageBytes server
    then logWarn (send "552 Max message size exceeded" w)
    else enterState MAIL
           (send ("250 Roger, accepting mail from <" +:+ m 1%nat +:+ ">")
                 (onSession (setFrom (m 1%nat)) w)).
Proof.
  intros Hm Haddr Hm2 Hargs Hsize Hne Hv.
  unfold readyHandler. cbn [String.eqb Ascii.eqb Bool.eqb].
  rewrite Hm, Haddr.
  destruct (String.eqb (m 2%nat) "") eqn:E2; [apply String.eqb_eq in E2; contradiction|].
  cbn [negb]. rewrite (parseArgs_unchanged _ _ _ Hargs). cbn [negb].
  rewrite Hsize.
  destruct (String.eqb size "") eqn:Es; [apply String.eqb_eq in Es; contradiction|].
  cbn [negb]. rewrite Hv. reflexivity.
Qed.

(** C5. The SIZE value among the ESMTP parameters of MAIL FROM is parsed as
    a decimal integer of 32 signed bits.  For every value [v] so parsed: if
    [v] is greater than [maxMessageBytes] the session replies
    [552 Max message size exceeded] and does not enter the MAIL state (state
    and [from] stay as they were); if [v] equals [maxMessageBytes] the
    command is accepted: the sender is recorded, the reply is
    [250 Roger, accepting mail from <addr>] and the state is MAIL. *)
Theorem readyHandler_SIZE_limit
    (arg : string) (m : caps) (addr : string * string)
    (args : gmap string string) (size : string) (v : Z) (w : W) :
  FindStringSubmatch mailFromRe arg = Some m ->
  ParseEmailAddress (m 1%nat) = Some addr ->
  m 2%nat <> "" ->
  fst (parseArgs (m 2%nat) w) = (args, true) ->
  default "" (args !! "SIZE") = size ->
  size <> "" ->
  ParseInt32 size = Some v ->
  let w' := readyHandler "MAIL" arg w in
  - 2 ^ 31 <= v <= 2 ^ 31 - 1
  /\ (v > maxMessageBytes server ->
      sent (conn (ss w')) = sent (conn (ss w)) ++ ["552 Max message size exceeded"]
      /\ state (ss w') = state (ss w)
      /\ from (ss w') = from (ss w))
  /\ (v = maxMessageBytes server ->
      sent (conn (ss w'))
      = sent (conn (ss w)) ++ ["250 Roger, accepting mail from <" +:+ m 1%nat +:+ ">"]
      /\ state (ss w') = MAIL
      /\ from (ss w') = m 1%nat).
Proof.
  intros Hm Haddr Hm2 Hargs Hsize Hne Hv w'. subst w'.
  rewrite (readyHandler_MAIL_SIZE _ _ _ _ _ _ _ Hm Haddr Hm2 Hargs Hsize Hne Hv).
  split; [eapply ParseInt32_range; eassumption|].
  split; intros Hcmp.
  - destruct (v >? maxMessageBytes server) eqn:E;
      [|rewrite Z.gtb_ltb in E; apply Z.ltb_ge in E; lia].
    cbn [logWarn ss]. autorewrite with session. auto.
  - destruct (v >? maxMessageBytes server) eqn:E;
      [rewrite Z.gtb_ltb in E; apply Z.ltb_lt in E; lia|].
    cbn [enterState onSession ss setState state from conn].
    autorewrite with session. cbn. auto.
Qed.

(** ** Delivery *)

Lemma iter_shift {A} (f : A -> A) n x : Nat.iter n f (f x) = f (Nat.iter n f x).
Proof.
  induction n as [|n IHn]; [reflexivity|].
  change (f (Nat.iter n f (f x)) = f (f (Nat.iter n f x))). rewrite IHn. reflexivity.
Qed.

(** What the loop over the recipients does, for any tail [rest] of the
    list: the calls it makes, in order, and where it stops. *)
Lemma deliverLoop_spec tstamp body : forall rest w w' completed,
  deliverLoop tstamp body rest w = (w', completed) ->
  exists calls,
    delivered w' = delivered w ++ calls
    /\ manager w' = replay calls (manager w)
    /\ Forall (callFor (ss w) tstamp body) calls
    /\ if completed then
         map dcRecip calls = List.filter ShouldStore rest
         /\ replayErrors calls (manager w) = map (fun _ => None) calls
         /\ ss w' = ss w
         /\ expReceivedTotal w'
            = Nat.iter (length rest) (fun v => Int_Add v 1) (expReceivedTotal w)
       else
         exists pre r post e,
           rest = pre ++ r :: post
           /\ ShouldStore r = true
           /\ map dcRecip calls = List.filter ShouldStore pre ++ [r]
           /\ replayErrors calls (manager w)
              = map (fun _ => None) (List.filter ShouldStore pre) ++ [Some e]
           /\ sent (conn (ss w'))
              = sent (conn (ss w)) ++ ["451 Failed to store message for " +:+ LocalPart r]
           /\ state (ss w') = READY
           /\ from (ss w') = ""
           /\ recipients (ss w') = []
           /\ expReceivedTotal w'
              = Nat.iter (length pre) (fun v => Int_Add v 1) (expReceivedTotal w).
Proof.
  induction rest as [|r rest IH]; intros w w' completed H; cbn [deliverLoop] in H.
  - injection H as <- <-. exists []. rewrite app_nil_r. cbn.
    split; [reflexivity|]. split; [reflexivity|]. split; [constructor|].
    repeat split.
  - destruct (ShouldStore r) eqn:Hstore.
    + unfold callDeliver in H.
      destruct (Deliver (manager w) r (from (ss w)) (recipients (ss w))
                        (receivedPrefix (ss w) r tstamp) body) as [m1 err] eqn:HD.
      set (c := mkDeliverCall r (from (ss w)) (recipients (ss w))
                              (receivedPrefix (ss w) r tstamp) body) in H.
      assert (Hc : callFor (ss w) tstamp body c) by (repeat split).
      destruct err as [e|].
      * injection H as <- <-.
        exists [c]. split; [|split; [|split]].
        -- cbn. autorewrite with session. reflexivity.
        -- cbn. autorewrite with session. cbn. rewrite HD. reflexivity.
        -- constructor; [assumption|constructor].
        -- exists [], r, rest, e. cbn. rewrite HD.
           autorewrite with session. cbn. repeat split; auto.
      * apply IH in H as (calls & Hdel & Hman & Hall & Hrest).
        cbn in Hdel, Hman, Hall.
        exists (c :: calls). split; [|split; [|split]].
        -- rewrite Hdel, <- app_assoc. reflexivity.
        -- rewrite Hman. cbn. rewrite HD. reflexivity.
        -- constructor; assumption.
        -- destruct completed.
           ++ destruct Hrest as (Hmap & Herr & Hss & Hcnt).
              cbn. rewrite Hstore, HD. cbn in Herr, Hss, Hcnt.
              rewrite Hmap, Herr, Hss, Hcnt. repeat split.
              exact (iter_shift (fun v => Int_Add v 1) _ _).
           ++ destruct Hrest as (pre & r' & post & e & -> & Hs' & Hmap & Herr & Hsent & Hrst).
              exists (r :: pre), r', post, e.
              cbn. rewrite Hstore, HD. cbn in Herr, Hsent, Hrst.
              rewrite Hmap, Herr, Hsent.
              destruct Hrst as (-> & -> & -> & ->).
              repeat split; auto. exact (iter_shift (fun v => Int_Add v 1) _ _).
    + apply IH in H as (calls & Hdel & Hman & Hall & Hrest).
      cbn in Hdel, Hman, Hall.
      exists calls. split; [|split; [|split]]; try assumption.
      destruct completed.
      * destruct Hrest as (Hmap & Herr & Hss & Hcnt).
        cbn. rewrite Hstore. cbn in Herr, Hss, Hcnt.
        rewrite Hcnt. repeat split; auto. exact (iter_shift (fun v => Int_Add v 1) _ _).
      * destruct Hrest as (pre & r' & post & e & -> & Hs' & Hmap & Herr & Hsent & Hrst).
        exists (r :: pre), r', post, e.
        cbn. rewrite Hstore. cbn in Herr, Hsent, Hrst.
        destruct Hrst as (-> & -> & -> & ->).
        repeat split; auto. exact (iter_shift (fun v => Int_Add v 1) _ _).
Qed.

(** ** The data phase *)

Lemma joinLines_app (a b : list string) :
  joinLines (a ++ b) = joinLines a +:+ joinLines b.
Proof.
  induction a as [|x a IH]; [reflexivity|].
  change (x +:+ joinLines (a ++ b) = (x +:+ joinLines a) +:+ joinLines b).
  rewrite IH, append_assoc. reflexivity.
Qed.

Lemma advance_advance rest rest' (w : W) : advance rest (advance rest' w) = advance rest w.
Proof. reflexivity. Qed.

Lemma advance_pending (w : W) : advance (pending (reader (ss w))) w = w.
Proof. destruct w as [[? ? ? ? ? ? [? ?] ? ?] ? ? ? ? ? ?]. reflexivity. Qed.

Lemma pending_advance rest (w : W) : pending (reader (ss (advance rest w))) = rest.
Proof. reflexivity. Qed.

Lemma sent_advance rest (w : W) : sent (conn (ss (advance rest w))) = sent (conn (ss w)).
Proof. reflexivity. Qed.

(** one pass of the read loop on a line that has been read *)
Lemma dataLoop_line lineBuf rest msgBuf w :
  dataLoop (lineBuf :: rest) msgBuf w
  = if isTerminator lineBuf then mailDataComplete msgBuf (advance rest w)
    else if len (msgBuf +:+ unstuff lineBuf) >? maxMessageBytes server
         then reset (logWarn (send "552 Maximum message size exceeded" (advance rest w)))
         else dataLoop rest (msgBuf +:+ unstuff lineBuf) (advance rest w).
Proof. reflexivity. Qed.

(** the read loop in terms of [readByteLine] *)
Lemma dataLoop_readByteLine msgBuf w :
  dataLoop (pending (reader (ss w))) msgBuf w
  = match readByteLine w with
    | (inr err, w) =>
        enterState QUIT
          (logWarn (match err with
                    | TimeoutError => send "221 Idle timeout, bye bye" w
                    | _ => w
                    end))
    | (inl lineBuf, w) =>
        if isTerminator lineBuf then mailDataComplete msgBuf w
        else if len (msgBuf +:+ unstuff lineBuf) >? maxMessageBytes server
             then reset (logWarn (send "552 Maximum message size exceeded" w))
             else dataLoop (pending (reader (ss w))) (msgBuf +:+ unstuff lineBuf) w
    end.
Proof.
  unfold readByteLine. destruct (pending (reader (ss w))) as [|l rest]; reflexivity.
Qed.

Lemma isTerminator_iff lineBuf :
  isTerminator lineBuf = true
  <-> lineBuf = String "." CRLF \/ lineBuf = String "." (String LF "").
Proof.
  unfold isTerminator. rewrite orb_true_iff, !String.eqb_eq. reflexivity.
Qed.

(** the lines of a body go into the buffer, unstuffed, as long as the
    buffer stays within the limit *)
Lemma dataLoop_body : forall body tail msgBuf w,
  pending (reader (ss w)) = body ++ tail ->
  Forall (fun l => isTerminator l = false) body ->
  len (msgBuf +:+ joinLines (map unstuff body)) <= maxMessageBytes server ->
  dataLoop (body ++ tail) msgBuf w
  = dataLoop tail (msgBuf +:+ joinLines (map unstuff body)) (advance tail w).
Proof.
  induction body as [|l body IH]; intros tail msgBuf w Hpend Hnt Hsize.
  - cbn in *. rewrite append_nil_r, <- Hpend, advance_pending. reflexivity.
  - inversion Hnt as [|? ? Hl Hbody]; subst.
    change (joinLines (map unstuff (l :: body)))
      with (unstuff l +:+ joinLines (map unstuff body)) in *.
    change ((l :: body) ++ tail) with (l :: (body ++ tail)) in *.
    rewrite dataLoop_line, Hl.
    rewrite <- append_assoc in Hsize.
    destruct (len (msgBuf +:+ unstuff l) >? maxMessageBytes server) eqn:E.
    + rewrite Z.gtb_ltb in E. apply Z.ltb_lt in E.
      rewrite len_append in Hsize.
      pose proof (len_nonneg (joinLines (map unstuff body))). lia.
    + rewrite IH; [|reflexivity|assumption|assumption].
      rewrite advance_advance, append_assoc. reflexivity.
Qed.

Lemma stuffLine_not_terminator l : isTerminator (stuffLine l) = false.
Proof.
  destruct l as [|c l]; [reflexivity|].
  destruct c as [[] [] [] [] [] [] [] []]; reflexivity.
Qed.

Lemma unstuff_stuffLine l : unstuff (stuffLine l) = l.
Proof.
  destruct l as [|c l]; [reflexivity|].
  destruct c as [[] [] [] [] [] [] [] []]; reflexivity.
Qed.

Lemma unstuff_dotStuff body : map unstuff (dotStuff body) = body.
Proof.
  unfold dotStuff. induction body as [|l body IH]; cbn [map]; [reflexivity|].
  rewrite unstuff_stuffLine, IH. reflexivity.
Qed.

Lemma dotStuff_not_terminator body :
  Forall (fun l => isTerminator l = false) (dotStuff body).
Proof.
  unfold dotStuff. induction body; cbn [map]; constructor;
    auto using stuffLine_not_terminator.
Qed.

(** the data phase up to the terminator line *)
Lemma dataHandler_complete body term rest w :
  pending (reader (ss w)) = body ++ term :: rest ->
  Forall (fun l => isTerminator l = false) body ->
  isTerminator term = true ->
  len (joinLines (map unstuff body)) <= maxMessageBytes server ->
  dataHandler w
  = mailDataComplete (joinLines (map unstuff body))
      (advance rest (send "354 Start mail input; end with <CRLF>.<CRLF>" w)).
Proof.
  intros Hpend Hnt Hterm Hsize. unfold dataHandler. cbv zeta.
  rewrite send_reader, Hpend.
  rewrite dataLoop_body; [|rewrite send_reader; assumption|assumption|assumption].
  rewrite dataLoop_line, Hterm, advance_advance. reflexivity.
Qed.

(** C8. When the read loop of the data phase meets the terminator line,
    [Deliver] is called for exactly the recipients whose [ShouldStore()] is
    true, one after the other in the order of the recipients list (the order
    in which the RCPT commands were accepted), each call with the sender,
    the whole recipients list, the Received prefix for its recipient and the
    message body.  Either every call returns without an error, and the
    session replies [250 Mail accepted for delivery] and is reset to READY;
    or one call, for a recipient [r], returns an error: then no call is made
    for a later recipient, the session replies
    [451 Failed to store message for <LocalPart r>] and is reset to READY,
    and the manager keeps what the earlier calls and the failed one did to
    it, nothing being undone. *)
Theorem deliveries_after_terminator (term : string) (rest : list string)
    (msgBuf : string) (w : W) :
  isTerminator term = true ->
  let w' := dataLoop (term :: rest) msgBuf w in
  exists calls,
    delivered w' = delivered w ++ calls
    /\ manager w' = replay calls (manager w)
    /\ Forall (callFor (ss w) (timeNow (advance rest w)) msgBuf) calls
    /\ state (ss w') = READY
    /\ from (ss w') = ""
    /\ recipients (ss w') = []
    /\ ((map dcRecip calls = List.filter ShouldStore (recipients (ss w))
         /\ replayErrors calls (manager w) = map (fun _ => None) calls
         /\ sent (conn (ss w')) = sent (conn (ss w)) ++ ["250 Mail accepted for delivery"])
        \/ (exists pre r post e,
              recipients (ss w) = pre ++ r :: post
              /\ ShouldStore r = true
              /\ map dcRecip calls = List.filter ShouldStore pre ++ [r]
              /\ replayErrors calls (manager w)
                 = map (fun _ => None) (List.filter ShouldStore pre) ++ [Some e]
              /\ sent (conn (ss w'))
                 = sent (conn (ss w))
                   ++ ["451 Failed to store message for " +:+ LocalPart r])).
Proof.
  intros Hterm w'. subst w'. rewrite dataLoop_line, Hterm.
  unfold mailDataComplete.
  destruct (deliverLoop (timeNow (advance rest w)) msgBuf
              (recipients (ss (advance rest w))) (advance rest w))
    as [w1 completed] eqn:E.
  apply deliverLoop_spec in E as (calls & Hdel & Hman & Hall & Hrest).
  exists calls.
  split; [destruct completed; [cbn; autorewrite with session|]; exact Hdel|].
  split; [destruct completed; [cbn; autorewrite with session|]; exact Hman|].
  split.
  { eapply Forall_impl; [exact Hall|].
    intros c (Hf & Hr & Hp & Hb). repeat split; assumption. }
  destruct completed.
  - destruct Hrest as (Hmap & Herr & Hss & _).
    cbn [reset enterState onSession ss setState setFrom setRecipients
         state from recipients conn].
    autorewrite with session. rewrite Hss.
    repeat split. left. repeat split; assumption.
  - destruct Hrest as (pre & r & post & e & Hrec & Hst & Hmap & Herr & Hsent & Hstate
                       & Hfrom & Hrecips & _).
    split; [assumption|]. split; [assumption|]. split; [assumption|].
    right. exists pre, r, post, e. repeat split; assumption.
Qed.

(** C9, as the code has it.  When the data phase completes (the loop over
    the recipients runs to its end and the session replies
    [250 Mail accepted for delivery]), the received-total counter has been
    incremented once for every recipient of the message, stored or not,
    while [Deliver] has been called for the stored ones only: the calls
    made are one for each recipient whose [ShouldStore()] is true, in the
    order of the list, and none for any other. *)
Theorem received_total_per_recipient (msgBuf : string) (w : W) :
  snd (deliverLoop (timeNow w) msgBuf (recipients (ss w)) w) = true ->
  let w' := mailDataComplete msgBuf w in
  expReceivedTotal w'
  = Nat.iter (length (recipients (ss w))) (fun v => Int_Add v 1) (expReceivedTotal w)
  /\ (exists calls,
        delivered w' = delivered w ++ calls
        /\ manager w' = replay calls (manager w)
        /\ map dcRecip calls = List.filter ShouldStore (recipients (ss w))
        /\ Forall (fun c => ShouldStore (dcRecip c) = true) calls)
  /\ length (delivered w')
     = (length (delivered w) + length (List.filter ShouldStore (recipients (ss w))))%nat
  /\ sent (conn (ss w')) = sent (conn (ss w)) ++ ["250 Mail accepted for delivery"].
Proof.
  intros Hdone w'. subst w'. unfold mailDataComplete.
  destruct (deliverLoop (timeNow w) msgBuf (recipients (ss w)) w) as [w1 completed] eqn:E.
  cbn in Hdone. subst completed.
  apply deliverLoop_spec in E as (calls & Hdel & Hman & _ & Hmap & _ & Hss & Hcnt).
  cbn. autorewrite with session. rewrite Hdel, Hss, Hcnt, length_app, <- Hmap, length_map.
  split; [reflexivity|]. split; [|auto].
  exists calls. split; [reflexivity|]. split; [exact Hman|]. split; [reflexivity|].
  apply List.Forall_forall. intros c Hc.
  assert (Hin : In (dcRecip c) (map dcRecip calls)) by (apply in_map; exact Hc).
  rewrite Hmap in Hin. apply filter_In in Hin as [_ Hin]. exact Hin.
Qed.

Lemma deliverLoop_completes tstamp body :
  (forall m r f rs p b, snd (Deliver m r f rs p b) = None) ->
  forall rest w, snd (deliverLoop tstamp body rest w) = true.
Proof.
  intros Hok. induction rest as [|r rest IH]; intros w; cbn [deliverLoop]; [reflexivity|].
  destruct (ShouldStore r); [|apply IH].
  unfold callDeliver.
  pose proof (Hok (manager w) r (from (ss w)) (recipients (ss w))
                  (receivedPrefix (ss w) r tstamp) body) as H.
  destruct (Deliver _ _ _ _ _ _) as [m1 err]. cbn in H. subst err. apply IH.
Qed.

Lemma mailDataComplete_accepted msgBuf w :
  snd (deliverLoop (timeNow w) msgBuf (recipients (ss w)) w) = true ->
  sent (conn (ss (mailDataComplete msgBuf w)))
  = sent (conn (ss w)) ++ ["250 Mail accepted for delivery"]
  /\ state (ss (mailDataComplete msgBuf w)) = READY.
Proof.
  intros Hdone. unfold mailDataComplete.
  destruct (deliverLoop (timeNow w) msgBuf (recipients (ss w)) w) as [w1 completed] eqn:E.
  cbn in Hdone. subst completed.
  apply deliverLoop_spec in E as (calls & _ & _ & _ & _ & _ & Hss & _).
  cbn. autorewrite with session. rewrite Hss. auto.
Qed.

(** C3. In the data phase, a body whose lines add up, unstuffed, to exactly
    [maxMessageBytes] bytes is taken whole to delivery on the terminator
    line and, when no [Deliver] call fails, answered with
    [250 Mail accepted for delivery]; and as soon as a line makes the buffer
    longer than [maxMessageBytes], the session replies
    [552 Maximum message size exceeded], is reset (empty [from], no
    recipients) and is back in the READY state. *)
Theorem dataHandler_size_limit (w : W) :
  (forall body term rest,
      pending (reader (ss w)) = body ++ term :: rest ->
      Forall (fun l => isTerminator l = false) body ->
      isTerminator term = true ->
      len (joinLines (map unstuff body)) = maxMessageBytes server ->
      dataHandler w
      = mailDataComplete (joinLines (map unstuff body))
          (advance rest (send "354 Start mail input; end with <CRLF>.<CRLF>" w))
      /\ ((forall m r f rs p b, snd (Deliver m r f rs p b) = None) ->
          sent (conn (ss (dataHandler w)))
          = sent (conn (ss w))
            ++ ["354 Start mail input; end with <CRLF>.<CRLF>";
                "250 Mail accepted for delivery"]
          /\ state (ss (dataHandler w)) = READY))
  /\ (forall body l rest,
      pending (reader (ss w)) = body ++ l :: rest ->
      Forall (fun l => isTerminator l = false) body ->
      isTerminator l = false ->
      len (joinLines (map unstuff body)) <= maxMessageBytes server ->
      len (joinLines (map unstuff (body ++ [l]))) > maxMessageBytes server ->
      sent (conn (ss (dataHandler w)))
      = sent (conn (ss w))
        ++ ["354 Start mail input; end with <CRLF>.<CRLF>";
            "552 Maximum message size exceeded"]
      /\ state (ss (dataHandler w)) = READY
      /\ from (ss (dataHandler w)) = ""
      /\ recipients (ss (dataHandler w)) = []).
Proof.
  split.
  - intros body term rest Hpend Hnt Hterm Hsize.
    assert (Heq : dataHandler w
                  = mailDataComplete (joinLines (map unstuff body))
                      (advance rest (send "354 Start mail input; end with <CRLF>.<CRLF>" w))).
    { apply dataHandler_complete with (term := term); auto. lia. }
    split; [exact Heq|].
    intros Hok. rewrite Heq.
    destruct (mailDataComplete_accepted (joinLines (map unstuff body))
                (advance rest (send "354 Start mail input; end with <CRLF>.<CRLF>" w)))
      as [Hsent Hstate].
    { apply deliverLoop_completes. assumption. }
    rewrite Hsent, Hstate, sent_advance, send_sent, <- app_assoc. auto.
  - intros body l rest Hpend Hnt Hl Hbody Hover.
    unfold dataHandler. cbv zeta. rewrite send_reader, Hpend.
    rewrite dataLoop_body;
      [|rewrite send_reader; assumption|assumption|rewrite append_nil_l; assumption].
    rewrite dataLoop_line, Hl, append_nil_l.
    rewrite map_app, joinLines_app in Hover.
    change (joinLines (map unstuff [l])) with (unstuff l +:+ "") in Hover.
    rewrite append_nil_r in Hover.
    destruct (len (joinLines (map unstuff body) +:+ unstuff l) >? maxMessageBytes server) eqn:E;
      [|rewrite Z.gtb_ltb in E; apply Z.ltb_ge in E; lia].
    cbn [reset enterState onSession ss setState setFrom setRecipients
         state from recipients conn logWarn].
    autorewrite with session. cbn. rewrite send_sent, <- app_assoc. auto.
Qed.

(** the calls of a completed data phase: one [Deliver] call for each
    stored recipient in the order of the list, each with the buffer as its
    body, up to the first call that fails *)
Lemma mailDataComplete_calls msgBuf w :
  exists calls,
    delivered (mailDataComplete msgBuf w) = delivered w ++ calls
    /\ manager (mailDataComplete msgBuf w) = replay calls (manager w)
    /\ Forall (fun c => dcBody c = msgBuf) calls
    /\ ((map dcRecip calls = List.filter ShouldStore (recipients (ss w))
         /\ sent (conn (ss (mailDataComplete msgBuf w)))
            = sent (conn (ss w)) ++ ["250 Mail accepted for delivery"])
        \/ (exists pre r post,
              recipients (ss w) = pre ++ r :: post
              /\ ShouldStore r = true
              /\ map dcRecip calls = List.filter ShouldStore pre ++ [r]
              /\ sent (conn (ss (mailDataComplete msgBuf w)))
                 = sent (conn (ss w))
                   ++ ["451 Failed to store message for " +:+ LocalPart r])).
Proof.
  unfold mailDataComplete.
  destruct (deliverLoop (timeNow w) msgBuf (recipients (ss w)) w) as [w1 completed] eqn:E.
  apply deliverLoop_spec in E as (calls & Hdel & Hman & Hall & Hrest).
  exists calls.
  split; [destruct completed; [cbn; autorewrite with session|]; exact Hdel|].
  split; [destruct completed; [cbn; autorewrite with session|]; exact Hman|].
  split.
  { eapply Forall_impl; [exact Hall|]. intros c (_ & _ & _ & Hb). exact Hb. }
  destruct completed.
  - destruct Hrest as (Hmap & _ & Hss & _). left. split; [exact Hmap|].
    cbn [reset enterState onSession ss setState setFrom setRecipients conn].
    autorewrite with session. rewrite Hss. reflexivity.
  - destruct Hrest as (pre & r & post & e & Hrec & Hst & Hmap & _ & Hsent & _).
    right. exists pre, r, post. auto.
Qed.

(** a body that has at least one line and is over the limit is refused
    before its terminator is read *)
Lemma dataLoop_over_limit : forall lines tail msgBuf w,
  Forall (fun l => isTerminator l = false) lines ->
  lines <> [] ->
  len (msgBuf +:+ joinLines (map unstuff lines)) > maxMessageBytes server ->
  delivered (dataLoop (lines ++ tail) msgBuf w) = delivered w
  /\ manager (dataLoop (lines ++ tail) msgBuf w) = manager w
  /\ sent (conn (ss (dataLoop (lines ++ tail) msgBuf w)))
     = sent (conn (ss w)) ++ ["552 Maximum message size exceeded"].
Proof.
  induction lines as [|l lines IH]; intros tail msgBuf w Hnt Hne Hover;
    [contradiction|].
  apply Forall_cons in Hnt as [Hl Hnt].
  change (joinLines (map unstuff (l :: lines)))
    with (unstuff l +:+ joinLines (map unstuff lines)) in Hover.
  change ((l :: lines) ++ tail) with (l :: (lines ++ tail)).
  rewrite dataLoop_line, Hl.
  destruct (len (msgBuf +:+ unstuff l) >? maxMessageBytes server) eqn:E.
  - cbn [reset enterState onSession ss setState setFrom setRecipients conn logWarn
         delivered manager].
    autorewrite with session. auto.
  - destruct lines as [|l' lines].
    + cbn [map joinLines fold_right] in Hover. rewrite append_nil_r in Hover.
      rewrite Z.gtb_ltb in E. apply Z.ltb_ge in E. lia.
    + rewrite <- append_assoc in Hover.
      destruct (IH tail (msgBuf +:+ unstuff l) (advance (l' :: lines ++ tail) w) Hnt
                  ltac:(discriminate) Hover) as (Hd & Hm & Hs).
      split; [exact Hd|split; [exact Hm|exact Hs]].
Qed.

(** C4. The read loop of the data phase ends the message exactly on a line
    equal to a dot followed by CRLF or to a dot followed by LF.  Any other
    line goes into the buffer (while the buffer stays within the limit),
    without its first byte when that byte is a dot and unchanged otherwise.
    So for a body of lines [body], sent dot-stuffed and followed by a
    terminator line: every [Deliver] call the data phase makes has [body] as
    its message body, whatever the size of [body].  When [body] is within
    the limit those calls are there: one for each recipient whose
    [ShouldStore()] is true, in the order of the list, up to and including
    the first call that fails (250 when none fails, 451 otherwise).  A
    [body] of at least one line that is over the limit is refused with 552
    and nothing is stored. *)
Theorem dataHandler_dot_unstuffing (w : W) :
  (forall l, isTerminator l = true
             <-> l = String "." CRLF \/ l = String "." (String LF ""))
  /\ (forall l rest msgBuf,
        isTerminator l = true ->
        dataLoop (l :: rest) msgBuf w = mailDataComplete msgBuf (advance rest w))
  /\ (forall l rest msgBuf,
        isTerminator l = false ->
        len (msgBuf +:+ unstuff l) <= maxMessageBytes server ->
        dataLoop (l :: rest) msgBuf w
        = dataLoop rest (msgBuf +:+ unstuff l) (advance rest w))
  /\ (forall tl, unstuff (String "." tl) = tl)
  /\ (forall c tl, c <> "."%char -> unstuff (String c tl) = String c tl)
  /\ (forall body term rest,
        pending (reader (ss w)) = dotStuff body ++ term :: rest ->
        isTerminator term = true ->
        exists calls,
          delivered (dataHandler w) = delivered w ++ calls
          /\ manager (dataHandler w) = replay calls (manager w)
          /\ Forall (fun c => dcBody c = joinLines body) calls
          /\ (len (joinLines body) <= maxMessageBytes server ->
              dataHandler w
              = mailDataComplete (joinLines body)
                  (advance rest (send "354 Start mail input; end with <CRLF>.<CRLF>" w))
              /\ ((map dcRecip calls = List.filter ShouldStore (recipients (ss w))
                   /\ sent (conn (ss (dataHandler w)))
                      = sent (conn (ss w))
                        ++ ["354 Start mail input; end with <CRLF>.<CRLF>";
                            "250 Mail accepted for delivery"])
                  \/ (exists pre r post,
                        recipients (ss w) = pre ++ r :: post
                        /\ ShouldStore r = true
                        /\ map dcRecip calls = List.filter ShouldStore pre ++ [r]
                        /\ sent (conn (ss (dataHandler w)))
                           = sent (conn (ss w))
                             ++ ["354 Start mail input; end with <CRLF>.<CRLF>";
                                 "451 Failed to store message for " +:+ LocalPart r])))
          /\ (len (joinLines body) > maxMessageBytes server ->
              body <> [] ->
              calls = []
              /\ sent (conn (ss (dataHandler w)))
                 = sent (conn (ss w))
                   ++ ["354 Start mail input; end with <CRLF>.<CRLF>";
                       "552 Maximum message size exceeded"])).
Proof.
  split; [exact isTerminator_iff|].
  split; [intros l rest msgBuf Hl; rewrite dataLoop_line, Hl; reflexivity|].
  split.
  { intros l rest msgBuf Hl Hsize. rewrite dataLoop_line, Hl.
    destruct (len (msgBuf +:+ unstuff l) >? maxMessageBytes server) eqn:E;
      [rewrite Z.gtb_ltb in E; apply Z.ltb_lt in E; lia|reflexivity]. }
  split; [reflexivity|].
  split.
  { intros c tl Hc. destruct c as [[] [] [] [] [] [] [] []]; try reflexivity.
    contradiction Hc. reflexivity. }
  intros body term rest Hpend Hterm.
  set (w0 := send "354 Start mail input; end with <CRLF>.<CRLF>" w).
  assert (Hcomplete : len (joinLines body) <= maxMessageBytes server \/ body = [] ->
                      dataHandler w = mailDataComplete (joinLines body) (advance rest w0)).
  { intros [Hsize| ->].
    - rewrite <- (unstuff_dotStuff body) at 1.
      apply dataHandler_complete with (term := term); auto.
      + apply dotStuff_not_terminator.
      + rewrite unstuff_dotStuff. assumption.
    - unfold dataHandler. cbv zeta. rewrite send_reader, Hpend.
      cbn [dotStuff map app]. rewrite dataLoop_line, Hterm. reflexivity. }
  assert (Hw0 : delivered (advance rest w0) = delivered w
                /\ manager (advance rest w0) = manager w
                /\ recipients (ss (advance rest w0)) = recipients (ss w)
                /\ sent (conn (ss (advance rest w0)))
                   = sent (conn (ss w))
                     ++ ["354 Start mail input; end with <CRLF>.<CRLF>"]).
  { unfold w0. cbn [advance onSession delivered manager ss setReader recipients conn].
    autorewrite with session. auto. }
  destruct Hw0 as (Hd0 & Hm0 & Hr0 & Hs0).
  destruct (Z_le_gt_dec (len (joinLines body)) (maxMessageBytes server)) as [Hsize|Hover];
    [|destruct body as [|l body]].
  - destruct (mailDataComplete_calls (joinLines body) (advance rest w0))
      as (calls & Hdel & Hman & Hall & Hcases).
    rewrite <- (Hcomplete (or_introl Hsize)) in Hdel, Hman, Hcases.
    rewrite Hd0 in Hdel. rewrite Hm0 in Hman. rewrite Hr0, Hs0 in Hcases.
    exists calls. split; [exact Hdel|]. split; [exact Hman|]. split; [exact Hall|].
    split; [|intros; lia].
    intros _. split; [exact (Hcomplete (or_introl Hsize))|].
    destruct Hcases as [(Hmap & Hsent)|(pre & r & post & Hrec & Hst & Hmap & Hsent)].
    + left. rewrite <- app_assoc in Hsent. auto.
    + right. exists pre, r, post. rewrite <- app_assoc in Hsent. auto.
  - destruct (mailDataComplete_calls (joinLines []) (advance rest w0))
      as (calls & Hdel & Hman & Hall & _).
    rewrite <- (Hcomplete (or_intror eq_refl)) in Hdel, Hman.
    rewrite Hd0 in Hdel. rewrite Hm0 in Hman.
    exists calls. split; [exact Hdel|]. split; [exact Hman|]. split; [exact Hall|].
    split; [intros; lia|intros _ Hne; contradiction].
  - exists []. unfold dataHandler. cbv zeta. rewrite send_reader, Hpend.
    destruct (dataLoop_over_limit (dotStuff (l :: body)) (term :: rest) "" w0)
      as (Hd & Hm & Hs).
    + apply dotStuff_not_terminator.
    + discriminate.
    + rewrite unstuff_dotStuff, append_nil_l. exact Hover.
    + fold w0. rewrite Hd, Hm, Hs. unfold w0. autorewrite with session.
      rewrite app_nil_r, <- app_assoc.
      split; [reflexivity|]. split; [reflexivity|]. split; [constructor|].
      split; [intros; lia|auto].
Qed.

(** ** The invariant of the command loop *)

Lemma same_refl w : same w w.
Proof. repeat split. Qed.

Lemma same_trans w1 w2 w3 : same w1 w2 -> same w2 w3 -> same w1 w3.
Proof. unfold same. intros (-> & -> & ->) (-> & -> & ->). auto. Qed.

Lemma same_send msg w : same w (send msg w).
Proof. unfold same. autorewrite with session. auto. Qed.

Lemma same_logWarn w : same w (logWarn w).
Proof. repeat split. Qed.

Lemma same_logError w : same w (logError w).
Proof. repeat split. Qed.

Lemma same_advance rest w : same w (advance rest w).
Proof. repeat split. Qed.

Lemma same_ooSeq cmd w : same w (ooSeq cmd w).
Proof. unfold ooSeq. eapply same_trans; [apply same_send|apply same_logWarn]. Qed.

Lemma same_warn_send msg w : same w (logWarn (send msg w)).
Proof. eapply same_trans; [apply same_send|apply same_logWarn]. Qed.

Lemma Inv_same w w' : same w w' -> Inv w -> Inv w'.
Proof. unfold same, Inv. intros (-> & -> & ->). auto. Qed.

Lemma Inv_idle (w : W) : state (ss w) <> MAIL -> state (ss w) <> DATA -> Inv w.
Proof. unfold Inv. intros H1 H2. split; intros H; contradiction. Qed.

Lemma Inv_state_in w : state (ss w) = GREET \/ state (ss w) = READY \/ state (ss w) = QUIT -> Inv w.
Proof. intros H. apply Inv_idle; intros E; rewrite E in H; destruct H as [H|[H|H]]; discriminate. Qed.

Lemma mailDataComplete_state msgBuf w : state (ss (mailDataComplete msgBuf w)) = READY.
Proof.
  unfold mailDataComplete.
  destruct (deliverLoop _ _ _ _) as [w1 completed] eqn:E.
  apply deliverLoop_spec in E as (calls & _ & _ & _ & Hrest).
  destruct completed; [reflexivity|].
  destruct Hrest as (pre & r & post & e & _ & _ & _ & _ & _ & Hst & _). exact Hst.
Qed.

Lemma dataLoop_state : forall lines msgBuf w,
  state (ss (dataLoop lines msgBuf w)) = READY
  \/ state (ss (dataLoop lines msgBuf w)) = QUIT.
Proof.
  induction lines as [|l lines IH]; intros msgBuf w.
  - right. reflexivity.
  - rewrite dataLoop_line.
    destruct (isTerminator l); [left; apply mailDataComplete_state|].
    destruct (_ >? _); [left; reflexivity|apply IH].
Qed.

Lemma parseCmd_ss line w : ss (snd (parseCmd line w)) = ss w.
Proof.
  unfold parseCmd. cbv zeta.
  repeat match goal with
         | |- context [if ?b then _ else _] => destruct b; try reflexivity
         | |- context [match ?o with Some _ => _ | None => _ end] =>
             destruct o; try reflexivity
         end.
Qed.

Lemma greetHandler_state cmd arg w :
  state (ss w) = GREET ->
  state (ss (greetHandler cmd arg w)) = GREET
  \/ state (ss (greetHandler cmd arg w)) = READY.
Proof.
  intros Hst. unfold greetHandler.
  destruct (String.eqb cmd "HELO").
  - destruct (parseHelloArgument arg); [right; reflexivity|].
    left. rewrite send_state. exact Hst.
  - destruct (String.eqb cmd "EHLO").
    + destruct (parseHelloArgument arg); [right; reflexivity|].
      left. rewrite send_state. exact Hst.
    + left. destruct (same_ooSeq cmd w) as (-> & _). exact Hst.
Qed.

Lemma Inv_accept addr w :
  addr <> "" ->
  Inv (enterState MAIL
         (send ("250 Roger, accepting mail from <" +:+ addr +:+ ">")
               (onSession (setFrom addr) w))).
Proof.
  intros Hne. unfold Inv.
  cbn [enterState onSession ss setState state from recipients].
  autorewrite with session. cbn.
  split; [auto|discriminate].
Qed.

Lemma readyHandler_Inv cmd arg w : Inv w -> Inv (readyHandler cmd arg w).
Proof.
  intros HI. unfold readyHandler.
  destruct (String.eqb cmd "MAIL"); [|exact (Inv_same _ _ (same_ooSeq cmd w) HI)].
  destruct (FindStringSubmatch mailFromRe arg) as [m|] eqn:Hm;
    [|exact (Inv_same _ _ (same_warn_send _ w) HI)].
  apply mailFrom_address_nonempty in Hm.
  destruct (ParseEmailAddress (m 1%nat));
    [|exact (Inv_same _ _ (same_warn_send _ w) HI)].
  cbv zeta.
  destruct (negb (String.eqb (m 2%nat) "")); [|apply Inv_accept; assumption].
  unfold parseArgs.
  destruct (FindAllStringSubmatch esmtpArgRe (m 2%nat)) as [|c pm];
    cbn [negb].
  - exact (Inv_same _ _ (same_trans _ _ _ (same_logWarn w) (same_warn_send _ _)) HI).
  - destruct (negb (String.eqb (default "" (_ !! "SIZE")) "")); [|apply Inv_accept; assumption].
    destruct (ParseInt32 _) as [v|];
      [|exact (Inv_same _ _ (same_warn_send _ w) HI)].
    destruct (v >? maxMessageBytes server);
      [exact (Inv_same _ _ (same_warn_send _ w) HI)|apply Inv_accept; assumption].
Qed.

Lemma mailHandler_Inv cmd arg w :
  state (ss w) = MAIL -> Inv w -> Inv (mailHandler cmd arg w).
Proof.
  intros Hst HI. unfold mailHandler.
  destruct (String.eqb cmd "RCPT").
  - destruct (_ || _); [exact (Inv_same _ _ (same_warn_send _ w) HI)|].
    destruct (NewRecipient _) as [recip|];
      [|exact (Inv_same _ _ (same_warn_send _ w) HI)].
    destruct (_ >=? _).
    + exact (Inv_same _ _ (same_trans _ _ _ (same_logWarn w) (same_send _ _)) HI).
    + destruct HI as [HM _]. specialize (HM Hst).
      unfold Inv. autorewrite with session. cbn. rewrite Hst.
      split; [auto|discriminate].
  - destruct (String.eqb cmd "DATA"); [|exact (Inv_same _ _ (same_ooSeq cmd w) HI)].
    destruct (negb (String.eqb arg "")); [exact (Inv_same _ _ (same_warn_send _ w) HI)|].
    destruct (0 <? Z.of_nat (length (recipients (ss w)))) eqn:E;
      [|exact (Inv_same _ _ (same_ooSeq cmd w) HI)].
    destruct HI as [HM _]. specialize (HM Hst).
    unfold Inv. cbn. split; [discriminate|]. intros _. split; [|assumption].
    destruct (recipients (ss w)); [discriminate|discriminate].
Qed.

(** one pass of the loop keeps the invariant *)
Lemma loopBody_Inv w w' continue :
  Inv w -> loopBody w = (w', continue) -> Inv w'.
Proof.
  intros HI H. unfold loopBody in H.
  destruct (State_eqb (state (ss w)) DATA).
  { injection H as <- <-. apply Inv_state_in. unfold dataHandler. cbv zeta.
    destruct (dataLoop_state
                (pending (reader (ss (send "354 Start mail input; end with <CRLF>.<CRLF>" w))))
                "" (send "354 Start mail input; end with <CRLF>.<CRLF>" w)); auto. }
  unfold readLine in H.
  destruct (pending (reader (ss w))) as [|line rest].
  { destruct (failure (reader (ss w))).
    - destruct (state (ss w)); injection H as <- <-;
        solve [assumption | exact (Inv_same _ _ (same_logWarn w) HI)].
    - injection H as <- <-.
      exact (Inv_same _ _ (same_trans _ _ _ (same_logWarn w) (same_send _ _)) HI).
    - injection H as <- <-.
      exact (Inv_same _ _ (same_trans _ _ _ (same_logWarn w) (same_send _ _)) HI). }
  pose proof (parseCmd_ss line (advance rest w)) as Hss.
  destruct (parseCmd line (advance rest w)) as [[[cmd arg] ok] w1].
  cbn [snd] in Hss.
  assert (HI1 : Inv w1).
  { apply (Inv_same (advance rest w)); [|exact (Inv_same _ _ (same_advance rest w) HI)].
    unfold same. rewrite Hss. auto. }
  clear HI Hss.
  destruct ok; [|injection H as <- <-; exact (Inv_same _ _ (same_send _ w1) HI1)].
  destruct (String.eqb cmd ""); [injection H as <- <-; exact (Inv_same _ _ (same_send _ w1) HI1)|].
  destruct (negb _); [injection H as <- <-; exact (Inv_same _ _ (same_warn_send _ w1) HI1)|].
  destruct (isOneOf _ _); [injection H as <- <-; exact (Inv_same _ _ (same_warn_send _ w1) HI1)|].
  destruct (String.eqb cmd "VRFY"); [injection H as <- <-; exact (Inv_same _ _ (same_send _ w1) HI1)|].
  destruct (String.eqb cmd "NOOP"); [injection H as <- <-; exact (Inv_same _ _ (same_send _ w1) HI1)|].
  destruct (String.eqb cmd "RSET").
  { injection H as <- <-. apply Inv_state_in. rewrite send_state. auto. }
  destruct (String.eqb cmd "QUIT").
  { injection H as <- <-. apply Inv_state_in. auto. }
  destruct (state (ss w1)) eqn:Hst; injection H as <- <-.
  - apply Inv_state_in. destruct (greetHandler_state cmd arg w1 Hst); auto.
  - apply readyHandler_Inv. assumption.
  - apply mailHandler_Inv; assumption.
  - exact (Inv_same _ _ (same_logError w1) HI1).
  - exact (Inv_same _ _ (same_logError w1) HI1).
Qed.

Lemma Reachable_Inv w continue : Reachable w continue -> Inv w.
Proof.
  induction 1 as [sid host rd w0|w w' continue _ IH _ Hbody].
  - apply Inv_state_in. left. unfold sessionStart, greet. cbv zeta.
    rewrite send_state. reflexivity.
  - eapply loopBody_Inv; eassumption.
Qed.

(** C1. In every state a session reaches from its start in GREET, by any
    input, being in the DATA state implies that the recipients list is not
    empty and that the envelope sender [from] is not the empty string; this
    covers the state in which the data phase is entered. *)
Theorem DATA_has_sender_and_recipients (w : W) (continue : bool) :
  Reachable w continue ->
  state (ss w) = DATA ->
  (1 <= length (recipients (ss w)))%nat /\ from (ss w) <> "".
Proof.
  intros Hr Hst. apply Reachable_Inv in Hr as [_ HD].
  destruct (HD Hst) as [Hrec Hfrom]. split; [|assumption].
  destruct (recipients (ss w)); [contradiction|cbn; lia].
Qed.

(** ** Lines and bytes *)

Lemma splitLines_cons c rest :
  splitLines (String c rest)
  = let '(lines, tail) := splitLines rest in
    if Ascii.eqb c LF then (String c EmptyString :: lines, tail)
    else match lines with
         | [] => ([], String c tail)
         | l :: lines' => (String c l :: lines', tail)
         end.
Proof. reflexivity. Qed.

Lemma splitLines_line : forall l x,
  isLine l = true ->
  splitLines (l +:+ x) = (l :: fst (splitLines x), snd (splitLines x)).
Proof.
  induction l as [|c l IH]; intros x Hl; [discriminate|].
  rewrite append_cons, splitLines_cons.
  destruct l as [|d l].
  - cbn in Hl. rewrite append_nil_l, Hl. destruct (splitLines x). reflexivity.
  - cbn [isLine] in Hl. apply andb_prop in Hl as [Hc Hl].
    rewrite (IH x Hl). apply negb_true_iff in Hc. rewrite Hc. reflexivity.
Qed.

Lemma splitLines_joinLines : forall lines x,
  Forall (fun l => isLine l = true) lines ->
  splitLines (joinLines lines +:+ x)
  = (lines ++ fst (splitLines x), snd (splitLines x)).
Proof.
  induction lines as [|l lines IH]; intros x Hall.
  - change (joinLines []) with EmptyString. rewrite append_nil_l.
    destruct (splitLines x). reflexivity.
  - inversion Hall as [|? ? Hl Hrest]; subst.
    change (joinLines (l :: lines)) with (l +:+ joinLines lines).
    rewrite append_assoc, (splitLines_line l _ Hl), (IH x Hrest). reflexivity.
Qed.

(** what [splitLines] returns are lines, and nothing is lost *)
Lemma splitLines_spec : forall raw,
  Forall (fun l => isLine l = true) (fst (splitLines raw))
  /\ joinLines (fst (splitLines raw)) +:+ snd (splitLines raw) = raw.
Proof.
  induction raw as [|c raw [IHl IHj]]; [split; [constructor|reflexivity]|].
  rewrite splitLines_cons. destruct (splitLines raw) as [lines tail].
  cbn [fst snd] in *. destruct (Ascii.eqb c LF) eqn:Hc; cbn [fst snd].
  - split; [constructor; [cbn; assumption|assumption]|].
    change (joinLines (String c "" :: lines)) with (String c "" +:+ joinLines lines).
    rewrite append_assoc, IHj. reflexivity.
  - destruct lines as [|l lines]; cbn [fst snd].
    + split; [constructor|]. cbn in IHj. rewrite <- IHj. reflexivity.
    + apply Forall_cons in IHl as [Hl Hrest]. split.
      * constructor; [|assumption].
        destruct l as [|d l]; [discriminate Hl|].
        change (negb (Ascii.eqb c LF) && isLine (String d l) = true).
        rewrite Hc, Hl. reflexivity.
      * change (joinLines (String c l :: lines)) with (String c (l +:+ joinLines lines)).
        rewrite append_cons, <- IHj. reflexivity.
Qed.

Lemma isLine_stuffLine l : isLine l = true -> isLine (stuffLine l) = true.
Proof.
  destruct l as [|c l]; [discriminate|]. intros Hl.
  destruct c as [[] [] [] [] [] [] [] []]; exact Hl.
Qed.

(** the claim C4 on the bytes of the connection: when the client sends the
    lines of a body dot-stuffed, then the terminator, the buffer handed to
    delivery holds the bytes of the body *)
Lemma dot_unstuffing_on_bytes body more err w :
  Forall (fun l => isLine l = true) body ->
  reader (ss w)
  = readerOf (joinLines (dotStuff body) +:+ String "." CRLF +:+ more) err ->
  len (joinLines body) <= maxMessageBytes server ->
  dataHandler w
  = mailDataComplete (joinLines body)
      (advance (fst (splitLines more))
               (send "354 Start mail input; end with <CRLF>.<CRLF>" w)).
Proof.
  intros Hbody Hreader Hsize.
  rewrite <- (unstuff_dotStuff body) at 1.
  apply dataHandler_complete with (term := String "." CRLF).
  - rewrite Hreader. unfold readerOf. cbn [pending].
    rewrite splitLines_joinLines.
    + cbn [fst]. rewrite (splitLines_line (String "." CRLF) more eq_refl). reflexivity.
    + unfold dotStuff. apply Forall_map.
      eapply Forall_impl; [exact Hbody|]. intros l. apply isLine_stuffLine.
  - apply dotStuff_not_terminator.
  - reflexivity.
  - rewrite unstuff_dotStuff. assumption.
Qed.

(** ** The fuel of the command loop *)

Lemma send_pending msg w : pending (reader (ss (send msg w))) = pending (reader (ss w)).
Proof. rewrite send_reader. reflexivity. Qed.

Ltac reader_cases :=
  repeat first
    [ rewrite send_reader
    | progress cbn [logWarn logError enterState reset onSession ss reader
                    setState setFrom setRecipients setRemoteDomain ooSeq snd fst]
    | match goal with
      | |- context [if ?b then _ else _] => destruct b
      | |- context [match ?x with Some _ => _ | None => _ end] => destruct x
      | |- context [match ?x with [] => _ | _ :: _ => _ end] => destruct x
      end ];
  try reflexivity.

Lemma greetHandler_reader cmd arg w : reader (ss (greetHandler cmd arg w)) = reader (ss w).
Proof. unfold greetHandler. reader_cases. Qed.

Lemma readyHandler_reader cmd arg w : reader (ss (readyHandler cmd arg w)) = reader (ss w).
Proof. unfold readyHandler, parseArgs. cbv zeta. reader_cases. Qed.

Lemma mailHandler_reader cmd arg w : reader (ss (mailHandler cmd arg w)) = reader (ss w).
Proof. unfold mailHandler. reader_cases. Qed.

Lemma deliverLoop_reader tstamp body : forall rest w,
  reader (ss (fst (deliverLoop tstamp body rest w))) = reader (ss w).
Proof.
  induction rest as [|r rest IH]; intros w; cbn [deliverLoop]; [reflexivity|].
  destruct (ShouldStore r); [|rewrite IH; reflexivity].
  unfold callDeliver. destruct (Deliver _ _ _ _ _ _) as [m1 [e|]].
  - cbn [fst]. reader_cases.
  - rewrite IH. reflexivity.
Qed.

Lemma mailDataComplete_reader msgBuf w :
  reader (ss (mailDataComplete msgBuf w)) = reader (ss w).
Proof.
  unfold mailDataComplete.
  pose proof (deliverLoop_reader (timeNow w) msgBuf (recipients (ss w)) w) as H.
  destruct (deliverLoop _ _ _ _) as [w1 completed]. cbn [fst] in H.
  destruct completed; [|exact H]. reader_cases. exact H.
Qed.

(** the read loop ends in QUIT, or has taken at least one line *)
Lemma dataLoop_progress : forall lines msgBuf w,
  state (ss (dataLoop lines msgBuf w)) = QUIT
  \/ (length (pending (reader (ss (dataLoop lines msgBuf w)))) < length lines)%nat.
Proof.
  induction lines as [|l lines IH]; intros msgBuf w; [left; reflexivity|].
  rewrite dataLoop_line. destruct (isTerminator l).
  - right. rewrite mailDataComplete_reader. cbn. lia.
  - destruct (_ >? _).
    + right. reader_cases. cbn. lia.
    + destruct (IH (msgBuf +:+ unstuff l) (advance lines w)) as [H|H]; [left; exact H|].
      right. cbn [length]. lia.
Qed.

(** a pass that stays in the loop has consumed input, or has made the loop
    condition false *)
Lemma loopBody_progress w w' :
  loopBody w = (w', true) ->
  (length (pending (reader (ss w'))) < length (pending (reader (ss w))))%nat
  \/ loopCond w' = false.
Proof.
  unfold loopBody. destruct (State_eqb (state (ss w)) DATA).
  { intros H. injection H as <-. unfold dataHandler. cbv zeta.
    destruct (dataLoop_progress
                (pending (reader (ss (send "354 Start mail input; end with <CRLF>.<CRLF>" w))))
                "" (send "354 Start mail input; end with <CRLF>.<CRLF>" w)) as [H|H].
    - right. unfold loopCond. rewrite H. reflexivity.
    - left. rewrite send_pending in *. exact H. }
  unfold readLine. destruct (pending (reader (ss w))) as [|line rest] eqn:Hp.
  { destruct (failure (reader (ss w))); [destruct (state (ss w))| |]; discriminate. }
  pose proof (parseCmd_ss line (advance rest w)) as Hss.
  destruct (parseCmd line (advance rest w)) as [[[cmd arg] ok] w1].
  cbn [snd] in Hss.
  assert (Hr : reader (ss w1) = mkReader rest (failure (reader (ss w))))
    by (rewrite Hss; reflexivity).
  intros H. left.
  assert (Hw' : reader (ss w') = reader (ss w1)).
  { revert H.
    repeat match goal with
           | |- context [if ?b then _ else _] => destruct b
           end;
      try (intros H; injection H as <-; reader_cases; fail).
    destruct (state (ss w1)); intros H; injection H as <-;
      auto using greetHandler_reader, readyHandler_reader, mailHandler_reader. }
  rewrite Hw', Hr. cbn. lia.
Qed.

Lemma sessionLoop_stops fuel w : loopCond w = false -> sessionLoop fuel w = w.
Proof. intros H. destruct fuel; [reflexivity|]. cbn [sessionLoop]. rewrite H. reflexivity. Qed.

Lemma sessionLoop_step : forall fuel w,
  (length (pending (reader (ss w))) + 1 <= fuel)%nat ->
  sessionLoop (S fuel) w = sessionLoop fuel w.
Proof.
  induction fuel as [|fuel IH]; intros w Hfuel; [lia|].
  cbn [sessionLoop]. destruct (loopCond w); [|reflexivity].
  destruct (loopBody w) as [w' continue] eqn:Hb.
  destruct continue; [|reflexivity].
  destruct (loopBody_progress w w' Hb) as [Hlt|Hstop].
  - apply IH. lia.
  - rewrite (sessionLoop_stops fuel w' Hstop).
    apply (sessionLoop_stops (S fuel) w' Hstop).
Qed.

(** the loop of [startSession] has run to its end: more fuel changes
    nothing *)
Lemma sessionLoop_fuel w extra :
  sessionLoop (S (length (pending (reader (ss w)))) + extra) w
  = sessionLoop (S (length (pending (reader (ss w))))) w.
Proof.
  induction extra as [|extra IH].
  - rewrite Nat.add_0_r. reflexivity.
  - rewrite Nat.add_succ_r, sessionLoop_step; [exact IH|lia].
Qed.

(** the fuelled loop only passes through reachable states *)
Lemma sessionLoop_Reachable fuel : forall w,
  Reachable w true -> exists continue, Reachable (sessionLoop fuel w) continue.
Proof.
  induction fuel as [|fuel IH]; intros w Hr; cbn [sessionLoop].
  - exists true. assumption.
  - destruct (loopCond w) eqn:Hc; [|exists true; assumption].
    destruct (loopBody w) as [w' continue] eqn:Hb.
    pose proof (reach_pass w w' continue Hr Hc Hb) as Hr'.
    destruct continue; [apply IH; assumption|exists false; assumption].
Qed.

(** ** The state machine *)

Lemma unchanged_refl w : unchanged w w.
Proof. repeat split. Qed.

Lemma unchanged_trans w1 w2 w3 : unchanged w1 w2 -> unchanged w2 w3 -> unchanged w1 w3.
Proof.
  unfold unchanged. intros [H12 R12] [H23 R23].
  split; [eapply same_trans; eassumption|congruence].
Qed.

Lemma unchanged_send msg w : unchanged w (send msg w).
Proof. split; [apply same_send|apply send_remoteDomain]. Qed.

Lemma unchanged_logWarn w : unchanged w (logWarn w).
Proof. repeat split. Qed.

Lemma unchanged_logError w : unchanged w (logError w).
Proof. repeat split. Qed.

Lemma unchanged_advance rest w : unchanged w (advance rest w).
Proof. repeat split. Qed.

Lemma unchanged_warn_send msg w : unchanged w (logWarn (send msg w)).
Proof. eapply unchanged_trans; [apply unchanged_send|apply unchanged_logWarn]. Qed.

Lemma unchanged_ooSeq cmd w : unchanged w (ooSeq cmd w).
Proof. unfold ooSeq. apply unchanged_warn_send. Qed.

Lemma unchanged_ss w w' : ss w' = ss w -> unchanged w w'.
Proof. intros H. unfold unchanged, same. rewrite H. auto. Qed.

(** a transition from a world that agrees with [w] is a transition from [w] *)
Lemma Transition_from c w w1 w' :
  unchanged w w1 -> Transition c w1 w' -> Transition c w w'.
Proof.
  intros ((Hst & Hfrom & Hrec) & Hrd) T.
  destruct T as [((Hst' & Hfrom' & Hrec') & Hrd')
                |Hwhy|Hwhy|cmd arg domain|arg m|arg recip|].
  - apply t_stay. repeat split; congruence.
  - apply t_reset;
      [destruct Hwhy as [Hwhy|Hwhy]; [left; congruence|right; exact Hwhy]
      |congruence..].
  - apply t_quit;
      [destruct Hwhy as [Hwhy|Hwhy]; [left; congruence|right; exact Hwhy]
      |congruence..].
  - apply (t_hello _ _ _ cmd arg domain); congruence.
  - apply (t_mail _ _ _ arg m); congruence.
  - apply (t_rcpt _ _ _ arg recip); congruence.
  - apply t_data; congruence.
Qed.

Lemma deliverLoop_remoteDomain tstamp body : forall rest w,
  remoteDomain (ss (fst (deliverLoop tstamp body rest w))) = remoteDomain (ss w).
Proof.
  induction rest as [|r rest IH]; intros w; cbn [deliverLoop]; [reflexivity|].
  destruct (ShouldStore r); [|rewrite IH; reflexivity].
  unfold callDeliver. destruct (Deliver _ _ _ _ _ _) as [m1 [e|]].
  - cbn [fst reset enterState onSession ss setState setFrom setRecipients remoteDomain].
    rewrite send_remoteDomain. reflexivity.
  - rewrite IH. reflexivity.
Qed.

(** the terminator branch always ends in a reset session *)
Lemma mailDataComplete_reset msgBuf w :
  state (ss (mailDataComplete msgBuf w)) = READY
  /\ from (ss (mailDataComplete msgBuf w)) = ""
  /\ recipients (ss (mailDataComplete msgBuf w)) = []
  /\ remoteDomain (ss (mailDataComplete msgBuf w)) = remoteDomain (ss w).
Proof.
  unfold mailDataComplete.
  pose proof (deliverLoop_remoteDomain (timeNow w) msgBuf (recipients (ss w)) w) as Hrd.
  destruct (deliverLoop _ _ _ _) as [w1 completed] eqn:E. cbn [fst] in Hrd.
  apply deliverLoop_spec in E as (calls & _ & _ & _ & Hrest).
  destruct completed.
  - cbn [reset enterState onSession ss setState setFrom setRecipients
         state from recipients remoteDomain].
    rewrite send_remoteDomain. auto.
  - destruct Hrest as (pre & r & post & e & _ & _ & _ & _ & _ & Hst & Hfrom & Hrec & _).
    auto.
Qed.

(** the data phase ends in a reset session or in QUIT *)
Lemma dataLoop_Transition c : forall lines msgBuf w,
  state (ss w) = DATA ->
  Transition c w (dataLoop lines msgBuf w).
Proof.
  induction lines as [|l lines IH]; intros msgBuf w Hdata.
  - cbn [dataLoop]. apply t_quit; [left; exact Hdata|..];
      cbn [enterState onSession ss setState state from recipients remoteDomain logWarn];
      destruct (failure (reader (ss w))); autorewrite with session; reflexivity.
  - rewrite dataLoop_line. destruct (isTerminator l).
    + destruct (mailDataComplete_reset msgBuf (advance lines w)) as (H1 & H2 & H3 & H4).
      apply t_reset; [left; exact Hdata|assumption..].
    + destruct (_ >? _).
      * apply t_reset; [left; exact Hdata|..];
          cbn [reset enterState onSession ss setState setFrom setRecipients
               state from recipients remoteDomain logWarn];
          autorewrite with session; reflexivity.
      * apply (Transition_from c w (advance lines w));
          [apply unchanged_advance|apply IH; exact Hdata].
Qed.

Lemma greetHandler_Transition cmd arg w :
  state (ss w) = GREET -> Transition (Some (cmd, arg)) w (greetHandler cmd arg w).
Proof.
  intros Hst. unfold greetHandler.
  destruct (String.eqb cmd "HELO") eqn:Ehelo.
  - apply String.eqb_eq in Ehelo.
    destruct (parseHelloArgument arg) as [domain|] eqn:E;
      [|apply t_stay, unchanged_send].
    apply (t_hello _ _ _ cmd arg domain); try assumption; auto;
      cbn; autorewrite with session; reflexivity.
  - destruct (String.eqb cmd "EHLO") eqn:Eehlo; [|apply t_stay, unchanged_ooSeq].
    apply String.eqb_eq in Eehlo.
    destruct (parseHelloArgument arg) as [domain|] eqn:E;
      [|apply t_stay, unchanged_send].
    apply (t_hello _ _ _ cmd arg domain); try assumption; auto;
      cbn; autorewrite with session; reflexivity.
Qed.

Lemma readyHandler_accept_Transition arg m w :
  state (ss w) = READY ->
  FindStringSubmatch mailFromRe arg = Some m ->
  ParseEmailAddress (m 1%nat) <> None ->
  Transition (Some ("MAIL", arg)) w
    (enterState MAIL
       (send ("250 Roger, accepting mail from <" +:+ m 1%nat +:+ ">")
             (onSession (setFrom (m 1%nat)) w))).
Proof.
  intros Hst Hm Hp.
  apply (t_mail _ _ _ arg m); try assumption; try reflexivity;
    cbn; autorewrite with session; reflexivity.
Qed.

Lemma readyHandler_Transition cmd arg w :
  state (ss w) = READY -> Transition (Some (cmd, arg)) w (readyHandler cmd arg w).
Proof.
  intros Hst. unfold readyHandler.
  destruct (String.eqb cmd "MAIL") eqn:Ecmd; [|apply t_stay, unchanged_ooSeq].
  apply String.eqb_eq in Ecmd. subst cmd.
  destruct (FindStringSubmatch mailFromRe arg) as [m|] eqn:Hm;
    [|apply t_stay, unchanged_warn_send].
  destruct (ParseEmailAddress (m 1%nat)) eqn:Hp;
    [|apply t_stay, unchanged_warn_send].
  assert (Hp' : ParseEmailAddress (m 1%nat) <> None) by (rewrite Hp; discriminate).
  cbv zeta.
  destruct (negb (String.eqb (m 2%nat) ""));
    [|apply (readyHandler_accept_Transition arg); assumption].
  unfold parseArgs.
  destruct (FindAllStringSubmatch esmtpArgRe (m 2%nat)) as [|c pm]; cbn [negb].
  - apply t_stay.
    eapply unchanged_trans; [apply unchanged_logWarn|apply unchanged_warn_send].
  - destruct (negb (String.eqb (default "" (_ !! "SIZE")) ""));
      [|apply (readyHandler_accept_Transition arg); assumption].
    destruct (ParseInt32 _) as [v|]; [|apply t_stay, unchanged_warn_send].
    destruct (v >? maxMessageBytes server);
      [apply t_stay, unchanged_warn_send
      |apply (readyHandler_accept_Transition arg); assumption].
Qed.

Lemma mailHandler_Transition cmd arg w :
  state (ss w) = MAIL -> Transition (Some (cmd, arg)) w (mailHandler cmd arg w).
Proof.
  intros Hst. unfold mailHandler.
  destruct (String.eqb cmd "RCPT") eqn:Ercpt.
  - apply String.eqb_eq in Ercpt. subst cmd.
    destruct (len arg <? 4) eqn:Hlen; cbn [orb]; [apply t_stay, unchanged_warn_send|].
    destruct (String.eqb (ToUpper (sliceTo 3 arg)) "TO:") eqn:Hto; cbn [negb];
      [|apply t_stay, unchanged_warn_send].
    apply Z.ltb_ge in Hlen. apply String.eqb_eq in Hto.
    destruct (NewRecipient _) as [recip|] eqn:Hnew; [|apply t_stay, unchanged_warn_send].
    destruct (_ >=? _) eqn:E.
    + apply t_stay. eapply unchanged_trans; [apply unchanged_logWarn|apply unchanged_send].
    + rewrite Z.geb_leb in E. apply Z.leb_gt in E.
      apply (t_rcpt _ _ _ arg recip); try assumption;
        autorewrite with session; cbn; try reflexivity. assumption.
  - destruct (String.eqb cmd "DATA") eqn:Edata; [|apply t_stay, unchanged_ooSeq].
    apply String.eqb_eq in Edata. subst cmd.
    destruct (String.eqb arg "") eqn:Earg; cbn [negb];
      [|apply t_stay, unchanged_warn_send].
    apply String.eqb_eq in Earg. subst arg.
    destruct (0 <? Z.of_nat (length (recipients (ss w)))) eqn:E;
      [|apply t_stay, unchanged_ooSeq].
    apply t_data; try assumption; try reflexivity.
    destruct (recipients (ss w)); [discriminate|discriminate].
Qed.

Lemma State_eqb_eq a b : State_eqb a b = true <-> a = b.
Proof. destruct a, b; cbn; split; intros H; try reflexivity; discriminate. Qed.

Lemma State_eqb_neq a b : a <> b -> State_eqb a b = false.
Proof.
  intros H. destruct (State_eqb a b) eqn:E; [|reflexivity].
  apply State_eqb_eq in E. contradiction.
Qed.

(** every pass of the command loop is a transition of the state machine,
    for the command the pass reads *)
Lemma loopBody_Transition w w' continue :
  loopBody w = (w', continue) -> Transition (commandRead w) w w'.
Proof.
  intros H. unfold loopBody in H. unfold commandRead.
  destruct (State_eqb (state (ss w)) DATA) eqn:Hdata.
  { apply State_eqb_eq in Hdata.
    injection H as <- <-. unfold dataHandler. cbv zeta.
    eapply Transition_from; [apply unchanged_send|].
    apply dataLoop_Transition. rewrite send_state. exact Hdata. }
  unfold readLine in *.
  destruct (pending (reader (ss w))) as [|line rest].
  { destruct (failure (reader (ss w))).
    - destruct (state (ss w)); injection H as <- <-; apply t_stay;
        solve [apply unchanged_refl | apply unchanged_logWarn].
    - injection H as <- <-. apply t_stay.
      eapply unchanged_trans; [apply unchanged_logWarn|apply unchanged_send].
    - injection H as <- <-. apply t_stay.
      eapply unchanged_trans; [apply unchanged_logWarn|apply unchanged_send]. }
  pose proof (parseCmd_ss line (advance rest w)) as Hss.
  destruct (parseCmd line (advance rest w)) as [[[cmd arg] ok] w1].
  cbn [snd] in Hss.
  assert (Hw1 : unchanged w w1).
  { eapply unchanged_trans; [apply (unchanged_advance rest)|apply unchanged_ss, Hss]. }
  apply (Transition_from _ w w1 w' Hw1). clear Hss Hw1.
  destruct ok; [|injection H as <- <-; apply t_stay, unchanged_send].
  destruct (String.eqb cmd ""); [injection H as <- <-; apply t_stay, unchanged_send|].
  destruct (negb _); [injection H as <- <-; apply t_stay, unchanged_warn_send|].
  destruct (isOneOf _ _); [injection H as <- <-; apply t_stay, unchanged_warn_send|].
  destruct (String.eqb cmd "VRFY"); [injection H as <- <-; apply t_stay, unchanged_send|].
  destruct (String.eqb cmd "NOOP"); [injection H as <- <-; apply t_stay, unchanged_send|].
  destruct (String.eqb cmd "RSET") eqn:Erset.
  { apply String.eqb_eq in Erset. subst cmd. injection H as <- <-.
    apply t_reset; [right; exists arg; reflexivity|..];
      autorewrite with session; reflexivity. }
  destruct (String.eqb cmd "QUIT") eqn:Equit.
  { apply String.eqb_eq in Equit. subst cmd. injection H as <- <-.
    apply t_quit; [right; exists arg; reflexivity|..];
      cbn; autorewrite with session; reflexivity. }
  destruct (state (ss w1)) eqn:Hst; injection H as <- <-.
  - apply greetHandler_Transition. assumption.
  - apply readyHandler_Transition. assumption.
  - apply mailHandler_Transition. assumption.
  - apply t_stay, unchanged_logError.
  - apply t_stay, unchanged_logError.
Qed.

Lemma parseHelloArgument_nonempty arg domain :
  parseHelloArgument arg = Some domain -> domain <> "".
Proof.
  unfold parseHelloArgument.
  destruct (String.eqb _ "") eqn:E; [discriminate|].
  intros H. injection H as <-. apply String.eqb_neq. exact E.
Qed.

Ltac sound_cases :=
  split; [|split; [|split; [|split; [|split]]]];
  try (intros [E|E]; discriminate); try (intros E; discriminate);
  try solve [auto].

Lemma Transition_Sound c w w' : Sound w -> Transition c w w' -> Sound w'.
Proof.
  intros (Hidle & Hbusy & Hdata & Hbound & Hpol & Hgreet) T.
  destruct T as [((Hst & Hfrom & Hrec) & Hrd)
                |_ Hst Hfrom Hrec Hrd
                |_ Hst Hfrom Hrec Hrd
                |cmd arg domain _ _ Hst Hst' Harg Hrd Hfrom Hrec
                |arg m _ Hst Hst' Hm Hp Hfrom Hrec Hrd
                |arg recip _ Hst Hst' _ _ Hnew Hlt Hrec Hfrom Hrd
                |_ Hst Hst' Hne Hfrom Hrec Hrd];
    unfold Sound.
  - rewrite Hst, Hfrom, Hrec, Hrd. auto 10.
  - rewrite Hst, Hfrom, Hrec. sound_cases.
    change (0 <= Z.max 0 (maxRecips server)). lia.
  - rewrite Hst, Hfrom, Hrec. sound_cases.
  - rewrite Hst', Hfrom, Hrec. destruct (Hidle (or_introl Hst)) as [Hf Hr]. sound_cases.
  - rewrite Hst', Hfrom, Hrec. destruct (Hidle (or_intror Hst)) as [Hf Hr]. sound_cases.
    intros _. split; [|assumption].
    eapply mailFrom_address_nonempty. eassumption.
  - rewrite Hst', Hfrom, Hrec. destruct (Hbusy (or_introl Hst)) as [Hf Hp]. sound_cases.
    + rewrite length_app. cbn [length]. lia.
    + apply Forall_app. split; [assumption|]. constructor; [eauto|constructor].
  - rewrite Hst', Hfrom, Hrec. destruct (Hbusy (or_introl Hst)) as [Hf Hp]. sound_cases.
Qed.

Lemma Reachable_Sound w continue : Reachable w continue -> Sound w.
Proof.
  induction 1 as [sid host rd w0|w w' continue _ IH _ Hbody].
  - unfold Sound, sessionStart, greet. cbv zeta. autorewrite with session.
    cbn [addConnects onSession ss NewSession state from recipients remoteDomain length].
    sound_cases. change (0 <= Z.max 0 (maxRecips server)). lia.
  - eapply Transition_Sound; [exact IH|]. eapply loopBody_Transition. eassumption.
Qed.

(** ** Replies *)

Ltac handler_cases :=
  repeat match goal with
         | |- context [if ?b then _ else _] => destruct b
         | |- context [match ?x with Some _ => _ | None => _ end] => destruct x
         | |- context [match ?x with [] => _ | _ :: _ => _ end] => destruct x
         end.

Ltac sent_simpl :=
  repeat first
    [ rewrite send_sent
    | progress cbn [logWarn logError enterState reset onSession ss conn sent
                    setState setFrom setRecipients setRemoteDomain ooSeq] ].

Ltac sess_simpl :=
  repeat first
    [ progress autorewrite with session
    | progress cbn [logWarn logError enterState reset advance onSession ss conn sent
                    state from recipients remoteDomain remoteHost reader id sendError
                    setState setFrom setRecipients setRemoteDomain setReader setConn
                    setSendError ooSeq delivered manager expReceivedTotal
                    expWarnsTotal expErrorsTotal expConnectsCurrent fst snd] ].

Ltac known_command :=
  match goal with
  | |- context [commands !! ?c] =>
      replace (commands !! c) with (Some true) by (vm_compute; reflexivity)
  end;
  cbn [default from_option Datatypes.id negb].

Ltac one_reply :=
  sent_simpl; eexists; split;
  [rewrite <- ?app_assoc; reflexivity|cbn; discriminate].

Lemma greetHandler_replies cmd arg w :
  exists new,
    sent (conn (ss (greetHandler cmd arg w))) = sent (conn (ss w)) ++ new /\ new <> [].
Proof. unfold greetHandler. handler_cases; one_reply. Qed.

Lemma readyHandler_replies cmd arg w :
  exists new,
    sent (conn (ss (readyHandler cmd arg w))) = sent (conn (ss w)) ++ new /\ new <> [].
Proof. unfold readyHandler, parseArgs. cbv zeta. handler_cases; one_reply. Qed.

Lemma mailHandler_replies cmd arg w :
  exists new,
    sent (conn (ss (mailHandler cmd arg w))) = sent (conn (ss w)) ++ new
    /\ (new <> [] \/ state (ss (mailHandler cmd arg w)) = DATA).
Proof.
  unfold mailHandler.
  destruct (String.eqb cmd "RCPT").
  - handler_cases; sent_simpl; eexists; (split; [reflexivity|left; discriminate]).
  - destruct (String.eqb cmd "DATA");
      [|sent_simpl; eexists; (split; [reflexivity|left; discriminate])].
    destruct (negb (String.eqb arg ""));
      [sent_simpl; eexists; (split; [reflexivity|left; discriminate])|].
    destruct (0 <? _).
    + exists []. rewrite app_nil_r. split; [reflexivity|right; reflexivity].
    + sent_simpl. eexists. split; [reflexivity|left; discriminate].
Qed.

(** what the terminator branch sends: one reply, 250 or 451 *)
Lemma mailDataComplete_replies msgBuf w :
  exists reply,
    sent (conn (ss (mailDataComplete msgBuf w))) = sent (conn (ss w)) ++ [reply]
    /\ (reply = "250 Mail accepted for delivery"
        \/ exists r, In r (recipients (ss w)) /\ ShouldStore r = true
                     /\ reply = "451 Failed to store message for " +:+ LocalPart r).
Proof.
  unfold mailDataComplete.
  destruct (deliverLoop _ _ _ _) as [w1 completed] eqn:E.
  apply deliverLoop_spec in E as (calls & _ & _ & _ & Hrest).
  destruct completed.
  - destruct Hrest as (_ & _ & Hss & _).
    sent_simpl. rewrite Hss. eexists. split; [reflexivity|left; reflexivity].
  - destruct Hrest as (pre & r & post & e & Hrec & Hst & _ & _ & Hsent & _).
    eexists. split; [exact Hsent|right]. exists r. split; [|split; [assumption|reflexivity]].
    rewrite Hrec. apply in_or_app. right. left. reflexivity.
Qed.

Lemma dataLoop_replies : forall lines msgBuf w,
  exists tail,
    sent (conn (ss (dataLoop lines msgBuf w))) = sent (conn (ss w)) ++ tail
    /\ (length tail <= 1)%nat
    /\ (tail = [] -> state (ss (dataLoop lines msgBuf w)) = QUIT).
Proof.
  induction lines as [|l lines IH]; intros msgBuf w.
  - cbn [dataLoop]. destruct (failure (reader (ss w))); sent_simpl.
    + exists []. rewrite app_nil_r. repeat split. cbn. lia.
    + exists ["221 Idle timeout, bye bye"]. repeat split. cbn. lia.
    + exists []. rewrite app_nil_r. repeat split. cbn. lia.
  - rewrite dataLoop_line. destruct (isTerminator l).
    + destruct (mailDataComplete_replies msgBuf (advance lines w)) as (reply & Hs & _).
      exists [reply]. split; [exact Hs|]. split; [cbn; lia|discriminate].
    + destruct (_ >? _).
      * sent_simpl. eexists. split; [reflexivity|]. split; [cbn; lia|discriminate].
      * destruct (IH (msgBuf +:+ unstuff l) (advance lines w)) as (tail & Hs & Hlen & Hq).
        exists tail. auto.
Qed.

(** ** Delivery happens on the terminator line only *)

Lemma dataLoop_no_terminator : forall lines msgBuf w,
  Forall (fun l => isTerminator l = false) lines ->
  delivered (dataLoop lines msgBuf w) = delivered w
  /\ manager (dataLoop lines msgBuf w) = manager w
  /\ expReceivedTotal (dataLoop lines msgBuf w) = expReceivedTotal w.
Proof.
  induction lines as [|l lines IH]; intros msgBuf w Hall.
  - cbn [dataLoop]. destruct (failure (reader (ss w)));
      cbn [enterState onSession logWarn delivered manager expReceivedTotal];
      autorewrite with session; auto.
  - apply Forall_cons in Hall as [Hl Hall].
    rewrite dataLoop_line, Hl. destruct (_ >? _).
    + cbn [reset enterState onSession logWarn delivered manager expReceivedTotal].
      autorewrite with session. auto.
    + apply (IH (msgBuf +:+ unstuff l) (advance lines w) Hall).
Qed.

(** ** What the loop guarantees *)

(** X1. Every pass of the command loop is one of the seven transitions of
    the state machine, each tied to the command the pass reads from the
    next line of the reader: nothing changes; a reset to READY with the
    sender and the recipients cleared, on RSET or from the data phase; QUIT,
    on QUIT or from the data phase; GREET to READY on a HELO or EHLO, the
    remote domain being what [parseHelloArgument] returns for the argument
    of that command; READY to MAIL on a MAIL, the sender being group 1 of
    the match of its argument, accepted by the policy; one more recipient on
    a RCPT, the one [NewRecipient] returns for the trimmed rest of its
    argument, while the limit is not reached; MAIL to DATA on a DATA without
    argument when there is a recipient. *)
Theorem pass_is_a_transition (w : W) :
  Transition (commandRead w) w (fst (loopBody w)).
Proof.
  destruct (loopBody w) as [w' continue] eqn:E. cbn [fst].
  eapply loopBody_Transition. eassumption.
Qed.

(** X2. Whenever a session is in GREET or in READY, it has no sender and no
    recipient: every mail transaction starts from an empty envelope. *)
Theorem idle_session_is_clean (w : W) (continue : bool) :
  Reachable w continue ->
  state (ss w) = GREET \/ state (ss w) = READY ->
  from (ss w) = "" /\ recipients (ss w) = [].
Proof. intros Hr. apply Reachable_Sound in Hr as (H & _). exact H. Qed.

(** X3. A session never holds more recipients than [maxRecips] (none at all
    when [maxRecips] is zero or negative). *)
Theorem recipients_within_limit (w : W) (continue : bool) :
  Reachable w continue ->
  Z.of_nat (length (recipients (ss w))) <= Z.max 0 (maxRecips server).
Proof. intros Hr. apply Reachable_Sound in Hr as (_ & _ & _ & H & _). exact H. Qed.

(** X4. The envelope only holds what the policy let in: every recipient of
    the list was returned by [NewRecipient], and in the MAIL and DATA states
    the sender is an address [ParseEmailAddress] accepted. *)
Theorem envelope_passed_policy (w : W) (continue : bool) :
  Reachable w continue ->
  Forall (fun r => exists addr, NewRecipient addr = Some r) (recipients (ss w))
  /\ (state (ss w) = MAIL \/ state (ss w) = DATA ->
      ParseEmailAddress (from (ss w)) <> None).
Proof.
  intros Hr. apply Reachable_Sound in Hr as (_ & Hbusy & _ & _ & Hpol & _).
  split; [exact Hpol|]. intros Hst. apply Hbusy. exact Hst.
Qed.

(** X5. The remote domain is set once: it is empty as long as the session
    is in GREET, and a pass that starts in any other state leaves it as it
    is (HELO and EHLO are out of sequence after the greeting). *)
Theorem remoteDomain_set_once (w : W) (continue : bool) :
  Reachable w continue ->
  (state (ss w) = GREET -> remoteDomain (ss w) = "")
  /\ (state (ss w) <> GREET ->
      remoteDomain (ss (fst (loopBody w))) = remoteDomain (ss w)).
Proof.
  intros Hr. apply Reachable_Sound in Hr as (_ & _ & _ & _ & _ & Hg).
  split; [exact Hg|]. intros Hst.
  destruct (loopBody w) as [w' c] eqn:E. cbn [fst].
  apply loopBody_Transition in E.
  destruct E as [(_ & Hrd)| | |cmd arg domain _ _ Hst'| | |]; try assumption.
  contradiction.
Qed.

(** X6. Every command line read in GREET, READY or MAIL is answered in the
    same pass by at least one reply, except an accepted DATA, which only
    moves the session to the DATA state (its 354 opens the next pass). *)
Theorem command_gets_reply (w : W) :
  state (ss w) = GREET \/ state (ss w) = READY \/ state (ss w) = MAIL ->
  pending (reader (ss w)) <> [] ->
  exists new,
    sent (conn (ss (fst (loopBody w)))) = sent (conn (ss w)) ++ new
    /\ (new <> [] \/ (state (ss w) = MAIL /\ state (ss (fst (loopBody w))) = DATA)).
Proof.
  intros Hst Hpend. unfold loopBody.
  rewrite State_eqb_neq by (intros E; rewrite E in Hst; destruct Hst as [H|[H|H]]; discriminate).
  unfold readLine. destruct (pending (reader (ss w))) as [|line rest]; [contradiction|].
  pose proof (parseCmd_ss line (advance rest w)) as Hss.
  destruct (parseCmd line (advance rest w)) as [[[cmd arg] ok] w1].
  cbn [snd] in Hss.
  assert (Hsent : sent (conn (ss w1)) = sent (conn (ss w))) by (rewrite Hss; reflexivity).
  assert (Hstate : state (ss w1) = state (ss w)) by (rewrite Hss; reflexivity).
  rewrite <- Hsent. rewrite <- Hstate in Hst |- *. clear Hss Hsent Hstate.
  destruct ok; [|cbn [fst]; sent_simpl; eexists; split; [reflexivity|left; discriminate]].
  destruct (String.eqb cmd "");
    [cbn [fst]; sent_simpl; eexists; split; [reflexivity|left; discriminate]|].
  destruct (negb _);
    [cbn [fst]; sent_simpl; eexists; split; [reflexivity|left; discriminate]|].
  destruct (isOneOf _ _);
    [cbn [fst]; sent_simpl; eexists; split; [reflexivity|left; discriminate]|].
  destruct (String.eqb cmd "VRFY");
    [cbn [fst]; sent_simpl; eexists; split; [reflexivity|left; discriminate]|].
  destruct (String.eqb cmd "NOOP");
    [cbn [fst]; sent_simpl; eexists; split; [reflexivity|left; discriminate]|].
  destruct (String.eqb cmd "RSET");
    [cbn [fst]; sent_simpl; eexists; split; [reflexivity|left; discriminate]|].
  destruct (String.eqb cmd "QUIT");
    [cbn [fst]; sent_simpl; eexists; split; [reflexivity|left; discriminate]|].
  destruct (state (ss w1)) eqn:E; cbn [fst];
    try (destruct Hst as [H|[H|H]]; discriminate).
  - destruct (greetHandler_replies cmd arg w1) as (new & Hs & Hne). eauto.
  - destruct (readyHandler_replies cmd arg w1) as (new & Hs & Hne). eauto.
  - destruct (mailHandler_replies cmd arg w1) as (new & Hs & [Hne|Hd]); eauto.
Qed.

(** X7. The data phase is bracketed by replies: [dataHandler] first sends
    354, and after it at most one more reply; it sends none only when the
    session has gone to QUIT on a read error. *)
Theorem data_phase_replies (w : W) :
  exists tail,
    sent (conn (ss (dataHandler w)))
    = sent (conn (ss w)) ++ "354 Start mail input; end with <CRLF>.<CRLF>" :: tail
    /\ (length tail <= 1)%nat
    /\ (tail = [] -> state (ss (dataHandler w)) = QUIT).
Proof.
  unfold dataHandler. cbv zeta.
  destruct (dataLoop_replies
              (pending (reader (ss (send "354 Start mail input; end with <CRLF>.<CRLF>" w))))
              "" (send "354 Start mail input; end with <CRLF>.<CRLF>" w))
    as (tail & Hs & Hlen & Hq).
  exists tail. rewrite Hs, send_sent, <- app_assoc. auto.
Qed.

(** X8. No message is delivered without its terminator line: when none of
    the lines the reader holds is a terminator, the data phase makes no
    [Deliver] call, leaves the manager and the received-total counter as
    they were, and ends in READY (after a 552) or in QUIT. *)
Theorem no_delivery_without_terminator (w : W) :
  Forall (fun l => isTerminator l = false) (pending (reader (ss w))) ->
  delivered (dataHandler w) = delivered w
  /\ manager (dataHandler w) = manager w
  /\ expReceivedTotal (dataHandler w) = expReceivedTotal w
  /\ (state (ss (dataHandler w)) = READY \/ state (ss (dataHandler w)) = QUIT).
Proof.
  intros Hall. unfold dataHandler. cbv zeta.
  rewrite send_reader.
  destruct (dataLoop_no_terminator (pending (reader (ss w))) ""
              (send "354 Start mail input; end with <CRLF>.<CRLF>" w) Hall)
    as (Hd & Hm & Hc).
  rewrite Hd, Hm, Hc. autorewrite with session.
  repeat split. apply dataLoop_state.
Qed.

(** X9. When the input ends inside the data phase, before a terminator line
    and within the size limit, the session goes to QUIT with its envelope as
    it was; after the 354 it sends [221 Idle timeout, bye bye] if the read
    timed out and nothing otherwise. *)
Theorem data_phase_read_failure (w : W) :
  Forall (fun l => isTerminator l = false) (pending (reader (ss w))) ->
  len (joinLines (map unstuff (pending (reader (ss w))))) <= maxMessageBytes server ->
  state (ss (dataHandler w)) = QUIT
  /\ from (ss (dataHandler w)) = from (ss w)
  /\ recipients (ss (dataHandler w)) = recipients (ss w)
  /\ sent (conn (ss (dataHandler w)))
     = sent (conn (ss w))
       ++ "354 Start mail input; end with <CRLF>.<CRLF>"
          :: match failure (reader (ss w)) with
             | TimeoutError => ["221 Idle timeout, bye bye"]
             | _ => []
             end.
Proof.
  intros Hall Hsize. unfold dataHandler. cbv zeta. rewrite send_reader.
  set (w1 := send "354 Start mail input; end with <CRLF>.<CRLF>" w).
  assert (E : dataLoop (pending (reader (ss w))) "" w1
              = dataLoop [] ("" +:+ joinLines (map unstuff (pending (reader (ss w)))))
                         (advance [] w1)).
  { rewrite <- (app_nil_r (pending (reader (ss w)))) at 1.
    apply dataLoop_body;
      [unfold w1; rewrite send_reader, app_nil_r; reflexivity|assumption
      |rewrite append_nil_l; assumption]. }
  rewrite E. cbn [dataLoop advance onSession ss setReader reader failure].
  unfold w1. rewrite send_reader.
  destruct (failure (reader (ss w))); sess_simpl; rewrite <- ?app_assoc; auto.
Qed.

(** X10. The data phase reads no further than the line that ends it: after
    a terminator line, and after the line that takes the buffer over the
    limit, the lines that follow are still in the reader, where the command
    loop will read them as commands. *)
Theorem data_phase_leaves_rest_unread (body : list string) (l : string)
    (rest : list string) (w : W) :
  pending (reader (ss w)) = body ++ l :: rest ->
  Forall (fun l => isTerminator l = false) body ->
  len (joinLines (map unstuff body)) <= maxMessageBytes server ->
  isTerminator l = true
  \/ len (joinLines (map unstuff body) +:+ unstuff l) > maxMessageBytes server ->
  pending (reader (ss (dataHandler w))) = rest
  /\ state (ss (dataHandler w)) = READY.
Proof.
  intros Hpend Hall Hsize Hl. unfold dataHandler. cbv zeta.
  rewrite send_reader, Hpend.
  rewrite dataLoop_body;
    [|rewrite send_reader; assumption|assumption|rewrite append_nil_l; assumption].
  rewrite dataLoop_line, append_nil_l, advance_advance.
  destruct (isTerminator l) eqn:Ht.
  - rewrite mailDataComplete_reader, mailDataComplete_state. auto.
  - destruct Hl as [Hl|Hl]; [discriminate|].
    destruct (_ >? _) eqn:E; [|rewrite Z.gtb_ltb in E; apply Z.ltb_ge in E; lia].
    cbn [reset logWarn enterState onSession ss setState setFrom setRecipients reader state].
    rewrite send_reader. auto.
Qed.

(** X11. A message none of whose recipients is stored is accepted all the
    same: on the terminator line no [Deliver] call is made and the manager
    is untouched, the reply is [250 Mail accepted for delivery], and the
    received-total counter moves once per recipient. *)
Theorem unstored_message_accepted (msgBuf : string) (w : W) :
  Forall (fun r => ShouldStore r = false) (recipients (ss w)) ->
  let w' := mailDataComplete msgBuf w in
  delivered w' = delivered w
  /\ manager w' = manager w
  /\ sent (conn (ss w')) = sent (conn (ss w)) ++ ["250 Mail accepted for delivery"]
  /\ expReceivedTotal w'
     = Nat.iter (length (recipients (ss w))) (fun v => Int_Add v 1) (expReceivedTotal w).
Proof.
  intros Hall w'. subst w'.
  assert (Hnone : List.filter ShouldStore (recipients (ss w)) = []).
  { induction (recipients (ss w)) as [|r rs IH]; [reflexivity|].
    apply Forall_cons in Hall as [Hr Hrs]. cbn [List.filter]. rewrite Hr. auto. }
  unfold mailDataComplete.
  destruct (deliverLoop _ _ _ _) as [w1 completed] eqn:E.
  apply deliverLoop_spec in E as (calls & Hdel & Hman & _ & Hrest).
  destruct completed.
  - destruct Hrest as (Hmap & _ & Hss & Hcnt).
    rewrite Hnone in Hmap. destruct calls; [|discriminate].
    rewrite app_nil_r in Hdel. cbn [replay fold_left] in Hman.
    cbn [reset enterState onSession delivered manager expReceivedTotal ss conn
         setState setFrom setRecipients].
    autorewrite with session. rewrite Hss. auto.
  - destruct Hrest as (pre & r & post & e & Hrec & Hst & _).
    rewrite Forall_forall in Hall.
    assert (Hin : In r (recipients (ss w))).
    { rewrite Hrec. apply in_or_app. right. left. reflexivity. }
    apply list_elem_of_In in Hin. rewrite (Hall r Hin) in Hst. discriminate.
Qed.

(** ** HELO and EHLO *)

Lemma beforeSpace_Some : forall s d,
  beforeSpace s = Some d ->
  inSet d SP = false /\ exists rest, s = d +:+ String SP rest.
Proof.
  induction s as [|c s IH]; intros d H; [discriminate|].
  cbn [beforeSpace] in H. destruct (Ascii.eqb c SP) eqn:Ec.
  - injection H as <-. apply Ascii.eqb_eq in Ec. subst c.
    split; [reflexivity|]. exists s. reflexivity.
  - destruct (beforeSpace s) as [d'|]; [|discriminate].
    injection H as <-. destruct (IH d' eq_refl) as (Hno & rest & ->).
    split.
    + cbn [inSet]. rewrite Ascii.eqb_sym, Ec. exact Hno.
    + exists rest. reflexivity.
Qed.

Lemma beforeSpace_None : forall s, beforeSpace s = None -> inSet s SP = false.
Proof.
  induction s as [|c s IH]; intros H; [reflexivity|].
  cbn [beforeSpace] in H. destruct (Ascii.eqb c SP) eqn:Ec; [discriminate|].
  destruct (beforeSpace s); [discriminate|].
  cbn [inSet]. rewrite Ascii.eqb_sym, Ec. auto.
Qed.

(** X12. [parseHelloArgument] returns the argument up to its first space:
    the domain it returns is not empty, holds no space, and is the whole
    argument or is followed in it by a space; it fails exactly on an empty
    argument and on one that starts with a space. *)
Theorem parseHelloArgument_spec (arg : string) :
  (forall domain,
      parseHelloArgument arg = Some domain ->
      domain <> ""
      /\ inSet domain SP = false
      /\ (arg = domain \/ exists rest, arg = domain +:+ String SP rest))
  /\ (parseHelloArgument arg = None <-> arg = "" \/ firstByte arg = Some SP).
Proof.
  unfold parseHelloArgument. split.
  - intros domain H.
    destruct (beforeSpace arg) as [d|] eqn:E.
    + destruct (String.eqb d "") eqn:Ed; [discriminate|].
      injection H as <-. apply String.eqb_neq in Ed.
      destruct (beforeSpace_Some arg d E) as (Hno & rest & Hrest). eauto.
    + destruct (String.eqb arg "") eqn:Ed; [discriminate|].
      injection H as <-. apply String.eqb_neq in Ed.
      auto using beforeSpace_None.
  - destruct (beforeSpace arg) as [d|] eqn:E.
    + destruct (beforeSpace_Some arg d E) as (Hno & rest & Hrest).
      destruct (String.eqb d "") eqn:Ed.
      * apply String.eqb_eq in Ed. subst d arg.
        split; [intros _; right; reflexivity|intros _; reflexivity].
      * apply String.eqb_neq in Ed. split; [discriminate|].
        intros [H|H]; subst arg.
        -- destruct d; [contradiction|discriminate].
        -- destruct d; [contradiction|]. cbn in H. injection H as ->. discriminate.
    + apply beforeSpace_None in E.
      destruct (String.eqb arg "") eqn:Ed.
      * apply String.eqb_eq in Ed. split; [auto|intros _; reflexivity].
      * apply String.eqb_neq in Ed. split; [discriminate|].
        intros [H|H]; [contradiction|].
        destruct arg as [|c arg]; [discriminate|]. cbn in H. injection H as ->.
        discriminate.
Qed.

(** X13. In reply to HELO or EHLO with a domain, [greetHandler] records the
    domain, enters READY and leaves the envelope alone; HELO is answered by
    one line, EHLO by three, the last advertising
    [SIZE <maxMessageBytes>], and all of them are handed to the connection
    whatever becomes of the writes.  Without a domain the answer is 501 and
    nothing changes. *)
Theorem greetHandler_hello (cmd arg : string) (w : W) :
  cmd = "HELO" \/ cmd = "EHLO" ->
  let w' := greetHandler cmd arg w in
  match parseHelloArgument arg with
  | Some domain =>
      state (ss w') = READY
      /\ remoteDomain (ss w') = domain
      /\ from (ss w') = from (ss w)
      /\ recipients (ss w') = recipients (ss w)
      /\ sent (conn (ss w'))
         = sent (conn (ss w))
           ++ (if String.eqb cmd "HELO"
               then ["250 Great, let's get this show on the road"]
               else ["250-Great, let's get this show on the road"; "250-8BITMIME";
                     "250 SIZE " +:+ itoa (maxMessageBytes server)])
  | None =>
      unchanged w w'
      /\ sent (conn (ss w'))
         = sent (conn (ss w)) ++ ["501 Domain/address argument required for " +:+ cmd]
  end.
Proof.
  intros [-> | ->] w'; subst w'; unfold greetHandler;
    cbn [String.eqb Ascii.eqb Bool.eqb];
    destruct (parseHelloArgument arg) as [domain|].
  - sess_simpl. auto.
  - split; [apply unchanged_send|]. sess_simpl. reflexivity.
  - sess_simpl. rewrite <- !app_assoc. auto.
  - split; [apply unchanged_send|]. sess_simpl. reflexivity.
Qed.

(** X14. A command that is recognised but does not fit the state is answered
    by [503 Command <cmd> is out of sequence], counted as one warning, and
    changes nothing: anything but HELO and EHLO in GREET, anything but MAIL
    in READY, and in MAIL anything but RCPT and DATA, as well as a DATA
    without argument while there is no recipient. *)
Theorem out_of_sequence (cmd arg : string) (w : W) :
  let refused (w' : W) :=
    w' = logWarn (send ("503 Command " +:+ cmd +:+ " is out of sequence") w) in
  (cmd <> "HELO" -> cmd <> "EHLO" -> refused (greetHandler cmd arg w))
  /\ (cmd <> "MAIL" -> refused (readyHandler cmd arg w))
  /\ (cmd <> "RCPT" -> cmd <> "DATA" -> refused (mailHandler cmd arg w))
  /\ (cmd = "DATA" -> arg = "" -> recipients (ss w) = [] ->
      refused (mailHandler cmd arg w)).
Proof.
  cbv zeta. split; [|split; [|split]].
  - intros H1 H2. unfold greetHandler.
    apply String.eqb_neq in H1. apply String.eqb_neq in H2. rewrite H1, H2. reflexivity.
  - intros H1. unfold readyHandler. apply String.eqb_neq in H1. rewrite H1. reflexivity.
  - intros H1 H2. unfold mailHandler.
    apply String.eqb_neq in H1. apply String.eqb_neq in H2. rewrite H1, H2. reflexivity.
  - intros -> -> Hrec. unfold mailHandler. rewrite Hrec. reflexivity.
Qed.

(** ** Commands handled in any state *)

(** X15. NOOP, VRFY and the commands that are not implemented never disturb
    a transaction: read in any state but DATA, they are answered by one line
    (250, 252, or 502 with the verb), and the state, the sender, the
    recipients and the remote domain stay as they are. *)
Theorem undisturbing_commands (line : string) (rest : list string)
    (cmd arg : string) (w : W) :
  state (ss w) <> DATA ->
  pending (reader (ss w)) = line :: rest ->
  fst (parseCmd line (advance rest w)) = (cmd, arg, true) ->
  cmd = "NOOP" \/ cmd = "VRFY"
  \/ In cmd ["SEND"; "SOML"; "SAML"; "EXPN"; "HELP"; "TURN"] ->
  let w' := fst (loopBody w) in
  unchanged w w'
  /\ snd (loopBody w) = true
  /\ pending (reader (ss w')) = rest
  /\ sent (conn (ss w'))
     = sent (conn (ss w))
       ++ [if String.eqb cmd "NOOP" then "250 I have sucessfully done nothing"
           else if String.eqb cmd "VRFY"
                then "252 Cannot VRFY user, but will accept message"
                else "502 " +:+ cmd +:+ " command not implemented"].
Proof.
  intros Hst Hpend Hparse Hcmd w'. subst w'. unfold loopBody.
  rewrite (State_eqb_neq _ _ Hst). unfold readLine. rewrite Hpend.
  pose proof (parseCmd_ss line (advance rest w)) as Hss.
  destruct (parseCmd line (advance rest w)) as [[[c a] o] w1].
  cbn [fst snd] in Hss, Hparse. injection Hparse as -> -> ->.
  assert (Hw1 : unchanged w w1).
  { eapply unchanged_trans; [apply (unchanged_advance rest)|apply unchanged_ss, Hss]. }
  assert (Hsent : sent (conn (ss w1)) = sent (conn (ss w))) by (rewrite Hss; reflexivity).
  assert (Hrd : pending (reader (ss w1)) = rest) by (rewrite Hss; reflexivity).
  rewrite <- Hsent, <- Hrd.
  cbn [In] in Hcmd.
  destruct Hcmd as [-> | [-> | [<- | [<- | [<- | [<- | [<- | [<- | []]]]]]]]];
    known_command; cbn [String.eqb Ascii.eqb Bool.eqb isOneOf existsb orb fst snd];
    (split; [eapply unchanged_trans; [exact Hw1|];
             first [apply unchanged_send|apply unchanged_warn_send]|]);
    sess_simpl; auto.
Qed.

(** X16. RSET gives up the transaction from any state but DATA, GREET
    included: the session is in READY with no sender and no recipient, it
    keeps its remote domain, and the reply is [250 Session reset]. *)
Theorem RSET_resets (line : string) (rest : list string) (arg : string) (w : W) :
  state (ss w) <> DATA ->
  pending (reader (ss w)) = line :: rest ->
  fst (parseCmd line (advance rest w)) = ("RSET", arg, true) ->
  let w' := fst (loopBody w) in
  state (ss w') = READY
  /\ from (ss w') = ""
  /\ recipients (ss w') = []
  /\ remoteDomain (ss w') = remoteDomain (ss w)
  /\ sent (conn (ss w')) = sent (conn (ss w)) ++ ["250 Session reset"]
  /\ snd (loopBody w) = true.
Proof.
  intros Hst Hpend Hparse w'. subst w'. unfold loopBody.
  rewrite (State_eqb_neq _ _ Hst). unfold readLine. rewrite Hpend.
  pose proof (parseCmd_ss line (advance rest w)) as Hss.
  destruct (parseCmd line (advance rest w)) as [[[c a] o] w1].
  cbn [fst snd] in Hss, Hparse. injection Hparse as -> -> ->.
  known_command. cbn [String.eqb Ascii.eqb Bool.eqb isOneOf existsb orb fst snd].
  sess_simpl. rewrite Hss. auto 10.
Qed.

(** X17. QUIT ends the session from any state but DATA: the reply is
    [221 Goodnight and good luck], the state is QUIT and the loop condition
    is false; the envelope is left as it is and nothing is delivered. *)
Theorem QUIT_ends_session (line : string) (rest : list string) (arg : string) (w : W) :
  state (ss w) <> DATA ->
  pending (reader (ss w)) = line :: rest ->
  fst (parseCmd line (advance rest w)) = ("QUIT", arg, true) ->
  let w' := fst (loopBody w) in
  state (ss w') = QUIT
  /\ loopCond w' = false
  /\ sent (conn (ss w')) = sent (conn (ss w)) ++ ["221 Goodnight and good luck"]
  /\ from (ss w') = from (ss w)
  /\ recipients (ss w') = recipients (ss w)
  /\ delivered w' = delivered w.
Proof.
  intros Hst Hpend Hparse w'. subst w'. unfold loopBody.
  rewrite (State_eqb_neq _ _ Hst). unfold readLine. rewrite Hpend.
  pose proof (parseCmd_ss line (advance rest w)) as Hss.
  assert (Hdel : delivered (snd (parseCmd line (advance rest w))) = delivered w).
  { unfold parseCmd. cbv zeta. handler_cases; reflexivity. }
  destruct (parseCmd line (advance rest w)) as [[[c a] o] w1].
  cbn [fst snd] in Hss, Hparse, Hdel. injection Hparse as -> -> ->.
  known_command. cbn [String.eqb Ascii.eqb Bool.eqb isOneOf existsb orb fst snd].
  unfold loopCond. sess_simpl. rewrite Hss, Hdel. auto 10.
Qed.

(** X18. A line that is no command changes nothing and is answered by a
    500: [500 Syntax error, command garbled] when the parser rejects it,
    [500 Speak up] when it is empty, and
    [500 Syntax error, <verb> command unrecognized] when its verb is not one
    of the fifteen known ones. *)
Theorem rejected_lines (line : string) (rest : list string)
    (cmd arg : string) (ok : bool) (w : W) :
  state (ss w) <> DATA ->
  pending (reader (ss w)) = line :: rest ->
  fst (parseCmd line (advance rest w)) = (cmd, arg, ok) ->
  ok = false \/ cmd = "" \/ commands !! cmd = None ->
  let w' := fst (loopBody w) in
  unchanged w w'
  /\ snd (loopBody w) = true
  /\ sent (conn (ss w'))
     = sent (conn (ss w))
       ++ [if negb ok then "500 Syntax error, command garbled"
           else if String.eqb cmd "" then "500 Speak up"
                else "500 Syntax error, " +:+ cmd +:+ " command unrecognized"].
Proof.
  intros Hst Hpend Hparse Hbad w'. subst w'. unfold loopBody.
  rewrite (State_eqb_neq _ _ Hst). unfold readLine. rewrite Hpend.
  pose proof (parseCmd_ss line (advance rest w)) as Hss.
  destruct (parseCmd line (advance rest w)) as [[[c a] o] w1].
  cbn [fst snd] in Hss, Hparse. injection Hparse as -> -> ->.
  assert (Hw1 : unchanged w w1).
  { eapply unchanged_trans; [apply (unchanged_advance rest)|apply unchanged_ss, Hss]. }
  assert (Hsent : sent (conn (ss w1)) = sent (conn (ss w))) by (rewrite Hss; reflexivity).
  rewrite <- Hsent.
  destruct ok.
  - destruct (String.eqb cmd "") eqn:Ecmd.
    + cbn [negb fst snd]. split; [eapply unchanged_trans; [exact Hw1|apply unchanged_send]|].
      sess_simpl. auto.
    + destruct Hbad as [Hbad|[Hbad|Hbad]]; [discriminate| |].
      * apply String.eqb_neq in Ecmd. contradiction.
      * rewrite Hbad. cbn [default negb fst snd].
        split; [eapply unchanged_trans; [exact Hw1|apply unchanged_warn_send]|].
        sess_simpl. auto.
  - cbn [negb fst snd]. split; [eapply unchanged_trans; [exact Hw1|apply unchanged_send]|].
    sess_simpl. auto.
Qed.

(** ** The session as a whole *)

Lemma send_expConnectsCurrent msg w :
  expConnectsCurrent (send msg w) = expConnectsCurrent w.
Proof. unfold send. destruct (connWrite _ msg); reflexivity. Qed.

#[local] Hint Rewrite send_expConnectsCurrent : session.

Lemma deliverLoop_gauge tstamp body : forall rest w,
  expConnectsCurrent (fst (deliverLoop tstamp body rest w)) = expConnectsCurrent w.
Proof.
  induction rest as [|r rest IH]; intros w; cbn [deliverLoop]; [reflexivity|].
  destruct (ShouldStore r); [|rewrite IH; reflexivity].
  unfold callDeliver. destruct (Deliver _ _ _ _ _ _) as [m1 [e|]].
  - sess_simpl. reflexivity.
  - rewrite IH. reflexivity.
Qed.

Lemma dataLoop_gauge : forall lines msgBuf w,
  expConnectsCurrent (dataLoop lines msgBuf w) = expConnectsCurrent w.
Proof.
  induction lines as [|l lines IH]; intros msgBuf w.
  - cbn [dataLoop]. destruct (failure (reader (ss w))); sess_simpl; reflexivity.
  - rewrite dataLoop_line. destruct (isTerminator l).
    + unfold mailDataComplete.
      pose proof (deliverLoop_gauge (timeNow (advance lines w)) msgBuf
                    (recipients (ss (advance lines w))) (advance lines w)) as H.
      destruct (deliverLoop _ _ _ _) as [w1 completed]. cbn [fst] in H.
      destruct completed; sess_simpl; exact H.
    + destruct (_ >? _); [sess_simpl; reflexivity|]. rewrite IH. reflexivity.
Qed.

Lemma parseCmd_gauge line w :
  expConnectsCurrent (snd (parseCmd line w)) = expConnectsCurrent w.
Proof. unfold parseCmd. cbv zeta. handler_cases; reflexivity. Qed.

Lemma loopBody_gauge w :
  expConnectsCurrent (fst (loopBody w)) = expConnectsCurrent w.
Proof.
  unfold loopBody. destruct (State_eqb (state (ss w)) DATA).
  { cbn [fst]. unfold dataHandler. cbv zeta. rewrite dataLoop_gauge. sess_simpl. reflexivity. }
  unfold readLine. destruct (pending (reader (ss w))) as [|line rest].
  { destruct (failure (reader (ss w))); [destruct (state (ss w))| |];
      sess_simpl; reflexivity. }
  pose proof (parseCmd_gauge line (advance rest w)) as Hg.
  destruct (parseCmd line (advance rest w)) as [[[cmd arg] ok] w1].
  cbn [snd] in Hg. change (expConnectsCurrent (advance rest w)) with (expConnectsCurrent w) in Hg.
  rewrite <- Hg. clear Hg.
  unfold greetHandler, readyHandler, mailHandler, parseArgs. cbv zeta.
  handler_cases; try (destruct (state (ss w1))); handler_cases; sess_simpl; reflexivity.
Qed.

Lemma sessionLoop_gauge fuel : forall w,
  expConnectsCurrent (sessionLoop fuel w) = expConnectsCurrent w.
Proof.
  induction fuel as [|fuel IH]; intros w; cbn [sessionLoop]; [reflexivity|].
  destruct (loopCond w); [|reflexivity].
  pose proof (loopBody_gauge w) as H.
  destruct (loopBody w) as [w' continue]. cbn [fst] in H.
  destruct continue; [rewrite IH|]; exact H.
Qed.

(** X19. A session leaves the gauge of current connections as it found it:
    [startSession] adds one on entry and takes one off on exit, on every
    path, and nothing in between touches the gauge. *)
Theorem connection_gauge_balanced (sid : Z) (host : string) (rd : Reader) (w : W) :
  - 2 ^ 63 <= expConnectsCurrent w <= 2 ^ 63 - 2 ->
  expConnectsCurrent (startSession sid host rd w) = expConnectsCurrent w.
Proof.
  intros Hrange. unfold startSession. cbv zeta.
  set (w1 := sessionLoop _ _).
  assert (H1 : expConnectsCurrent w1 = Int_Add (expConnectsCurrent w) 1).
  { unfold w1. rewrite sessionLoop_gauge. unfold sessionStart, greet. cbv zeta.
    sess_simpl. reflexivity. }
  assert (H2 : expConnectsCurrent
                 (match sendError (ss w1) with Some _ => logWarn w1 | None => w1 end)
               = Int_Add (expConnectsCurrent w) 1).
  { destruct (sendError (ss w1)); exact H1. }
  cbn [addConnects expConnectsCurrent]. rewrite H2.
  unfold Int_Add, wrap64.
  rewrite (Z.mod_small (expConnectsCurrent w + 1 + 2 ^ 63)) by lia.
  rewrite Z.mod_small by lia. lia.
Qed.

Lemma loopBody_break w w' :
  loopBody w = (w', false) ->
  pending (reader (ss w')) = [] \/ loopCond w' = false.
Proof.
  unfold loopBody. destruct (State_eqb (state (ss w)) DATA) eqn:Hd; [discriminate|].
  unfold readLine. destruct (pending (reader (ss w))) as [|line rest] eqn:Hp.
  { intros H. left.
    destruct (failure (reader (ss w))); [destruct (state (ss w))| |];
      injection H as <-; sess_simpl; exact Hp. }
  pose proof (parseCmd_ss line (advance rest w)) as Hss.
  destruct (parseCmd line (advance rest w)) as [[[cmd arg] ok] w1].
  cbn [snd] in Hss.
  assert (Hst : state (ss w1) = state (ss w)) by (rewrite Hss; reflexivity).
  repeat match goal with
         | |- context [if ?b then _ else _] => destruct b
         end; try discriminate.
  destruct (state (ss w1)) eqn:E; try discriminate; intros H; injection H as <-.
  - rewrite <- Hst in Hd. discriminate.
  - right. unfold loopCond. cbn [logError ss]. rewrite E. reflexivity.
Qed.

Lemma sessionLoop_done : forall fuel w,
  (length (pending (reader (ss w))) + 1 <= fuel)%nat ->
  loopCond (sessionLoop fuel w) = false
  \/ pending (reader (ss (sessionLoop fuel w))) = [].
Proof.
  induction fuel as [|fuel IH]; intros w Hfuel; [lia|].
  cbn [sessionLoop]. destruct (loopCond w) eqn:Hc; [|left; exact Hc].
  destruct (loopBody w) as [w' continue] eqn:Hb.
  destruct continue.
  - destruct (loopBody_progress w w' Hb) as [Hlt|Hstop].
    + apply IH. lia.
    + rewrite (sessionLoop_stops fuel w' Hstop). left. exact Hstop.
  - destruct (loopBody_break w w' Hb); auto.
Qed.

(** X20. The command loop of [startSession] runs to its end within one pass
    more than there are lines to read, and when it ends the session has
    gone to QUIT, or a write has failed, or every line has been read. *)
Theorem session_reads_all_input (w : W) :
  let w' := sessionLoop (S (length (pending (reader (ss w))))) w in
  (forall extra,
      sessionLoop (S (length (pending (reader (ss w)))) + extra) w = w')
  /\ (state (ss w') = QUIT
      \/ sendError (ss w') <> None
      \/ pending (reader (ss w')) = []).
Proof.
  intros w'. split; [intros extra; apply sessionLoop_fuel|].
  destruct (sessionLoop_done (S (length (pending (reader (ss w))))) w) as [H|H]; [lia| |].
  - fold w' in H. unfold loopCond in H.
    destruct (State_eqb (state (ss w')) QUIT) eqn:E.
    + left. apply State_eqb_eq. exact E.
    + right. left. destruct (sendError (ss w')); [discriminate|discriminate].
  - auto.
Qed.

(** ** What the patterns accept *)

Lemma length_append (a b : string) :
  String.length (a +:+ b) = (String.length a + String.length b)%nat.
Proof.
  induction a as [|x a IH]; [reflexivity|].
  rewrite append_cons. cbn [String.length]. rewrite IH. reflexivity.
Qed.

Lemma sliceTo_append (a b : string) :
  sliceTo (String.length (a +:+ b) - String.length b) (a +:+ b) = a.
Proof.
  rewrite length_append. replace (_ + _ - _)%nat with (String.length a) by lia.
  induction a as [|x a IH]; [destruct b; reflexivity|].
  rewrite append_cons. cbn [String.length sliceTo]. rewrite IH. reflexivity.
Qed.

(** A successful match has consumed a prefix that the pattern accepts, and
    has called its continuation right after it. *)
Lemma rmatch_sound {R} fuel :
  forall r pos s c (k : nat -> string -> caps -> option R) res,
    rmatch fuel r pos s c k = Some res ->
    exists pre s' c',
      s = pre +:+ s'
      /\ Lang r pre
      /\ k (pos + String.length pre)%nat s' c' = Some res
      /\ (forall n, mentions n r = false -> c' n = c n).
Proof.
  induction fuel as [|fuel IHfuel];
    induction r as [|p|r1 IH1 r2 IH2|r1 IH1 r2 IH2|r1 IH1|n r1 IH1| |];
    intros pos s c k res H.
  1, 9: rewrite rmatch_Eps in H; exists EmptyString, s, c;
    rewrite Nat.add_0_r; repeat split; [constructor|assumption].
  1, 8: rewrite rmatch_Class in H; destruct s as [|a rest]; [discriminate|];
    destruct (p a) eqn:Hp; [|discriminate];
    exists (String a EmptyString), rest, c;
    cbn [String.length]; rewrite Nat.add_1_r;
    repeat split; [constructor; assumption|assumption].
  1, 7: rewrite rmatch_Cat in H;
    apply IH1 in H as (a1 & s1 & c1 & -> & L1 & H & Hc1);
    apply IH2 in H as (a2 & s2 & c2 & -> & L2 & H & Hc2);
    exists (a1 +:+ a2), s2, c2;
    rewrite length_append, Nat.add_assoc, append_assoc;
    split; [reflexivity|]; split; [constructor; assumption|]; split; [assumption|];
    intros n Hn; cbn [mentions] in Hn; apply orb_false_elim in Hn as [Hn1 Hn2];
    rewrite Hc2, Hc1 by assumption; reflexivity.
  1, 6: rewrite rmatch_Alt in H;
    destruct (rmatch _ r1 pos s c k) as [res1|] eqn:E1;
    [ injection H as <-;
      apply IH1 in E1 as (a1 & s1 & c1 & -> & L1 & E1 & Hc1);
      exists a1, s1, c1; split; [reflexivity|];
      split; [apply lang_Alt_l; assumption|]; split; [assumption|];
      intros n Hn; cbn [mentions] in Hn; apply orb_false_elim in Hn as [Hn1 Hn2]; auto
    | apply IH2 in H as (a2 & s2 & c2 & -> & L2 & H & Hc2);
      exists a2, s2, c2; split; [reflexivity|];
      split; [apply lang_Alt_r; assumption|]; split; [assumption|];
      intros n Hn; cbn [mentions] in Hn; apply orb_false_elim in Hn as [Hn1 Hn2]; auto ].
  2, 6: rewrite rmatch_Group in H;
    apply IH1 in H as (a1 & s1 & c1 & -> & L1 & H & Hc1);
    exists a1, s1,
      (setcap n (sliceTo (String.length (a1 +:+ s1) - String.length s1) (a1 +:+ s1)) c1);
    split; [reflexivity|]; split; [constructor; assumption|]; split; [assumption|];
    intros m Hm; cbn [mentions] in Hm; apply orb_false_elim in Hm as [Hm1 Hm2];
    unfold setcap; rewrite Hm1; auto.
  2, 5: rewrite rmatch_BeginText in H; destruct (Nat.eqb pos 0); [|discriminate];
    exists EmptyString, s, c; rewrite Nat.add_0_r;
    repeat split; [constructor|assumption].
  2, 4: rewrite rmatch_EndText in H; destruct s; [|discriminate];
    exists EmptyString, EmptyString, c; rewrite Nat.add_0_r;
    repeat split; [constructor|assumption].
  - discriminate.
  - rewrite rmatch_Star in H.
    destruct (rmatch (S fuel) r1 pos s c _) as [res1|] eqn:E1.
    + injection H as <-.
      apply IH1 in E1 as (a1 & s1 & c1 & -> & L1 & E1 & Hc1).
      destruct (String.length s1 <? String.length (a1 +:+ s1))%nat; [|discriminate].
      apply IHfuel in E1 as (a2 & s2 & c2 & -> & L2 & E1 & Hc2).
      exists (a1 +:+ a2), s2, c2.
      rewrite length_append, Nat.add_assoc, append_assoc.
      split; [reflexivity|]. split; [constructor; assumption|]. split; [assumption|].
      intros n Hn. cbn [mentions] in Hn, Hc2. rewrite Hc2, Hc1 by assumption. reflexivity.
    + exists EmptyString, s, c. rewrite Nat.add_0_r.
      repeat split; [constructor|assumption].
Qed.

(** a search that succeeds has matched at the offset it stopped at *)
Lemma search_sound re fuel : forall s pos m,
  search re fuel pos s = Some m ->
  exists skipped s',
    s = skipped +:+ s'
    /\ rmatch fuel (Group 0 re) (pos + String.length skipped)%nat s' nocaps
         (fun _ _ c => Some c) = Some m.
Proof.
  induction s as [|a s IHs]; intros pos m H; cbn [search] in H.
  - destruct (rmatch fuel (Group 0 re) pos EmptyString nocaps _) eqn:E; [|discriminate].
    injection H as ->. exists EmptyString, EmptyString. rewrite Nat.add_0_r. auto.
  - destruct (rmatch fuel (Group 0 re) pos (String a s) nocaps _) eqn:E.
    + injection H as ->. exists EmptyString, (String a s). rewrite Nat.add_0_r. auto.
    + apply IHs in H as (skipped & s' & -> & H).
      exists (String a skipped), s'. cbn [String.length].
      rewrite Nat.add_succ_r. auto.
Qed.

Lemma Lang_Class_inv p x : Lang (Class p) x -> exists a, x = String a "" /\ p a = true.
Proof. intros H. inversion H; subst. eauto. Qed.

Lemma Lang_Cat_inv r1 r2 x :
  Lang (Cat r1 r2) x -> exists a b, x = a +:+ b /\ Lang r1 a /\ Lang r2 b.
Proof. intros H. inversion H; subst. eauto. Qed.

Lemma Lang_Alt_inv r1 r2 x : Lang (Alt r1 r2) x -> Lang r1 x \/ Lang r2 x.
Proof. intros H. inversion H; subst; auto. Qed.

Lemma Lang_Group_inv n r x : Lang (Group n r) x -> Lang r x.
Proof. intros H. inversion H; subst; auto. Qed.

(** a property of the iterated pattern that holds of the empty text and is
    kept by concatenation holds of every repetition *)
Lemma Lang_Star_all (P : string -> Prop) r :
  P EmptyString ->
  (forall a b, Lang r a -> P b -> P (a +:+ b)) ->
  forall x, Lang (Star r) x -> P x.
Proof.
  intros Hnil Hcons x H. remember (Star r) as sr eqn:E.
  induction H; try discriminate.
  - exact Hnil.
  - injection E as ->. apply Hcons; auto.
Qed.

Lemma allBytes_append p a b : allBytes p (a +:+ b) = allBytes p a && allBytes p b.
Proof.
  induction a as [|x a IH]; [reflexivity|].
  rewrite append_cons. cbn [allBytes]. rewrite IH, andb_assoc. reflexivity.
Qed.

Lemma Lang_Star_Class p x : Lang (Star (Class p)) x -> allBytes p x = true.
Proof.
  apply (Lang_Star_all (fun x => allBytes p x = true)); [reflexivity|].
  intros a b Ha Hb. apply Lang_Class_inv in Ha as (c & -> & Hc).
  rewrite append_cons, append_nil_l. cbn [allBytes]. rewrite Hc, Hb. reflexivity.
Qed.

Lemma Lang_Plus_Class p x :
  Lang (Plus (Class p)) x -> allBytes p x = true /\ x <> "".
Proof.
  intros H. apply Lang_Cat_inv in H as (a & b & -> & Ha & Hb).
  apply Lang_Class_inv in Ha as (c & -> & Hc). apply Lang_Star_Class in Hb.
  rewrite append_cons, append_nil_l. cbn [allBytes]. rewrite Hc, Hb.
  split; [reflexivity|discriminate].
Qed.

Lemma inSet_append a b c : inSet (a +:+ b) c = inSet a c || inSet b c.
Proof.
  induction a as [|x a IH]; [reflexivity|].
  rewrite append_cons. cbn [inSet]. destruct (Ascii.eqb c x); [reflexivity|exact IH].
Qed.

Lemma LitFold_inv c x :
  Lang (LitFold c) x -> exists a, x = String a "" /\ upperByte a = upperByte c.
Proof.
  intros H. apply Lang_Class_inv in H as (a & -> & Ha).
  apply Ascii.eqb_eq in Ha. eauto.
Qed.

Lemma Lit_inv c x : Lang (Lit c) x -> x = String c "".
Proof.
  intros H. apply Lang_Class_inv in H as (a & -> & Ha).
  apply Ascii.eqb_eq in Ha. subst a. reflexivity.
Qed.

(** what stands before the address in a MAIL argument *)
Lemma mailPrefix_shape x :
  Lang (Cat (LitFold "F"%char) (Cat (LitFold "R"%char) (Cat (LitFold "O"%char)
       (Cat (LitFold "M"%char) (Cat (Lit ":"%char)
       (Cat (Star (Class isSpace)) (Lit "<"%char))))))) x ->
  exists kw ws,
    x = kw +:+ ws +:+ "<"
    /\ asciiToUpper kw = "FROM:"
    /\ allBytes isSpace ws = true.
Proof.
  intros H.
  apply Lang_Cat_inv in H as (f & x1 & -> & Hf & H). apply LitFold_inv in Hf as (cf & -> & Hf).
  apply Lang_Cat_inv in H as (r & x2 & -> & Hr & H). apply LitFold_inv in Hr as (cr & -> & Hr).
  apply Lang_Cat_inv in H as (o & x3 & -> & Ho & H). apply LitFold_inv in Ho as (co & -> & Ho).
  apply Lang_Cat_inv in H as (m & x4 & -> & Hm & H). apply LitFold_inv in Hm as (cm & -> & Hm).
  apply Lang_Cat_inv in H as (c & x5 & -> & Hc & H). apply Lit_inv in Hc as ->.
  apply Lang_Cat_inv in H as (ws & lt & -> & Hws & Hlt). apply Lit_inv in Hlt as ->.
  apply Lang_Star_Class in Hws.
  exists (String cf (String cr (String co (String cm ":")))), ws.
  split; [reflexivity|]. split; [|assumption].
  cbn [asciiToUpper]. rewrite Hf, Hr, Ho, Hm. reflexivity.
Qed.

Lemma wordEqSpFold_no_gt y : Lang wordEqSpFold y -> inSet y ">" = false.
Proof.
  unfold wordEqSpFold. intros H.
  apply Lang_Alt_inv in H as [H|H].
  - apply Lang_Class_inv in H as (a & -> & Ha).
    destruct a as [[] [] [] [] [] [] [] []]; try discriminate Ha; reflexivity.
  - apply Lang_Alt_inv in H as [H|H].
    + apply Lang_Cat_inv in H as (a & b & -> & Ha & Hb).
      apply Lit_inv in Ha as ->. apply Lit_inv in Hb as ->. reflexivity.
    + apply Lang_Cat_inv in H as (a & b & -> & Ha & Hb).
      apply Lang_Cat_inv in Hb as (b1 & b2 & -> & Hb1 & Hb2).
      apply Lit_inv in Ha as ->. apply Lit_inv in Hb1 as ->. apply Lit_inv in Hb2 as ->.
      reflexivity.
Qed.

(** the ESMTP parameters of a MAIL argument: a space, then at least one
    more byte, none of them the closing bracket *)
Lemma mailParams_shape y :
  Lang (Cat (Lit SP) (Plus wordEqSpFold)) y ->
  exists tail, y = String SP tail /\ tail <> "" /\ inSet y ">" = false.
Proof.
  intros H. apply Lang_Cat_inv in H as (a & tail & -> & Ha & Ht). apply Lit_inv in Ha as ->.
  exists tail. split; [reflexivity|].
  apply Lang_Cat_inv in Ht as (t1 & t2 & -> & H1 & H2).
  assert (Hne : t1 <> "").
  { unfold wordEqSpFold in H1. apply Lang_Alt_inv in H1 as [H1|H1].
    - apply Lang_Class_inv in H1 as (c & -> & _). discriminate.
    - apply Lang_Alt_inv in H1 as [H1|H1];
        apply Lang_Cat_inv in H1 as (a & b & -> & Ha & _);
        apply Lit_inv in Ha as ->; discriminate. }
  split.
  - destruct t1; [contradiction|discriminate].
  - assert (Hall : forall z, Lang (Star wordEqSpFold) z -> inSet z ">" = false).
    { apply (Lang_Star_all (fun z => inSet z ">" = false)); [reflexivity|].
      intros a b Ha Hb. rewrite inSet_append, (wordEqSpFold_no_gt a Ha), Hb. reflexivity. }
    rewrite !inSet_append, (wordEqSpFold_no_gt t1 H1), (Hall t2 H2). reflexivity.
Qed.

(** The shape of a MAIL argument that matches: FROM: in any case, white
    space, then the sender (group 1) between an opening bracket and the
    last closing bracket, then the parameters (group 2), if any. *)
Lemma mailFrom_shape arg m :
  FindStringSubmatch mailFromRe arg = Some m ->
  exists kw ws,
    arg = kw +:+ ws +:+ String "<" (m 1%nat +:+ String ">" (m 2%nat))
    /\ asciiToUpper kw = "FROM:"
    /\ allBytes isSpace ws = true
    /\ Lang mailAddrRe (m 1%nat)
    /\ inSet (m 2%nat) ">" = false
    /\ (m 2%nat = "" \/ exists tail, m 2%nat = String SP tail /\ tail <> "").
Proof.
  unfold FindStringSubmatch. intros H.
  apply search_sound in H as (skipped & s & -> & H).
  rewrite rmatch_Group in H. unfold mailFromRe, mailPrefixRe in H.
  rewrite !rmatch_Cat, rmatch_BeginText in H.
  destruct (Nat.eqb (0 + String.length skipped) 0) eqn:Hpos; [|discriminate].
  apply Nat.eqb_eq in Hpos. destruct skipped; [|discriminate]. clear Hpos.
  rewrite append_nil_l in *.
  rewrite <- !rmatch_Cat in H. rewrite rmatch_Cat in H.
  apply rmatch_sound in H as (pre & s1 & c1 & -> & Lpre & H & Hc1).
  rewrite rmatch_Cat, rmatch_Group in H.
  apply rmatch_sound in H as (addr & s2 & c2 & -> & Laddr & H & Hc2).
  rewrite sliceTo_append in H.
  unfold mailSuffixRe in H. rewrite rmatch_Cat in H. unfold Lit at 1 in H.
  rewrite rmatch_Class in H.
  destruct s2 as [|gt rest]; [discriminate|].
  destruct (Ascii.eqb ">" gt) eqn:Hgt; [|discriminate].
  apply Ascii.eqb_eq in Hgt. subst gt.
  apply mailPrefix_shape in Lpre as (kw & ws & -> & Hkw & Hws).
  exists kw, ws.
  assert (Hcap1 : c2 1%nat = c1 1%nat) by (apply Hc2; reflexivity).
  assert (Hcap2 : c2 2%nat = "").
  { rewrite Hc2 by reflexivity. rewrite Hc1 by reflexivity. reflexivity. }
  rewrite rmatch_Cat in H. unfold Opt in H. rewrite rmatch_Alt in H.
  match type of H with
  | match ?first with _ => _ end = _ => destruct first as [res|] eqn:E
  end.
  - injection H as ->.
    rewrite rmatch_Group in E.
    apply rmatch_sound in E as (params & s3 & c3 & -> & Lpar & E & Hc3).
    rewrite sliceTo_append in E. rewrite rmatch_EndText in E.
    destruct s3; [|discriminate]. injection E as <-.
    rewrite append_nil_r.
    unfold setcap at 1 3 5 6. cbn [Nat.eqb].
    unfold setcap at 1 2 3 4. cbn [Nat.eqb].
    rewrite Hc3 by reflexivity. unfold setcap at 1. cbn [Nat.eqb].
    apply mailParams_shape in Lpar as (tail & -> & Hne & Hno).
    split; [rewrite !append_assoc; reflexivity|].
    repeat split; eauto.
  - rewrite rmatch_Eps, rmatch_EndText in H.
    destruct rest; [|discriminate]. injection H as <-.
    unfold setcap. cbn [Nat.eqb]. rewrite Hcap2.
    split; [rewrite !append_assoc; reflexivity|].
    repeat split; auto.
Qed.

(** ** MAIL *)

(** [readyHandler] either leaves the state, the sender and the recipients
    alone, or accepts the sender its argument holds *)
Lemma readyHandler_cases cmd arg w :
  same w (readyHandler cmd arg w)
  \/ (cmd = "MAIL"
      /\ exists m,
           FindStringSubmatch mailFromRe arg = Some m
           /\ ParseEmailAddress (m 1%nat) <> None
           /\ readyHandler cmd arg w
              = enterState MAIL
                  (send ("250 Roger, accepting mail from <" +:+ m 1%nat +:+ ">")
                        (onSession (setFrom (m 1%nat)) w))).
Proof.
  unfold readyHandler.
  destruct (String.eqb cmd "MAIL") eqn:Ecmd; [|left; apply same_ooSeq].
  apply String.eqb_eq in Ecmd.
  destruct (FindStringSubmatch mailFromRe arg) as [m|] eqn:Hm;
    [|left; apply same_warn_send].
  destruct (ParseEmailAddress (m 1%nat)) eqn:Hp; [|left; apply same_warn_send].
  assert (Hacc : forall w0 : W,
             w0 = enterState MAIL
                    (send ("250 Roger, accepting mail from <" +:+ m 1%nat +:+ ">")
                          (onSession (setFrom (m 1%nat)) w)) ->
             same w w0
             \/ (cmd = "MAIL"
                 /\ exists m0,
                      Some m = Some m0
                      /\ ParseEmailAddress (m0 1%nat) <> None
                      /\ w0 = enterState MAIL
                                (send ("250 Roger, accepting mail from <" +:+ m0 1%nat +:+ ">")
                                      (onSession (setFrom (m0 1%nat)) w)))).
  { intros w0 ->. right. split; [assumption|]. exists m.
    split; [reflexivity|]. split; [rewrite Hp; discriminate|reflexivity]. }
  cbv zeta.
  destruct (negb (String.eqb (m 2%nat) "")); [|apply Hacc; reflexivity].
  unfold parseArgs.
  destruct (FindAllStringSubmatch esmtpArgRe (m 2%nat)) as [|c pm]; cbn [negb].
  - left. exact (same_trans _ _ _ (same_logWarn w) (same_warn_send _ _)).
  - destruct (negb (String.eqb (default "" (_ !! "SIZE")) "")); [|apply Hacc; reflexivity].
    destruct (ParseInt32 _) as [v|]; [|left; apply same_warn_send].
    destruct (v >? maxMessageBytes server);
      [left; apply same_warn_send|apply Hacc; reflexivity].
Qed.

(** X21. [readyHandler] enters the MAIL state only on a MAIL command whose
    argument is FROM: in any case, optional white space, and the sender
    between an opening bracket and the last closing bracket of the argument;
    the sender it records is that text, it is not empty, and
    [ParseEmailAddress] accepted it. *)
Theorem accepted_sender_is_bracketed (cmd arg : string) (w : W) :
  state (ss w) <> MAIL ->
  state (ss (readyHandler cmd arg w)) = MAIL ->
  let sender := from (ss (readyHandler cmd arg w)) in
  cmd = "MAIL"
  /\ sender <> ""
  /\ ParseEmailAddress sender <> None
  /\ exists kw ws params,
       arg = kw +:+ ws +:+ String "<" (sender +:+ String ">" params)
       /\ asciiToUpper kw = "FROM:"
       /\ allBytes isSpace ws = true
       /\ inSet params ">" = false.
Proof.
  intros Hst Hmail sender. subst sender.
  destruct (readyHandler_cases cmd arg w) as [(Hs & _)|(Hcmd & m & Hm & Hp & Heq)].
  - rewrite Hs in Hmail. contradiction.
  - rewrite Heq. cbn [enterState onSession ss setState from]. rewrite send_from.
    cbn [onSession ss setFrom from].
    split; [assumption|]. split; [eapply mailFrom_address_nonempty; eassumption|].
    split; [assumption|].
    destruct (mailFrom_shape arg m Hm) as (kw & ws & Harg & Hkw & Hws & _ & Hno & _).
    exists kw, ws, (m 2%nat). auto.
Qed.

Lemma esmtpArg_has_eq x : Lang esmtpArgRe x -> inSet x "=" = true.
Proof.
  unfold esmtpArgRe. intros H.
  apply Lang_Cat_inv in H as (a & x1 & -> & _ & H).
  apply Lang_Cat_inv in H as (b & x2 & -> & _ & H).
  apply Lang_Cat_inv in H as (c & x3 & -> & Hc & _).
  apply Lit_inv in Hc as ->.
  rewrite !inSet_append. cbn [inSet Ascii.eqb Bool.eqb]. rewrite !orb_true_r. reflexivity.
Qed.

Lemma findAll_no_eq fuel : forall s skip pos,
  inSet s "=" = false -> findAll esmtpArgRe fuel skip pos s = [].
Proof.
  induction s as [|a s IH]; intros skip pos Hno.
  - destruct skip; cbn [findAll]; [|reflexivity].
    destruct (rmatch _ _ _ _ _ _) as [[pos' c]|] eqn:E; [|reflexivity].
    apply rmatch_sound in E as (pre & s' & c' & Hs & L & _).
    apply Lang_Group_inv, esmtpArg_has_eq in L.
    destruct pre; [discriminate L|discriminate Hs].
  - assert (Hs : inSet s "=" = false).
    { cbn [inSet] in Hno. destruct (Ascii.eqb "=" a); [discriminate|assumption]. }
    destruct skip; cbn [findAll]; [|apply IH; assumption].
    destruct (rmatch _ _ _ _ _ _) as [[pos' c]|] eqn:E; [|apply IH; assumption].
    apply rmatch_sound in E as (pre & s' & c' & Heq & L & _).
    apply Lang_Group_inv, esmtpArg_has_eq in L.
    rewrite Heq, inSet_append, L in Hno. discriminate.
Qed.

(** X22. A MAIL argument whose parameters hold no KEY=VALUE pair is refused:
    when what follows the closing bracket is not empty and has no equals
    sign, the reply is [501 Unable to parse MAIL ESMTP parameters] and
    the state, the sender and the recipients stay as they are. *)
Theorem MAIL_parameters_without_pair (arg : string) (m : caps) (w : W) :
  FindStringSubmatch mailFromRe arg = Some m ->
  ParseEmailAddress (m 1%nat) <> None ->
  m 2%nat <> "" ->
  inSet (m 2%nat) "=" = false ->
  let w' := readyHandler "MAIL" arg w in
  same w w'
  /\ sent (conn (ss w'))
     = sent (conn (ss w)) ++ ["501 Unable to parse MAIL ESMTP parameters"].
Proof.
  intros Hm Hp Hm2 Hno w'. subst w'. unfold readyHandler.
  cbn [String.eqb Ascii.eqb Bool.eqb]. rewrite Hm.
  destruct (ParseEmailAddress (m 1%nat)); [|contradiction].
  apply String.eqb_neq in Hm2. rewrite Hm2. cbn [negb].
  unfold parseArgs, FindAllStringSubmatch. rewrite findAll_no_eq by assumption.
  cbn [negb]. split.
  - exact (same_trans _ _ _ (same_logWarn w) (same_warn_send _ _)).
  - sess_simpl. reflexivity.
Qed.

(** ** SIZE *)

Lemma parseDigits_acc : forall d acc,
  parseDigits (Z.pos acc) (NilEmpty.string_of_uint d)
  = Some (Z.pos (Pos.of_uint_acc d acc)).
Proof.
  induction d as [|d IH|d IH|d IH|d IH|d IH|d IH|d IH|d IH|d IH|d IH]; intros acc;
    [reflexivity|..];
    cbn [NilEmpty.string_of_uint parseDigits Pos.of_uint_acc];
    match goal with
    | |- (if isDigit ?c then _ else None) = _ =>
        change (isDigit c) with true; cbv iota;
        let k := eval vm_compute in (Z.of_nat (nat_of_ascii c)) in
        change (Z.of_nat (nat_of_ascii c)) with k
    end;
    match goal with
    | |- parseDigits ?v _ = Some (Z.pos (Pos.of_uint_acc _ ?a)) =>
        replace v with (Z.pos a) by lia
    end; apply IH.
Qed.

Lemma parseDigits_uint : forall d,
  parseDigits 0 (NilEmpty.string_of_uint d) = Some (Z.of_N (Pos.of_uint d)).
Proof.
  induction d as [|d IH|d IH|d IH|d IH|d IH|d IH|d IH|d IH|d IH|d IH];
    [reflexivity|exact IH|..];
    cbn [NilEmpty.string_of_uint parseDigits Pos.of_uint];
    match goal with
    | |- (if isDigit ?c then parseDigits ?v _ else None) = Some (Z.of_N (N.pos (Pos.of_uint_acc _ ?a))) =>
        change (isDigit c) with true; cbv iota;
        change v with (Z.pos a)
    end; apply parseDigits_acc.
Qed.

(** [ParseInt32] reads back what [itoa] writes, when it fits 32 bits *)
Lemma ParseInt32_itoa n :
  ParseInt32 (itoa n)
  = if (- 2 ^ 31 <=? n) && (n <=? 2 ^ 31 - 1) then Some n else None.
Proof.
  unfold itoa. destruct n as [|p|p]; [reflexivity| |].
  - cbn [Z.to_int NilZero.string_of_int]. unfold NilZero.string_of_uint.
    pose proof (Unsigned.to_uint_nonnil p) as Hnil.
    pose proof (DecimalPos.Unsigned.of_to p) as Hof.
    pose proof (parseDigits_uint (Pos.to_uint p)) as Hd.
    rewrite Hof in Hd. cbn [Z.of_N] in Hd.
    destruct (Pos.to_uint p) as [|d|d|d|d|d|d|d|d|d|d]; [contradiction|..];
      unfold ParseInt32; cbn [NilEmpty.string_of_uint] in Hd |- *; cbv iota beta;
      rewrite Hd; reflexivity.
  - cbn [Z.to_int NilZero.string_of_int]. unfold NilZero.string_of_uint.
    pose proof (Unsigned.to_uint_nonnil p) as Hnil.
    pose proof (DecimalPos.Unsigned.of_to p) as Hof.
    pose proof (parseDigits_uint (Pos.to_uint p)) as Hd.
    rewrite Hof in Hd. cbn [Z.of_N] in Hd.
    destruct (Pos.to_uint p) as [|d|d|d|d|d|d|d|d|d|d]; [contradiction|..];
      unfold ParseInt32; cbn [NilEmpty.string_of_uint] in Hd |- *; cbv iota beta;
      rewrite Hd; reflexivity.
Qed.

Lemma itoa_nonempty n : itoa n <> "".
Proof.
  unfold itoa. destruct n as [|p|p]; [discriminate| |discriminate].
  cbn [Z.to_int NilZero.string_of_int]. unfold NilZero.string_of_uint.
  pose proof (Unsigned.to_uint_nonnil p) as Hnil.
  destruct (Pos.to_uint p); [contradiction|..]; discriminate.
Qed.

(** ** The replies of a whole session *)

Lemma loopBody_sent w :
  exists new, sent (conn (ss (fst (loopBody w)))) = sent (conn (ss w)) ++ new.
Proof.
  unfold loopBody. destruct (State_eqb (state (ss w)) DATA).
  { cbn [fst]. unfold dataHandler. cbv zeta.
    destruct (dataLoop_replies
                (pending (reader (ss (send "354 Start mail input; end with <CRLF>.<CRLF>" w))))
                "" (send "354 Start mail input; end with <CRLF>.<CRLF>" w))
      as (tail & Hs & _).
    rewrite Hs, send_sent, <- app_assoc. eauto. }
  unfold readLine. destruct (pending (reader (ss w))) as [|line rest].
  { destruct (failure (reader (ss w))); [destruct (state (ss w))| |];
      sess_simpl; solve [exists []; rewrite app_nil_r; reflexivity | eauto]. }
  pose proof (parseCmd_ss line (advance rest w)) as Hss.
  destruct (parseCmd line (advance rest w)) as [[[cmd arg] ok] w1].
  cbn [snd] in Hss.
  assert (Hsent : sent (conn (ss w1)) = sent (conn (ss w))) by (rewrite Hss; reflexivity).
  rewrite <- Hsent.
  repeat match goal with
         | |- context [if ?b then _ else _] => destruct b
         end;
    try solve [sess_simpl; eauto].
  destruct (state (ss w1)); cbn [fst].
  - destruct (greetHandler_replies cmd arg w1) as (new & H & _). eauto.
  - destruct (readyHandler_replies cmd arg w1) as (new & H & _). eauto.
  - destruct (mailHandler_replies cmd arg w1) as (new & H & _). eauto.
  - sess_simpl. exists []. rewrite app_nil_r. reflexivity.
  - sess_simpl. exists []. rewrite app_nil_r. reflexivity.
Qed.

Lemma sessionLoop_sent fuel : forall w,
  exists new, sent (conn (ss (sessionLoop fuel w))) = sent (conn (ss w)) ++ new.
Proof.
  induction fuel as [|fuel IH]; intros w; cbn [sessionLoop].
  - exists []. rewrite app_nil_r. reflexivity.
  - destruct (loopCond w); [|exists []; rewrite app_nil_r; reflexivity].
    destruct (loopBody_sent w) as (new & H).
    destruct (loopBody w) as [w' continue]. cbn [fst] in H.
    destruct continue; [|eauto].
    destruct (IH w') as (new' & H'). rewrite H', H, <- app_assoc. eauto.
Qed.

(** X24. Whatever the client sends, the first message of a session is the
    greeting [220 <domain> Inbucket SMTP ready], and every reply of the
    session comes after it. *)
Theorem greeting_comes_first (sid : Z) (host : string) (rd : Reader) (w : W) :
  exists replies,
    sent (conn (ss (startSession sid host rd w)))
    = ("220 " +:+ domain server +:+ " Inbucket SMTP ready") :: replies.
Proof.
  unfold startSession. cbv zeta.
  destruct (sessionLoop_sent (S (length (pending rd))) (sessionStart sid host rd w))
    as (new & H).
  exists new.
  assert (Hstart : sent (conn (ss (sessionStart sid host rd w)))
                   = ["220 " +:+ domain server +:+ " Inbucket SMTP ready"]).
  { unfold sessionStart, greet. cbv zeta. rewrite send_sent. reflexivity. }
  rewrite Hstart in H.
  destruct (sendError (ss (sessionLoop _ _))); cbn [addConnects logWarn ss]; exact H.
Qed.

(** X25. When the greeting cannot be written, the session ends at once: no
    line of the client is read, the greeting is the only message handed to
    the connection, and nothing is delivered. *)
Theorem greeting_write_failure (sid : Z) (host : string) (rd : Reader) (w : W) :
  connWrite [] ("220 " +:+ domain server +:+ " Inbucket SMTP ready") <> Written ->
  let w' := startSession sid host rd w in
  reader (ss w') = rd
  /\ sent (conn (ss w')) = ["220 " +:+ domain server +:+ " Inbucket SMTP ready"]
  /\ state (ss w') = GREET
  /\ sendError (ss w') <> None
  /\ delivered w' = delivered w
  /\ manager w' = manager w.
Proof.
  intros Hfail w'. subst w'. unfold startSession. cbv zeta.
  assert (Hstop : loopCond (sessionStart sid host rd w) = false
                  /\ sendError (ss (sessionStart sid host rd w)) <> None).
  { unfold loopCond, sessionStart, greet, send. cbv zeta.
    cbn [addConnects onSession ss NewSession conn sent app].
    destruct (connWrite [] ("220 " +:+ domain server +:+ " Inbucket SMTP ready"));
      [| |congruence];
      cbn [logWarn onSession ss setSendError setConn sendError state];
      rewrite andb_false_r; (split; [reflexivity|discriminate]). }
  destruct Hstop as [Hstop Herr].
  rewrite (sessionLoop_stops _ _ Hstop).
  destruct (sendError (ss (sessionStart sid host rd w))) eqn:E; [|contradiction].
  cbn [addConnects logWarn ss delivered manager].
  split; [|split; [|split; [|split; [rewrite E; discriminate|]]]];
    unfold sessionStart, greet, NewSession, addConnects; cbv zeta; sess_simpl; auto.
Qed.

(** ** ESMTP parameters *)

(** every element of [findAll] is a match of the pattern at some offset of
    the text *)
Lemma findAll_In re fuel : forall s skip pos c,
  In c (findAll re fuel skip pos s) ->
  exists pre s' p pos',
    s = pre +:+ s'
    /\ rmatch fuel (Group 0 re) p s' nocaps (fun pos' _ c => Some (pos', c))
       = Some (pos', c).
Proof.
  induction s as [|a s IH]; intros skip pos c H; destruct skip; cbn [findAll] in H.
  - destruct (rmatch _ _ _ _ _ _) as [[pos' c0]|] eqn:E; [|destruct H].
    destruct H as [<-|[]]. exists EmptyString, EmptyString, pos, pos'. auto.
  - destruct H.
  - destruct (rmatch _ _ _ _ _ _) as [[pos' c0]|] eqn:E.
    + destruct H as [<-|H].
      * exists EmptyString, (String a s), pos, pos'. auto.
      * apply IH in H as (pre & s' & p & pos1 & -> & H).
        exists (String a pre), s', p, pos1. auto.
    + apply IH in H as (pre & s' & p & pos1 & -> & H).
      exists (String a pre), s', p, pos1. auto.
  - apply IH in H as (pre & s' & p & pos1 & -> & H).
    exists (String a pre), s', p, pos1. auto.
Qed.

(** a match of the parameter pattern is a space, a word, an equals sign and
    a word; the words are its groups 1 and 2 *)
Lemma esmtpArg_match fuel pos s pos' c :
  rmatch fuel (Group 0 esmtpArgRe) pos s nocaps (fun pos' _ c => Some (pos', c))
  = Some (pos', c) ->
  exists rest,
    s = String SP (c 1%nat +:+ String "=" (c 2%nat +:+ rest))
    /\ Lang (Plus (Class isWord)) (c 1%nat)
    /\ Lang (Plus (Class isWord)) (c 2%nat).
Proof.
  intros H. rewrite rmatch_Group in H. unfold esmtpArgRe, Lit in H.
  rewrite rmatch_Cat, rmatch_Class in H.
  destruct s as [|sp s1]; [discriminate|].
  destruct (Ascii.eqb SP sp) eqn:Hsp; [|discriminate].
  apply Ascii.eqb_eq in Hsp. subst sp.
  rewrite rmatch_Cat, rmatch_Group in H.
  apply rmatch_sound in H as (key & s2 & c1 & -> & Lkey & H & Hc1).
  rewrite sliceTo_append in H.
  rewrite rmatch_Cat, rmatch_Class in H.
  destruct s2 as [|eq s3]; [discriminate|].
  destruct (Ascii.eqb "=" eq) eqn:Heq; [|discriminate].
  apply Ascii.eqb_eq in Heq. subst eq.
  rewrite rmatch_Group in H.
  apply rmatch_sound in H as (val & rest & c2 & -> & Lval & H & Hc2).
  rewrite sliceTo_append in H.
  injection H as _ Hc.
  assert (H1 : c 1%nat = key).
  { rewrite <- Hc. unfold setcap. cbn [Nat.eqb]. rewrite Hc2 by reflexivity.
    unfold setcap. reflexivity. }
  assert (H2 : c 2%nat = val).
  { rewrite <- Hc. unfold setcap. reflexivity. }
  exists rest.
  rewrite H1, H2. auto.
Qed.

Lemma parseArgs_lookup (pm : list caps) : forall (acc : gmap string string) k v,
  fold_left (fun (args : gmap string string) (m : caps) =>
               <[ToUpper (m 1%nat) := m 2%nat]> args) pm acc !! k = Some v ->
  acc !! k = Some v \/ exists m, In m pm /\ k = ToUpper (m 1%nat) /\ v = m 2%nat.
Proof.
  induction pm as [|m pm IH]; intros acc k v H; cbn [fold_left] in H; [auto|].
  apply IH in H as [H|(m0 & Hin & Hk & Hv)].
  - apply lookup_insert_Some in H as [[<- <-]|[_ H]]; [|auto].
    right. exists m. split; [left; reflexivity|auto].
  - right. exists m0. split; [right; assumption|auto].
Qed.

(** X26. [parseArgs] takes its parameters from the text: every entry of the
    map it returns is a KEY=VALUE pair that stands in the argument after a
    space, key and value being non-empty words, and the key of the entry is
    the upper-cased key of the pair. *)
Theorem ESMTP_parameters_from_text (arg : string) (w : W)
    (args : gmap string string) (k v : string) :
  fst (parseArgs arg w) = (args, true) ->
  args !! k = Some v ->
  exists key pre post,
    k = ToUpper key
    /\ arg = pre +:+ String SP (key +:+ String "=" (v +:+ post))
    /\ key <> "" /\ allBytes isWord key = true
    /\ v <> "" /\ allBytes isWord v = true.
Proof.
  unfold parseArgs. intros Hargs Hk.
  destruct (FindAllStringSubmatch esmtpArgRe arg) as [|c pm] eqn:Hpm;
    [discriminate|].
  cbn [fst] in Hargs. injection Hargs as <-.
  apply (parseArgs_lookup (c :: pm) ∅) in Hk as [Hk|(m & Hin & -> & ->)];
    [rewrite lookup_empty in Hk; discriminate|].
  rewrite <- Hpm in Hin. unfold FindAllStringSubmatch in Hin.
  apply findAll_In in Hin as (pre & s' & p & pos' & -> & Hm).
  apply esmtpArg_match in Hm as (post & -> & Lkey & Lval).
  apply Lang_Plus_Class in Lkey as [Hkey Hkne].
  apply Lang_Plus_Class in Lval as [Hval Hvne].
  exists (m 1%nat), pre, post. auto 10.
Qed.

Lemma parseDigits_nonneg : forall s acc un,
  0 <= acc -> parseDigits acc s = Some un -> 0 <= un.
Proof.
  induction s as [|c s IH]; intros acc un Hacc H; cbn [parseDigits] in H.
  - injection H as <-. assumption.
  - destruct (isDigit c) eqn:Hd; [|discriminate].
    apply IH in H; [assumption|].
    unfold isDigit in Hd. cbv zeta in Hd. apply andb_prop in Hd as [Hd _].
    apply Nat.leb_le in Hd. lia.
Qed.

(** a number written with word bytes only has no sign *)
Lemma ParseInt32_word s n :
  allBytes isWord s = true -> ParseInt32 s = Some n -> 0 <= n.
Proof.
  intros Hw H. destruct s as [|c s]; [discriminate|].
  cbn [allBytes] in Hw. apply andb_prop in Hw as [Hc _].
  assert (E : ParseInt32 (String c s)
              = match parseDigits 0 (String c s) with
                | None => None
                | Some un =>
                    if (- 2 ^ 31 <=? un) && (un <=? 2 ^ 31 - 1) then Some un else None
                end).
  { destruct c as [[] [] [] [] [] [] [] []];
      try (vm_compute in Hc; discriminate Hc); reflexivity. }
  rewrite E in H.
  destruct (parseDigits 0 (String c s)) as [un|] eqn:Ed; [|discriminate].
  destruct ((- 2 ^ 31 <=? un) && (un <=? 2 ^ 31 - 1)); [|discriminate].
  injection H as <-. eapply parseDigits_nonneg; [|exact Ed]. lia.
Qed.

(** X27. The size a MAIL command declares is never negative: the value of
    SIZE that [parseArgs] returns is a word, so that no sign reaches
    [strconv.ParseInt], and what is compared with [maxMessageBytes] lies
    between 0 and 2^31 - 1. *)
Theorem declared_SIZE_not_negative (arg : string) (w : W)
    (args : gmap string string) (size : string) (n : Z) :
  fst (parseArgs arg w) = (args, true) ->
  args !! "SIZE" = Some size ->
  ParseInt32 size = Some n ->
  0 <= n <= 2 ^ 31 - 1.
Proof.
  unfold parseArgs. intros Hargs Hk Hn.
  destruct (FindAllStringSubmatch esmtpArgRe arg) as [|c pm] eqn:Hpm;
    [discriminate|].
  cbn [fst] in Hargs. injection Hargs as <-.
  apply (parseArgs_lookup (c :: pm) ∅) in Hk as [Hk|(m & Hin & _ & ->)];
    [rewrite lookup_empty in Hk; discriminate|].
  rewrite <- Hpm in Hin. unfold FindAllStringSubmatch in Hin.
  apply findAll_In in Hin as (pre & s' & p & pos' & -> & Hm).
  apply esmtpArg_match in Hm as (post & _ & _ & Lval).
  apply Lang_Plus_Class in Lval as [Hval _].
  split; [eapply ParseInt32_word; eassumption|].
  apply ParseInt32_range in Hn. lia.
Qed.

(** the values [parseArgs] returns are words *)
Lemma parseArgs_value_word arg w args k v :
  fst (parseArgs arg w) = (args, true) ->
  args !! k = Some v ->
  allBytes isWord v = true.
Proof.
  unfold parseArgs. intros Hargs Hk.
  destruct (FindAllStringSubmatch esmtpArgRe arg) as [|c pm] eqn:Hpm;
    [discriminate|].
  cbn [fst] in Hargs. injection Hargs as <-.
  apply (parseArgs_lookup (c :: pm) ∅) in Hk as [Hk|(m & Hin & _ & ->)];
    [rewrite lookup_empty in Hk; discriminate|].
  rewrite <- Hpm in Hin. unfold FindAllStringSubmatch in Hin.
  apply findAll_In in Hin as (pre & s' & p & pos' & -> & Hm).
  apply esmtpArg_match in Hm as (post & _ & _ & Lval).
  apply Lang_Plus_Class in Lval as [Hval _]. exact Hval.
Qed.

(** the decimal text of a negative number begins with its sign, which is
    no word byte *)
Lemma itoa_word_nonneg n : allBytes isWord (itoa n) = true -> 0 <= n.
Proof.
  destruct n as [|p|p]; [lia|lia|].
  unfold itoa. cbn [Z.to_int NilZero.string_of_int allBytes].
  change (isWord "-") with false. discriminate.
Qed.

(** X23. The size that EHLO advertises is [maxMessageBytes] in decimal.  A
    MAIL command can only declare that text as its SIZE when
    [maxMessageBytes] is not negative (the text of a negative number is not
    a SIZE value [parseArgs] returns).  The command is then accepted when
    [maxMessageBytes] is at most 2^31 - 1, and refused with
    [501 Unable to parse SIZE as an integer] when it is larger. *)
Theorem advertised_SIZE_declared
    (arg : string) (m : caps) (addr : string * string)
    (args : gmap string string) (w : W) :
  FindStringSubmatch mailFromRe arg = Some m ->
  ParseEmailAddress (m 1%nat) = Some addr ->
  m 2%nat <> "" ->
  fst (parseArgs (m 2%nat) w) = (args, true) ->
  args !! "SIZE" = Some (itoa (maxMessageBytes server)) ->
  let w' := readyHandler "MAIL" arg w in
  0 <= maxMessageBytes server
  /\ (maxMessageBytes server <= 2 ^ 31 - 1 ->
      state (ss w') = MAIL
      /\ from (ss w') = m 1%nat
      /\ sent (conn (ss w'))
         = sent (conn (ss w)) ++ ["250 Roger, accepting mail from <" +:+ m 1%nat +:+ ">"])
  /\ (2 ^ 31 - 1 < maxMessageBytes server ->
      same w w'
      /\ sent (conn (ss w'))
         = sent (conn (ss w)) ++ ["501 Unable to parse SIZE as an integer"]).
Proof.
  intros Hm Haddr Hm2 Hargs Hsize w'. subst w'.
  assert (Hnonneg : 0 <= maxMessageBytes server).
  { apply itoa_word_nonneg. eapply parseArgs_value_word; eassumption. }
  split; [exact Hnonneg|].
  pose proof (ParseInt32_itoa (maxMessageBytes server)) as Hp.
  split; intros Hr.
  - assert (Hv : ParseInt32 (itoa (maxMessageBytes server)) = Some (maxMessageBytes server)).
    { rewrite Hp.
      destruct (- 2 ^ 31 <=? maxMessageBytes server) eqn:E1; [|apply Z.leb_gt in E1; lia].
      destruct (maxMessageBytes server <=? 2 ^ 31 - 1) eqn:E2; [|apply Z.leb_gt in E2; lia].
      reflexivity. }
    assert (Hd : default "" (args !! "SIZE") = itoa (maxMessageBytes server))
      by (rewrite Hsize; reflexivity).
    rewrite (readyHandler_MAIL_SIZE _ _ _ _ _ _ _ Hm Haddr Hm2 Hargs Hd
               (itoa_nonempty _) Hv).
    destruct (maxMessageBytes server >? maxMessageBytes server) eqn:E;
      [rewrite Z.gtb_ltb in E; apply Z.ltb_lt in E; lia|].
    cbn [enterState onSession ss setState state from conn].
    autorewrite with session. cbn. auto.
  - assert (Hv : ParseInt32 (itoa (maxMessageBytes server)) = None).
    { rewrite Hp.
      destruct (- 2 ^ 31 <=? maxMessageBytes server) eqn:E1; [|reflexivity].
      destruct (maxMessageBytes server <=? 2 ^ 31 - 1) eqn:E2; [|reflexivity].
      apply Z.leb_le in E2. lia. }
    unfold readyHandler. cbn [String.eqb Ascii.eqb Bool.eqb].
    rewrite Hm, Haddr.
    destruct (String.eqb (m 2%nat) "") eqn:E2; [apply String.eqb_eq in E2; contradiction|].
    cbn [negb]. rewrite (parseArgs_unchanged _ _ _ Hargs). cbn [negb].
    rewrite Hsize. cbn [default from_option Datatypes.id].
    destruct (String.eqb (itoa (maxMessageBytes server)) "") eqn:Es;
      [apply String.eqb_eq in Es; destruct (itoa_nonempty _ Es)|].
    cbn [negb]. rewrite Hv. split.
    + apply same_warn_send.
    + sess_simpl. reflexivity.
Qed.

(** ** RCPT *)

(** X28. [mailHandler] adds a recipient only for an argument of at least
    four bytes that begins with TO: in any case; the recipient is the one
    [NewRecipient] returns for the rest of the argument with the angle
    brackets and spaces at both of its ends cut off, however many there
    are; it is added at the end of the list, which was below [maxRecips],
    and the reply names the address so cut. *)
Theorem RCPT_address_is_trimmed (arg : string) (w : W) :
  let w' := mailHandler "RCPT" arg w in
  recipients (ss w') <> recipients (ss w) ->
  exists addr recip,
    4 <= len arg
    /\ ToUpper (sliceTo 3 arg) = "TO:"
    /\ isTrimOf "<> " (sliceFrom 3 arg) addr
    /\ NewRecipient addr = Some recip
    /\ Z.of_nat (length (recipients (ss w))) < maxRecips server
    /\ recipients (ss w') = recipients (ss w) ++ [recip]
    /\ sent (conn (ss w'))
       = sent (conn (ss w)) ++ ["250 I'll make sure <" +:+ addr +:+ "> gets this"].
Proof.
  intros w'. subst w'. unfold mailHandler. cbn [String.eqb Ascii.eqb Bool.eqb].
  destruct (len arg <? 4) eqn:Hlen; cbn [orb].
  { sess_simpl. congruence. }
  destruct (String.eqb (ToUpper (sliceTo 3 arg)) "TO:") eqn:Hto; cbn [negb].
  2: { sess_simpl. congruence. }
  destruct (NewRecipient (Trim (sliceFrom 3 arg) "<> ")) as [recip|] eqn:Hnew.
  2: { sess_simpl. congruence. }
  destruct (Z.of_nat (length (recipients (ss w))) >=? maxRecips server) eqn:Hmax.
  { sess_simpl. congruence. }
  intros _. exists (Trim (sliceFrom 3 arg) "<> "), recip.
  apply Z.ltb_ge in Hlen. apply String.eqb_eq in Hto.
  rewrite Z.geb_leb in Hmax. apply Z.leb_gt in Hmax.
  sess_simpl. repeat split; auto. apply Trim_spec.
Qed.

End Smtp.

(** ** The model at concrete inputs *)

Local Abbreviation demoMgr := (list (string * string)).

(** a whole session of the concrete environment on the given lines *)
Local Abbreviation demoRun lines :=
  (startSession asciiToUpper demoParseEmailAddress demoNewRecipient demoMgr
     demoDeliver demoTimeNow demoConnWrite demoServer 1 "10.0.0.1" (wire lines)
     demoWorld).

Example scenario_happy_path :
  let w := demoRun ["HELO client.example"; "MAIL FROM:<a@ex>"; "RCPT TO:<b@ex>";
                    "DATA"; "Subject: hi"; ""; "body"; "."; "QUIT"] in
  sent (conn (ss w))
  = ["220 mail.test Inbucket SMTP ready";
     "250 Great, let's get this show on the road";
     "250 Roger, accepting mail from <a@ex>";
     "250 I'll make sure <b@ex> gets this";
     "354 Start mail input; end with <CRLF>.<CRLF>";
     "250 Mail accepted for delivery";
     "221 Goodnight and good luck"]
  /\ state (ss w) = QUIT
  /\ map fst (manager w) = ["b@ex"].
Proof. vm_compute. auto. Qed.

Example scenario_ehlo :
  sent (conn (ss (demoRun ["EHLO x"])))
  = ["220 mail.test Inbucket SMTP ready";
     "250-Great, let's get this show on the road"; "250-8BITMIME"; "250 SIZE 1000"].
Proof. vm_compute. reflexivity. Qed.

Example scenario_out_of_sequence :
  sent (conn (ss (demoRun ["MAIL FROM:<a@ex>"])))
  = ["220 mail.test Inbucket SMTP ready"; "503 Command MAIL is out of sequence"].
Proof. vm_compute. reflexivity. Qed.

Example scenario_recipient_cap :
  let w := demoRun ["HELO x"; "MAIL FROM:<a@ex>"; "RCPT TO:<b@ex>"; "RCPT TO:<c@ex>";
                    "RCPT TO:<d@ex>"] in
  last (sent (conn (ss w))) = Some "552 Maximum limit of 2 recipients reached"
  /\ state (ss w) = MAIL
  /\ map Address (recipients (ss w)) = ["b@ex"; "c@ex"].
Proof. vm_compute. auto. Qed.

Example scenario_oversize_announced :
  let w := demoRun ["HELO x"; "MAIL FROM:<a@ex> SIZE=1001"] in
  last (sent (conn (ss w))) = Some "552 Max message size exceeded"
  /\ state (ss w) = READY.
Proof. vm_compute. auto. Qed.

Example scenario_size_at_limit :
  let w := demoRun ["HELO x"; "MAIL FROM:<a@ex> SIZE=1000"] in
  last (sent (conn (ss w))) = Some "250 Roger, accepting mail from <a@ex>"
  /\ state (ss w) = MAIL.
Proof. vm_compute. auto. Qed.

Example scenario_dot_stuffing :
  let w := demoRun ["HELO x"; "MAIL FROM:<a@ex>"; "RCPT TO:<b@ex>"; "DATA";
                    "..hello"; "."] in
  map snd (manager w)
  = ["Received: from x ([10.0.0.1]) by mail.test" +:+ CRLF
     +:+ "  for <b@ex>; Mon, 02 Jan 2006 15:04:05 -0700 (MST)" +:+ CRLF
     +:+ ".hello" +:+ CRLF].
Proof. vm_compute. reflexivity. Qed.

(** a delivery that fails stops the loop: the mailbox after it gets
    nothing, the one before it keeps its message *)
Example scenario_delivery_failure :
  let w := demoRun ["HELO x"; "MAIL FROM:<a@ex>"; "RCPT TO:<b@ex>"; "RCPT TO:<full@ex>";
                    "DATA"; "hi"; "."] in
  last (sent (conn (ss w))) = Some "451 Failed to store message for full"
  /\ state (ss w) = READY
  /\ map fst (manager w) = ["b@ex"]
  /\ map (fun c => Address (dcRecip c)) (delivered w) = ["b@ex"; "full@ex"].
Proof. vm_compute. auto. Qed.

(** a SIZE that does not fit 32 signed bits is a parse error, whatever the
    configured maximum *)
Example scenario_size_out_of_range :
  let w := startSession asciiToUpper demoParseEmailAddress demoNewRecipient demoMgr
             demoDeliver demoTimeNow demoConnWrite
             (mkServer "mail.test" 3000000000 2) 1 "10.0.0.1"
             (wire ["HELO x"; "MAIL FROM:<a@ex> SIZE=3000000000"]) demoWorld in
  last (sent (conn (ss w))) = Some "501 Unable to parse SIZE as an integer"
  /\ state (ss w) = READY.
Proof. vm_compute. auto. Qed.

(** ** The theorems at concrete inputs *)

Lemma DATA_has_sender_and_recipients_witness :
  let w := sessionLoop asciiToUpper demoParseEmailAddress demoNewRecipient demoMgr
             demoDeliver demoTimeNow demoConnWrite demoServer 4
             (sessionStart demoMgr demoConnWrite demoServer 1 "10.0.0.1"
                (wire ["HELO client.example"; "MAIL FROM:<a@ex>"; "RCPT TO:<b@ex>"; "DATA"])
                demoWorld) in
  state (ss w) = DATA
  /\ (1 <= length (recipients (ss w)))%nat
  /\ from (ss w) <> "".
Proof.
  intros w.
  destruct (sessionLoop_Reachable asciiToUpper demoParseEmailAddress demoNewRecipient
              demoMgr demoDeliver demoTimeNow demoConnWrite demoServer 4 _
              (reach_start asciiToUpper demoParseEmailAddress demoNewRecipient
                 demoMgr demoDeliver demoTimeNow demoConnWrite demoServer 1 "10.0.0.1"
                 (wire ["HELO client.example"; "MAIL FROM:<a@ex>"; "RCPT TO:<b@ex>"; "DATA"])
                 demoWorld)) as [continue Hr].
  split; [vm_compute; reflexivity|].
  apply (DATA_has_sender_and_recipients _ _ _ _ _ _ _ _ _ continue Hr).
  vm_compute. reflexivity.
Defined.

Lemma parseCmd_cases_witness :
  fst (parseCmd asciiToUpper demoMgr ("mail FROM:<a@ex>  " +:+ CRLF) demoWorld)
  = ("MAIL", "FROM:<a@ex>", true).
Proof.
  pose proof (parseCmd_cases asciiToUpper demoMgr ("mail FROM:<a@ex>  " +:+ CRLF) demoWorld)
    as H.
  cbv zeta in H. destruct H as (_ & _ & _ & _ & _ & _ & H).
  destruct H as (_ & _ & H); [vm_compute; lia|vm_compute; reflexivity|].
  rewrite H. vm_compute. reflexivity.
Defined.

Lemma dataHandler_size_limit_witness :
  let exact := demoSessionAt DATA [rcptB] (wire ["abcd"; "."]) in
  let over := demoSessionAt DATA [rcptB] (wire ["abcd"; "e"; "."]) in
  let run := dataHandler demoMgr storeDeliver demoTimeNow demoConnWrite tinyServer in
  (sent (conn (ss (run exact)))
   = ["354 Start mail input; end with <CRLF>.<CRLF>"; "250 Mail accepted for delivery"]
   /\ state (ss (run exact)) = READY)
  /\ (sent (conn (ss (run over)))
      = ["354 Start mail input; end with <CRLF>.<CRLF>";
         "552 Maximum message size exceeded"]
      /\ state (ss (run over)) = READY
      /\ from (ss (run over)) = ""
      /\ recipients (ss (run over)) = []).
Proof.
  intros exact over run. split.
  - destruct (dataHandler_size_limit demoMgr storeDeliver demoTimeNow demoConnWrite
                tinyServer exact) as [H _].
    destruct (H ["abcd" +:+ CRLF] ("." +:+ CRLF) []) as [_ H250].
    + vm_compute. reflexivity.
    + repeat constructor.
    + vm_compute. reflexivity.
    + vm_compute. reflexivity.
    + apply H250. intros. reflexivity.
  - destruct (dataHandler_size_limit demoMgr storeDeliver demoTimeNow demoConnWrite
                tinyServer over) as [_ H].
    apply (H ["abcd" +:+ CRLF] ("e" +:+ CRLF) ["." +:+ CRLF]).
    + vm_compute. reflexivity.
    + repeat constructor.
    + vm_compute. reflexivity.
    + vm_compute. discriminate.
    + vm_compute. reflexivity.
Defined.

Lemma dataHandler_dot_unstuffing_witness :
  let body := ["Subject: hi" +:+ CRLF; ".hidden" +:+ CRLF; ".." +:+ CRLF] in
  let w := demoSessionAt DATA [rcptB; rcptNoStore; rcptC]
             (mkReader (dotStuff body ++ ["." +:+ CRLF]) EOF) in
  let w' := dataHandler demoMgr demoDeliver demoTimeNow demoConnWrite demoServer w in
  exists calls,
    delivered w' = delivered w ++ calls
    /\ manager w' = replay demoMgr demoDeliver calls (manager w)
    /\ Forall (fun c => dcBody c = joinLines body) calls
    /\ map dcRecip calls = [rcptB; rcptC]
    /\ map fst (manager w') = ["b@ex"; "c@ex"].
Proof.
  intros body w w'.
  destruct (dataHandler_dot_unstuffing demoMgr demoDeliver demoTimeNow demoConnWrite
              demoServer w) as (_ & _ & _ & _ & _ & H).
  destruct (H body ("." +:+ CRLF) [] eq_refl eq_refl)
    as (calls & Hdel & Hman & Hall & _ & _).
  exists calls. split; [exact Hdel|]. split; [exact Hman|]. split; [exact Hall|].
  assert (Hcalls : calls = delivered w') by (unfold w'; rewrite Hdel; reflexivity).
  rewrite Hcalls. split; vm_compute; reflexivity.
Defined.

Lemma readyHandler_SIZE_limit_witness :
  let w := demoSessionAt READY [] (wire []) in
  let atLimit := readyHandler asciiToUpper demoParseEmailAddress demoMgr demoConnWrite
                   demoServer "MAIL" "FROM:<s@ex> SIZE=1000" w in
  let above := readyHandler asciiToUpper demoParseEmailAddress demoMgr demoConnWrite
                 demoServer "MAIL" "FROM:<s@ex> BODY=8BITMIME size=1001" w in
  (sent (conn (ss atLimit)) = ["250 Roger, accepting mail from <s@ex>"]
   /\ state (ss atLimit) = MAIL
   /\ from (ss atLimit) = "s@ex")
  /\ (sent (conn (ss above)) = ["552 Max message size exceeded"]
      /\ state (ss above) = READY
      /\ from (ss above) = "a@ex").
Proof.
  intros w atLimit above. split.
  - pose (m := match FindStringSubmatch mailFromRe "FROM:<s@ex> SIZE=1000" with
               | Some m => m
               | None => nocaps
               end).
    pose (args := fst (fst (parseArgs asciiToUpper demoMgr (m 2%nat) w))).
    destruct (readyHandler_SIZE_limit asciiToUpper demoParseEmailAddress demoMgr
                demoConnWrite demoServer "FROM:<s@ex> SIZE=1000" m ("s@ex", "") args
                "1000" 1000 w) as (_ & _ & H).
    + vm_compute. reflexivity.
    + vm_compute. reflexivity.
    + vm_compute. discriminate.
    + vm_compute. reflexivity.
    + vm_compute. reflexivity.
    + discriminate.
    + vm_compute. reflexivity.
    + apply H. reflexivity.
  - pose (m := match FindStringSubmatch mailFromRe "FROM:<s@ex> BODY=8BITMIME size=1001" with
               | Some m => m
               | None => nocaps
               end).
    pose (args := fst (fst (parseArgs asciiToUpper demoMgr (m 2%nat) w))).
    destruct (readyHandler_SIZE_limit asciiToUpper demoParseEmailAddress demoMgr
                demoConnWrite demoServer "FROM:<s@ex> BODY=8BITMIME size=1001" m
                ("s@ex", "") args "1001" 1001 w) as (_ & H & _).
    + vm_compute. reflexivity.
    + vm_compute. reflexivity.
    + vm_compute. discriminate.
    + vm_compute. reflexivity.
    + vm_compute. reflexivity.
    + discriminate.
    + vm_compute. reflexivity.
    + apply H. reflexivity.
Defined.

Lemma mailHandler_RCPT_limit_witness :
  let accept := mailHandler asciiToUpper demoNewRecipient demoMgr demoConnWrite demoServer
                  "RCPT" "to:<c@ex>" (demoSessionAt MAIL [rcptB] (wire [])) in
  let reject := mailHandler asciiToUpper demoNewRecipient demoMgr demoConnWrite demoServer
                  "RCPT" "TO:<d@ex>" (demoSessionAt MAIL [rcptB; rcptC] (wire [])) in
  (sent (conn (ss accept)) = ["250 I'll make sure <c@ex> gets this"]
   /\ recipients (ss accept) = [rcptB; rcptC]
   /\ state (ss accept) = MAIL)
  /\ (sent (conn (ss reject)) = ["552 Maximum limit of 2 recipients reached"]
      /\ recipients (ss reject) = [rcptB; rcptC]
      /\ state (ss reject) = MAIL).
Proof.
  intros accept reject. split.
  - destruct (mailHandler_RCPT_limit asciiToUpper demoNewRecipient demoMgr demoConnWrite
                demoServer "to:<c@ex>" rcptC (demoSessionAt MAIL [rcptB] (wire [])))
      as [H _]; try reflexivity.
    + vm_compute. discriminate.
    + apply H. reflexivity.
  - destruct (mailHandler_RCPT_limit asciiToUpper demoNewRecipient demoMgr demoConnWrite
                demoServer "TO:<d@ex>" (mkRecipient "d@ex" "d@ex" true)
                (demoSessionAt MAIL [rcptB; rcptC] (wire [])))
      as [_ H]; try reflexivity.
    + vm_compute. discriminate.
    + apply H. reflexivity.
Defined.

Lemma mailHandler_DATA_argument_rejected_witness :
  let w := demoSessionAt MAIL [rcptB] (wire []) in
  let w' := mailHandler asciiToUpper demoNewRecipient demoMgr demoConnWrite demoServer
              "DATA" "now" w in
  sent (conn (ss w')) = ["501 DATA command should not have any arguments"]
  /\ state (ss w') = MAIL
  /\ from (ss w') = "a@ex"
  /\ recipients (ss w') = [rcptB].
Proof.
  intros w w'.
  apply (mailHandler_DATA_argument_rejected asciiToUpper demoNewRecipient demoMgr
           demoConnWrite demoServer "now" w); [reflexivity|discriminate|discriminate].
Defined.

Lemma deliveries_after_terminator_witness :
  let w := demoSessionAt DATA [rcptB; rcptNoStore; rcptFull; rcptC] (wire []) in
  let w' := dataLoop demoMgr demoDeliver demoTimeNow demoConnWrite demoServer
              ["." +:+ CRLF] "hi" w in
  exists calls,
    delivered w' = delivered w ++ calls
    /\ manager w' = replay demoMgr demoDeliver calls (manager w)
    /\ map dcRecip calls = [rcptB; rcptFull]
    /\ sent (conn (ss w')) = ["451 Failed to store message for full"]
    /\ state (ss w') = READY.
Proof.
  intros w w'.
  destruct (deliveries_after_terminator demoMgr demoDeliver demoTimeNow demoConnWrite
              demoServer ("." +:+ CRLF) [] "hi" w eq_refl)
    as (calls & Hdel & Hman & _ & Hst & _ & _ & Hcases).
  exists calls. split; [exact Hdel|]. split; [exact Hman|].
  assert (Hcalls : calls = delivered w') by (unfold w'; rewrite Hdel; reflexivity).
  rewrite Hcalls.
  split; [vm_compute; reflexivity|]. split; [vm_compute; reflexivity|exact Hst].
Defined.

(** C9 as the claim has it fails: one recipient that is not stored, no
    [Deliver] call, and the counter still goes from 0 to 1. *)
Lemma received_total_counts_unstored :
  ~ countsStoredOnly demoMgr demoDeliver demoTimeNow demoConnWrite demoServer ""
      (demoSessionAt DATA [rcptNoStore] (wire [])).
Proof.
  unfold countsStoredOnly. intros H.
  specialize (H eq_refl). vm_compute in H. discriminate H.
Defined.

Lemma received_total_per_recipient_witness :
  let w := demoSessionAt DATA [rcptB; rcptNoStore; rcptC] (wire []) in
  let w' := mailDataComplete demoMgr demoDeliver demoTimeNow demoConnWrite demoServer
              "hi" w in
  expReceivedTotal w' = 3
  /\ (exists calls,
        delivered w' = calls
        /\ manager w' = replay demoMgr demoDeliver calls []
        /\ map dcRecip calls = [rcptB; rcptC]
        /\ Forall (fun c => ShouldStore (dcRecip c) = true) calls)
  /\ length (delivered w') = 2%nat
  /\ sent (conn (ss w')) = ["250 Mail accepted for delivery"].
Proof.
  intros w w'.
  apply (received_total_per_recipient demoMgr demoDeliver demoTimeNow demoConnWrite
           demoServer "hi" w).
  vm_compute. reflexivity.
Defined.

(** ** The further theorems at concrete inputs *)

(** the loop of the concrete environment after [n] passes over the given
    lines *)
Local Abbreviation demoLoop n lines :=
  (sessionLoop asciiToUpper demoParseEmailAddress demoNewRecipient demoMgr
     demoDeliver demoTimeNow demoConnWrite demoServer n
     (sessionStart demoMgr demoConnWrite demoServer 1 "10.0.0.1" (wire lines) demoWorld)).

Local Abbreviation demoPass w :=
  (loopBody asciiToUpper demoParseEmailAddress demoNewRecipient demoMgr
     demoDeliver demoTimeNow demoConnWrite demoServer w).

Lemma demoLoop_Reachable n lines :
  exists continue,
    Reachable asciiToUpper demoParseEmailAddress demoNewRecipient demoMgr
      demoDeliver demoTimeNow demoConnWrite demoServer (demoLoop n lines) continue.
Proof. apply sessionLoop_Reachable, reach_start. Qed.

Lemma idle_session_is_clean_witness :
  let w := demoLoop 4 ["HELO client.example"; "MAIL FROM:<a@ex>"; "RCPT TO:<b@ex>"; "RSET"] in
  state (ss w) = READY /\ from (ss w) = "" /\ recipients (ss w) = [].
Proof.
  intros w.
  destruct (demoLoop_Reachable 4
              ["HELO client.example"; "MAIL FROM:<a@ex>"; "RCPT TO:<b@ex>"; "RSET"])
    as [continue Hr].
  split; [vm_compute; reflexivity|].
  apply (idle_session_is_clean _ _ _ _ _ _ _ _ w continue Hr).
  right. vm_compute. reflexivity.
Defined.

Lemma recipients_within_limit_witness :
  let w := demoLoop 5 ["HELO x"; "MAIL FROM:<a@ex>"; "RCPT TO:<b@ex>"; "RCPT TO:<c@ex>";
                       "RCPT TO:<d@ex>"] in
  Z.of_nat (length (recipients (ss w))) <= Z.max 0 (maxRecips demoServer).
Proof.
  intros w.
  destruct (demoLoop_Reachable 5
              ["HELO x"; "MAIL FROM:<a@ex>"; "RCPT TO:<b@ex>"; "RCPT TO:<c@ex>";
               "RCPT TO:<d@ex>"]) as [continue Hr].
  apply (recipients_within_limit _ _ _ _ _ _ _ _ w continue Hr).
Defined.

Lemma envelope_passed_policy_witness :
  let w := demoLoop 3 ["HELO x"; "MAIL FROM:<a@ex>"; "RCPT TO:<b@ex>"] in
  Forall (fun r => exists addr, demoNewRecipient addr = Some r) (recipients (ss w))
  /\ (state (ss w) = MAIL \/ state (ss w) = DATA ->
      demoParseEmailAddress (from (ss w)) <> None).
Proof.
  intros w.
  destruct (demoLoop_Reachable 3 ["HELO x"; "MAIL FROM:<a@ex>"; "RCPT TO:<b@ex>"])
    as [continue Hr].
  apply (envelope_passed_policy _ _ _ _ _ _ _ _ w continue Hr).
Defined.

Lemma remoteDomain_set_once_witness :
  let w := demoLoop 1 ["HELO client.example"; "HELO other.example"] in
  remoteDomain (ss (fst (demoPass w))) = remoteDomain (ss w).
Proof.
  intros w.
  destruct (demoLoop_Reachable 1 ["HELO client.example"; "HELO other.example"])
    as [continue Hr].
  apply (remoteDomain_set_once _ _ _ _ _ _ _ _ w continue Hr).
  vm_compute. discriminate.
Defined.

Lemma command_gets_reply_witness :
  let w := demoSessionAt READY [] (wire ["NOOP"]) in
  exists new,
    sent (conn (ss (fst (demoPass w)))) = sent (conn (ss w)) ++ new
    /\ (new <> [] \/ (state (ss w) = MAIL /\ state (ss (fst (demoPass w))) = DATA)).
Proof.
  intros w.
  apply (command_gets_reply asciiToUpper demoParseEmailAddress demoNewRecipient demoMgr
           demoDeliver demoTimeNow demoConnWrite demoServer w).
  - right. left. reflexivity.
  - vm_compute. discriminate.
Defined.

Lemma no_delivery_without_terminator_witness :
  let w := demoSessionAt DATA [rcptB] (wire ["hello"; "world"]) in
  let w' := dataHandler demoMgr demoDeliver demoTimeNow demoConnWrite demoServer w in
  delivered w' = delivered w
  /\ manager w' = manager w
  /\ expReceivedTotal w' = expReceivedTotal w
  /\ (state (ss w') = READY \/ state (ss w') = QUIT).
Proof.
  intros w w'.
  apply (no_delivery_without_terminator demoMgr demoDeliver demoTimeNow demoConnWrite
           demoServer w).
  repeat constructor.
Defined.

Lemma data_phase_read_failure_witness :
  let w := demoSessionAt DATA [rcptB] (mkReader ["hello" +:+ CRLF] TimeoutError) in
  let w' := dataHandler demoMgr demoDeliver demoTimeNow demoConnWrite demoServer w in
  state (ss w') = QUIT
  /\ from (ss w') = "a@ex"
  /\ recipients (ss w') = [rcptB]
  /\ sent (conn (ss w'))
     = ["354 Start mail input; end with <CRLF>.<CRLF>"; "221 Idle timeout, bye bye"].
Proof.
  intros w w'.
  apply (data_phase_read_failure demoMgr demoDeliver demoTimeNow demoConnWrite
           demoServer w).
  - repeat constructor.
  - vm_compute. discriminate.
Defined.

Lemma data_phase_leaves_rest_unread_witness :
  let w := demoSessionAt DATA [rcptB] (wire ["hi"; "."; "QUIT"]) in
  let w' := dataHandler demoMgr demoDeliver demoTimeNow demoConnWrite demoServer w in
  pending (reader (ss w')) = ["QUIT" +:+ CRLF] /\ state (ss w') = READY.
Proof.
  intros w w'.
  apply (data_phase_leaves_rest_unread demoMgr demoDeliver demoTimeNow demoConnWrite
           demoServer ["hi" +:+ CRLF] ("." +:+ CRLF) ["QUIT" +:+ CRLF] w).
  - reflexivity.
  - repeat constructor.
  - vm_compute. discriminate.
  - left. reflexivity.
Defined.

Lemma unstored_message_accepted_witness :
  let w := demoSessionAt DATA [rcptNoStore] (wire []) in
  let w' := mailDataComplete demoMgr demoDeliver demoTimeNow demoConnWrite demoServer
              "hi" w in
  delivered w' = delivered w
  /\ manager w' = manager w
  /\ sent (conn (ss w')) = sent (conn (ss w)) ++ ["250 Mail accepted for delivery"]
  /\ expReceivedTotal w'
     = Nat.iter (length (recipients (ss w))) (fun v => Int_Add v 1) (expReceivedTotal w).
Proof.
  intros w.
  apply (unstored_message_accepted demoMgr demoDeliver demoTimeNow demoConnWrite
           demoServer "hi" w).
  repeat constructor.
Defined.

Lemma parseHelloArgument_spec_witness :
  "client.example" <> ""
  /\ inSet "client.example" SP = false
  /\ ("client.example extra" = "client.example"
      \/ exists rest, "client.example extra" = "client.example" +:+ String SP rest).
Proof.
  apply (proj1 (parseHelloArgument_spec "client.example extra") "client.example").
  vm_compute. reflexivity.
Defined.

Lemma greetHandler_hello_witness :
  let w := demoSessionAt GREET [] (wire []) in
  let w' := greetHandler demoMgr demoConnWrite demoServer "EHLO" "client.example" w in
  state (ss w') = READY
  /\ remoteDomain (ss w') = "client.example"
  /\ from (ss w') = from (ss w)
  /\ recipients (ss w') = recipients (ss w)
  /\ sent (conn (ss w'))
     = ["250-Great, let's get this show on the road"; "250-8BITMIME"; "250 SIZE 1000"].
Proof.
  intros w.
  exact (greetHandler_hello demoMgr demoConnWrite demoServer "EHLO" "client.example" w
           (or_intror eq_refl)).
Defined.

Lemma out_of_sequence_witness :
  let w := demoSessionAt GREET [] (wire []) in
  greetHandler demoMgr demoConnWrite demoServer "RCPT" "TO:<b@ex>" w
  = logWarn demoMgr (send demoMgr demoConnWrite "503 Command RCPT is out of sequence" w).
Proof.
  intros w.
  destruct (out_of_sequence asciiToUpper demoParseEmailAddress demoNewRecipient demoMgr
              demoConnWrite demoServer "RCPT" "TO:<b@ex>" w) as (H & _).
  apply H; discriminate.
Defined.

Lemma undisturbing_commands_witness :
  let w := demoSessionAt MAIL [rcptB] (wire ["noop"; "QUIT"]) in
  let w' := fst (demoPass w) in
  unchanged demoMgr w w'
  /\ snd (demoPass w) = true
  /\ pending (reader (ss w')) = ["QUIT" +:+ CRLF]
  /\ sent (conn (ss w')) = ["250 I have sucessfully done nothing"].
Proof.
  intros w.
  apply (undisturbing_commands asciiToUpper demoParseEmailAddress demoNewRecipient demoMgr
           demoDeliver demoTimeNow demoConnWrite demoServer ("noop" +:+ CRLF)
           ["QUIT" +:+ CRLF] "NOOP" "" w).
  - vm_compute. discriminate.
  - reflexivity.
  - vm_compute. reflexivity.
  - left. reflexivity.
Defined.

Lemma RSET_resets_witness :
  let w := demoSessionAt MAIL [rcptB] (wire ["RSET"]) in
  let w' := fst (demoPass w) in
  state (ss w') = READY
  /\ from (ss w') = ""
  /\ recipients (ss w') = []
  /\ remoteDomain (ss w') = "client.example"
  /\ sent (conn (ss w')) = ["250 Session reset"]
  /\ snd (demoPass w) = true.
Proof.
  intros w.
  apply (RSET_resets asciiToUpper demoParseEmailAddress demoNewRecipient demoMgr
           demoDeliver demoTimeNow demoConnWrite demoServer ("RSET" +:+ CRLF) [] "" w).
  - vm_compute. discriminate.
  - reflexivity.
  - vm_compute. reflexivity.
Defined.

Lemma QUIT_ends_session_witness :
  let w := demoSessionAt MAIL [rcptB] (wire ["QUIT"]) in
  let w' := fst (demoPass w) in
  state (ss w') = QUIT
  /\ loopCond demoMgr w' = false
  /\ sent (conn (ss w')) = ["221 Goodnight and good luck"]
  /\ from (ss w') = "a@ex"
  /\ recipients (ss w') = [rcptB]
  /\ delivered w' = [].
Proof.
  intros w.
  apply (QUIT_ends_session asciiToUpper demoParseEmailAddress demoNewRecipient demoMgr
           demoDeliver demoTimeNow demoConnWrite demoServer ("QUIT" +:+ CRLF) [] "" w).
  - vm_compute. discriminate.
  - reflexivity.
  - vm_compute. reflexivity.
Defined.

Lemma rejected_lines_witness :
  let w := demoSessionAt MAIL [rcptB] (wire ["BLAH x"]) in
  let w' := fst (demoPass w) in
  unchanged demoMgr w w'
  /\ snd (demoPass w) = true
  /\ sent (conn (ss w')) = ["500 Syntax error, BLAH command unrecognized"].
Proof.
  intros w.
  apply (rejected_lines asciiToUpper demoParseEmailAddress demoNewRecipient demoMgr
           demoDeliver demoTimeNow demoConnWrite demoServer ("BLAH x" +:+ CRLF) []
           "BLAH" "x" true w).
  - vm_compute. discriminate.
  - reflexivity.
  - vm_compute. reflexivity.
  - right. right. vm_compute. reflexivity.
Defined.

Lemma connection_gauge_balanced_witness :
  expConnectsCurrent (demoRun ["HELO x"; "QUIT"]) = expConnectsCurrent demoWorld.
Proof.
  apply (connection_gauge_balanced asciiToUpper demoParseEmailAddress demoNewRecipient
           demoMgr demoDeliver demoTimeNow demoConnWrite demoServer 1 "10.0.0.1"
           (wire ["HELO x"; "QUIT"]) demoWorld).
  vm_compute. split; discriminate.
Defined.

Lemma accepted_sender_is_bracketed_witness :
  let w := demoSessionAt READY [] (wire []) in
  let w' := readyHandler asciiToUpper demoParseEmailAddress demoMgr demoConnWrite
              demoServer "MAIL" "from: <s@ex> SIZE=10" w in
  "MAIL" = "MAIL"
  /\ from (ss w') <> ""
  /\ demoParseEmailAddress (from (ss w')) <> None
  /\ exists kw ws params,
       "from: <s@ex> SIZE=10" = kw +:+ ws +:+ String "<" (from (ss w') +:+ String ">" params)
       /\ asciiToUpper kw = "FROM:"
       /\ allBytes isSpace ws = true
       /\ inSet params ">" = false.
Proof.
  intros w.
  apply (accepted_sender_is_bracketed asciiToUpper demoParseEmailAddress demoMgr
           demoConnWrite demoServer "MAIL" "from: <s@ex> SIZE=10" w).
  - vm_compute. discriminate.
  - vm_compute. reflexivity.
Defined.

Lemma MAIL_parameters_without_pair_witness :
  let w := demoSessionAt READY [] (wire []) in
  let w' := readyHandler asciiToUpper demoParseEmailAddress demoMgr demoConnWrite
              demoServer "MAIL" "FROM:<s@ex> BODY" w in
  same demoMgr w w'
  /\ sent (conn (ss w')) = ["501 Unable to parse MAIL ESMTP parameters"].
Proof.
  intros w.
  pose (m := match FindStringSubmatch mailFromRe "FROM:<s@ex> BODY" with
             | Some m => m
             | None => nocaps
             end).
  apply (MAIL_parameters_without_pair asciiToUpper demoParseEmailAddress demoMgr
           demoConnWrite demoServer "FROM:<s@ex> BODY" m w).
  - vm_compute. reflexivity.
  - vm_compute. discriminate.
  - vm_compute. discriminate.
  - vm_compute. reflexivity.
Defined.

Lemma advertised_SIZE_declared_witness :
  let w := demoSessionAt READY [] (wire []) in
  let w' := readyHandler asciiToUpper demoParseEmailAddress demoMgr demoConnWrite
              demoServer "MAIL" "FROM:<s@ex> SIZE=1000" w in
  let w'' := readyHandler asciiToUpper demoParseEmailAddress demoMgr demoConnWrite
               (mkServer "mail.test" 3000000000 2) "MAIL"
               "FROM:<s@ex> SIZE=3000000000" w in
  (state (ss w') = MAIL
   /\ from (ss w') = "s@ex"
   /\ sent (conn (ss w')) = ["250 Roger, accepting mail from <s@ex>"])
  /\ (same demoMgr w w''
      /\ sent (conn (ss w'')) = ["501 Unable to parse SIZE as an integer"]).
Proof.
  intros w. split.
  - pose (m := match FindStringSubmatch mailFromRe "FROM:<s@ex> SIZE=1000" with
               | Some m => m
               | None => nocaps
               end).
    pose (args := fst (fst (parseArgs asciiToUpper demoMgr (m 2%nat) w))).
    destruct (advertised_SIZE_declared asciiToUpper demoParseEmailAddress demoMgr
                demoConnWrite demoServer "FROM:<s@ex> SIZE=1000" m ("s@ex", "") args w)
      as (_ & H & _).
    + vm_compute. reflexivity.
    + vm_compute. reflexivity.
    + vm_compute. discriminate.
    + vm_compute. reflexivity.
    + vm_compute. reflexivity.
    + apply H. vm_compute. discriminate.
  - pose (m := match FindStringSubmatch mailFromRe "FROM:<s@ex> SIZE=3000000000" with
               | Some m => m
               | None => nocaps
               end).
    pose (args := fst (fst (parseArgs asciiToUpper demoMgr (m 2%nat) w))).
    destruct (advertised_SIZE_declared asciiToUpper demoParseEmailAddress demoMgr
                demoConnWrite (mkServer "mail.test" 3000000000 2)
                "FROM:<s@ex> SIZE=3000000000" m ("s@ex", "") args w)
      as (_ & _ & H).
    + vm_compute. reflexivity.
    + vm_compute. reflexivity.
    + vm_compute. discriminate.
    + vm_compute. reflexivity.
    + vm_compute. reflexivity.
    + apply H. vm_compute. reflexivity.
Defined.

Lemma greeting_write_failure_witness :
  let w' := startSession asciiToUpper demoParseEmailAddress demoNewRecipient demoMgr
              demoDeliver demoTimeNow (fun _ _ => WriteFailed OtherError) demoServer
              1 "10.0.0.1" (wire ["HELO x"; "QUIT"]) demoWorld in
  reader (ss w') = wire ["HELO x"; "QUIT"]
  /\ sent (conn (ss w')) = ["220 mail.test Inbucket SMTP ready"]
  /\ state (ss w') = GREET
  /\ sendError (ss w') <> None
  /\ delivered w' = []
  /\ manager w' = [].
Proof.
  intros w'.
  apply (greeting_write_failure asciiToUpper demoParseEmailAddress demoNewRecipient demoMgr
           demoDeliver demoTimeNow (fun _ _ => WriteFailed OtherError) demoServer
           1 "10.0.0.1" (wire ["HELO x"; "QUIT"]) demoWorld).
  discriminate.
Defined.

Lemma ESMTP_parameters_from_text_witness :
  exists key pre post,
    "BODY" = asciiToUpper key
    /\ " SIZE=1000 body=8BITMIME" = pre +:+ String SP (key +:+ String "=" ("8BITMIME" +:+ post))
    /\ key <> "" /\ allBytes isWord key = true
    /\ "8BITMIME" <> "" /\ allBytes isWord "8BITMIME" = true.
Proof.
  apply (ESMTP_parameters_from_text asciiToUpper demoMgr " SIZE=1000 body=8BITMIME"
           demoWorld
           (fst (fst (parseArgs asciiToUpper demoMgr " SIZE=1000 body=8BITMIME" demoWorld)))
           "BODY" "8BITMIME").
  - vm_compute. reflexivity.
  - vm_compute. reflexivity.
Defined.

Lemma declared_SIZE_not_negative_witness :
  ParseInt32 "1000" = Some 1000 /\ 0 <= 1000 <= 2 ^ 31 - 1.
Proof.
  split; [reflexivity|].
  apply (declared_SIZE_not_negative asciiToUpper demoMgr " SIZE=1000 body=8BITMIME"
           demoWorld
           (fst (fst (parseArgs asciiToUpper demoMgr " SIZE=1000 body=8BITMIME" demoWorld)))
           "1000" 1000).
  - vm_compute. reflexivity.
  - vm_compute. reflexivity.
  - vm_compute. reflexivity.
Defined.

Lemma RCPT_address_is_trimmed_witness :
  let w := demoSessionAt MAIL [rcptB] (wire []) in
  let w' := mailHandler asciiToUpper demoNewRecipient demoMgr demoConnWrite demoServer
              "RCPT" "to: <<c@ex>> " w in
  exists addr recip,
    4 <= len "to: <<c@ex>> "
    /\ asciiToUpper (sliceTo 3 "to: <<c@ex>> ") = "TO:"
    /\ isTrimOf "<> " (sliceFrom 3 "to: <<c@ex>> ") addr
    /\ demoNewRecipient addr = Some recip
    /\ Z.of_nat (length (recipients (ss w))) < maxRecips demoServer
    /\ recipients (ss w') = recipients (ss w) ++ [recip]
    /\ sent (conn (ss w'))
       = sent (conn (ss w)) ++ ["250 I'll make sure <" +:+ addr +:+ "> gets this"].
Proof.
  intros w.
  apply (RCPT_address_is_trimmed asciiToUpper demoNewRecipient demoMgr demoConnWrite
           demoServer "to: <<c@ex>> " w).
  vm_compute. discriminate.
Defined.
